(** * 0xmeta-merchant: the browser payment client and the payment ledger

    A shallow embedding of [app/templates/static/js/app.js] (configuration
    loading, category selection, wallet connection, the EIP-3009
    authorization builder and the paid request) and of the tables
    [payment_transactions] and [signal_items] of
    [app/database/migrations/001_initial_schema.sql].

    Modelling conventions.
    - A JavaScript string is a Rocq [string]: a sequence of 8-bit code
      units (the Latin-1 range, which is also the domain of [btoa]).  The
      pictographs that open the script's alert messages lie outside that
      range and are left out of the message texts.
    - A JavaScript number is [NaN] or an exact integer [Num z]; arithmetic
      is exact, which agrees with IEEE doubles on the safe-integer range
      (magnitude below 2^53).  Fractional numbers are outside the model.
    - Asynchronous calls to the browser, the wallet and the network are
      capabilities of an explicit environment; the module-level variables
      of the script are an explicit record threaded through a state and
      exception monad. *)

From Stdlib Require Import ZArith List String Ascii Bool Lia.
From Stdlib Require Strings.Byte.
Import ListNotations.

Local Open Scope string_scope.
Local Open Scope Z_scope.

Set Warnings "-register-all".

(* ====================================================================== *)
(** * JavaScript values and the built-ins the script uses                 *)
(* ====================================================================== *)

Module JS.

Inductive number : Type :=
| NaN
| Num (z : Z).

Inductive value : Type :=
| Undefined
| Null
| Bool (b : bool)
| Number (n : number)
| Str (s : string)
| Arr (elems : list value)
| Obj (fields : list (string * value)).

(** A thrown value: an [Error] with its [message], or the error object of
    the wallet provider, which also carries a numeric [code]. *)
Inductive exn : Type :=
| Error (message : string)
| ProviderError (code : Z) (message : string).

Inductive completion (A : Type) : Type :=
| Ok (a : A)
| Throw (e : exn).
Arguments Ok {A} a.
Arguments Throw {A} e.

Definition message (e : exn) : string :=
  match e with
  | Error m => m
  | ProviderError _ m => m
  end.

(** ** Objects: insertion-ordered own properties *)

Fixpoint lookup (k : string) (fields : list (string * value)) : option value :=
  match fields with
  | [] => None
  | (k', v) :: rest => if String.eqb k k' then Some v else lookup k rest
  end.

Fixpoint assign (k : string) (v : value) (fields : list (string * value))
  : list (string * value) :=
  match fields with
  | [] => [(k, v)]
  | (k', v') :: rest =>
      if String.eqb k k' then (k', v) :: rest else (k', v') :: assign k v rest
  end.

(** [o.k] where [k] is not a built-in property of a primitive wrapper:
    reading from [null] or [undefined] throws, reading from a primitive or
    an array gives [undefined]. *)
Definition get (o : value) (k : string) : completion value :=
  match o with
  | Undefined | Null =>
      Throw (Error ("Cannot read properties of null or undefined (reading '" ++ k ++ "')"))
  | Obj fields =>
      Ok (match lookup k fields with Some v => v | None => Undefined end)
  | _ => Ok Undefined
  end.

(** [o.k = v] in a classic (non-strict) script: silently ignored on a
    primitive, a [TypeError] on [null] and [undefined]. *)
Definition set (o : value) (k : string) (v : value) : completion value :=
  match o with
  | Undefined | Null =>
      Throw (Error ("Cannot set properties of null or undefined (setting '" ++ k ++ "')"))
  | Obj fields => Ok (Obj (assign k v fields))
  | other => Ok other
  end.

(** ToBoolean *)
Definition truthy (v : value) : bool :=
  match v with
  | Undefined | Null => false
  | Bool b => b
  | Number NaN => false
  | Number (Num z) => negb (z =? 0)
  | Str s => negb (String.eqb s "")
  | Arr _ | Obj _ => true
  end.

(** ** Digits *)

(** The digit characters of [Number.prototype.toString(radix)]. *)
Definition digit_char (d : Z) : ascii :=
  ascii_of_N (Z.to_N (if d <? 10 then 48 + d else 87 + d)).

(** The value of a character as a digit, as [parseInt] reads it: both
    letter cases are accepted. *)
Definition digit_val (c : ascii) : option Z :=
  let n := Z.of_N (N_of_ascii c) in
  if (48 <=? n) && (n <=? 57) then Some (n - 48)
  else if (97 <=? n) && (n <=? 122) then Some (n - 87)
  else if (65 <=? n) && (n <=? 90) then Some (n - 55)
  else None.

Fixpoint to_digits (fuel : nat) (radix n : Z) (acc : string) : string :=
  let acc' := String (digit_char (n mod radix)) acc in
  match fuel with
  | O => acc'
  | S fuel' =>
      if n / radix =? 0 then acc' else to_digits fuel' radix (n / radix) acc'
  end.

(** [n.toString(radix)] for an integer [n] and [2 <= radix <= 36]. *)
Definition toString_radix (radix n : Z) : string :=
  let body := to_digits (Z.to_nat (Z.log2 (Z.abs n))) radix (Z.abs n) "" in
  if n <? 0 then String "-" body else body.

Definition number_toString (n : number) : string :=
  match n with
  | NaN => "NaN"
  | Num z => toString_radix 10 z
  end.

Fixpoint join (sep : string) (l : list string) : string :=
  match l with
  | [] => ""
  | [s] => s
  | s :: rest => s ++ sep ++ join sep rest
  end.

(** [String(v)] *)
Fixpoint ToString (v : value) : string :=
  match v with
  | Undefined => "undefined"
  | Null => "null"
  | Bool true => "true"
  | Bool false => "false"
  | Number n => number_toString n
  | Str s => s
  | Arr elems =>
      join ","
        (map (fun x => match x with
                       | Undefined | Null => ""
                       | _ => ToString x
                       end) elems)
  | Obj _ => "[object Object]"
  end.

(** ** parseInt *)

Definition is_whitespace (c : ascii) : bool :=
  let n := N_of_ascii c in
  ((9 <=? n) && (n <=? 13) || (n =? 32) || (n =? 160))%N.

Fixpoint trim_start (s : string) : string :=
  match s with
  | String c rest => if is_whitespace c then trim_start rest else s
  | EmptyString => s
  end.

(** Reads the longest prefix of digits below [radix], most significant
    first; the flag tells whether any digit was read, the string is what
    follows the digits. *)
Fixpoint parse_digits (radix : Z) (s : string) (acc : Z) (seen : bool)
  : Z * bool * string :=
  match s with
  | String c rest =>
      match digit_val c with
      | Some d =>
          if d <? radix then parse_digits radix rest (acc * radix + d) true
          else (acc, seen, s)
      | None => (acc, seen, s)
      end
  | EmptyString => (acc, seen, s)
  end.

Definition strip_hex_prefix (s : string) : option string :=
  match s with
  | String "0" (String "x" rest) => Some rest
  | String "0" (String "X" rest) => Some rest
  | _ => None
  end.

(** [parseInt(v, radix)]; [radix = None] is the one-argument call. *)
Definition parseInt (v : value) (radix : option Z) : number :=
  let s := trim_start (ToString v) in
  let '(sign, s) :=
    match s with
    | String "-" rest => (-1, rest)
    | String "+" rest => (1, rest)
    | _ => (1, s)
    end in
  let r := match radix with Some r => r | None => 0 end in
  let strip := (r =? 0) || (r =? 16) in
  let r := if r =? 0 then 10 else r in
  if (r <? 2) || (36 <? r) then NaN
  else
    let '(r, s) :=
      if strip then
        match strip_hex_prefix s with
        | Some rest => (16, rest)
        | None => (r, s)
        end
      else (r, s) in
    match parse_digits r s 0 false with
    | (n, true, _) => Num (sign * n)
    | (_, false, _) => NaN
    end.

(** The binary [+] of the script, on two numbers. *)
Definition add (a b : number) : number :=
  match a, b with
  | Num x, Num y => Num (x + y)
  | _, _ => NaN
  end.

(** ** String.prototype.padStart *)

Fixpoint take (n : nat) (s : string) : string :=
  match n, s with
  | S n', String c rest => String c (take n' rest)
  | _, _ => ""
  end.

Fixpoint repeat_string (n : nat) (s : string) : string :=
  match n with
  | O => ""
  | S n' => s ++ repeat_string n' s
  end.

(** [s.padStart(target, pad)] *)
Definition padStart (target : nat) (pad s : string) : string :=
  let len := String.length s in
  if (target <=? len)%nat || String.eqb pad "" then s
  else
    let fill := (target - len)%nat in
    take fill (repeat_string fill pad) ++ s.

(** ** JSON.stringify *)

Definition dquote : ascii := ascii_of_N 34.
Definition backslash : ascii := ascii_of_N 92.

Definition hex4 (n : Z) : string :=
  padStart 4 "0" (toString_radix 16 n).

(** The escape of one code unit inside a JSON string literal. *)
Definition escape_char (c : ascii) : string :=
  let n := Z.of_N (N_of_ascii c) in
  if (n =? 34) || (n =? 92) then String backslash (String c "")
  else if n =? 8 then String backslash "b"
  else if n =? 12 then String backslash "f"
  else if n =? 10 then String backslash "n"
  else if n =? 13 then String backslash "r"
  else if n =? 9 then String backslash "t"
  else if n <? 32 then String backslash ("u" ++ hex4 n)
  else String c "".

Fixpoint escape (s : string) : string :=
  match s with
  | String c rest => escape_char c ++ escape rest
  | EmptyString => ""
  end.

Definition quote (s : string) : string :=
  String dquote (escape s ++ String dquote "").

(** [JSON.stringify(v)]: [None] stands for the result [undefined].  An
    [undefined] element of an array is written [null], an [undefined]
    property of an object is left out, [NaN] is written [null]. *)
Fixpoint stringify (v : value) : option string :=
  match v with
  | Undefined => None
  | Null => Some "null"
  | Bool true => Some "true"
  | Bool false => Some "false"
  | Number NaN => Some "null"
  | Number (Num z) => Some (toString_radix 10 z)
  | Str s => Some (quote s)
  | Arr elems =>
      Some ("[" ++
            join ","
              (map (fun x => match stringify x with
                             | Some s => s
                             | None => "null"
                             end) elems) ++
            "]")
  | Obj fields =>
      Some ("{" ++
            join ","
              (flat_map (fun kv => match stringify (snd kv) with
                                   | Some s => [quote (fst kv) ++ ":" ++ s]
                                   | None => []
                                   end) fields) ++
            "}")
  end.

(** ** String.prototype.slice, trim, toLowerCase and a pattern test *)

(** An index argument of [slice] on a sequence of length [len]: counted
    from the end when negative, clamped to the sequence. *)
Definition slice_index (len i : Z) : Z :=
  if i <? 0 then Z.max (len + i) 0 else Z.min i len.

Fixpoint drop (n : nat) (s : string) : string :=
  match n, s with
  | S n', String _ rest => drop n' rest
  | _, _ => s
  end.

(** [s.slice(start, end)]; [end_ = None] is the one-argument call. *)
Definition slice (s : string) (start : Z) (end_ : option Z) : string :=
  let len := Z.of_nat (String.length s) in
  let from := slice_index len start in
  let upto := match end_ with Some e => slice_index len e | None => len end in
  take (Z.to_nat (upto - from)) (drop (Z.to_nat from) s).

(** [a.slice(start, end)] on an array *)
Definition slice_list {A} (l : list A) (start : Z) (end_ : option Z) : list A :=
  let len := Z.of_nat (List.length l) in
  let from := slice_index len start in
  let upto := match end_ with Some e => slice_index len e | None => len end in
  firstn (Z.to_nat (upto - from)) (skipn (Z.to_nat from) l).

Fixpoint trim_end (s : string) : string :=
  match s with
  | EmptyString => ""
  | String c rest =>
      let r := trim_end rest in
      if String.eqb r "" && is_whitespace c then "" else String c r
  end.

(** [s.trim()] *)
Definition trim (s : string) : string := trim_end (trim_start s).

(** The lower-case form of a code unit below 256: the letters A-Z and
    the accented capitals, all but the multiplication sign. *)
Definition lower_char (c : ascii) : ascii :=
  let n := Z.of_N (N_of_ascii c) in
  if ((65 <=? n) && (n <=? 90)) ||
     ((192 <=? n) && (n <=? 222) && negb (n =? 215))
  then ascii_of_N (Z.to_N (n + 32))
  else c.

(** [s.toLowerCase()] *)
Fixpoint toLowerCase (s : string) : string :=
  match s with
  | String c rest => String (lower_char c) (toLowerCase rest)
  | EmptyString => ""
  end.

Fixpoint every_char (p : ascii -> bool) (s : string) : bool :=
  match s with
  | String c rest => p c && every_char p rest
  | EmptyString => true
  end.

(** The character class [[a-z0-9_-]] *)
Definition category_char (c : ascii) : bool :=
  let n := Z.of_N (N_of_ascii c) in
  ((97 <=? n) && (n <=? 122)) || ((48 <=? n) && (n <=? 57)) ||
  (n =? 95) || (n =? 45).

(** [/^[a-z0-9_-]+$/.test(s)] *)
Definition category_pattern (s : string) : bool :=
  negb (String.eqb s "") && every_char category_char s.

(** ** btoa *)

(** The character of a 6-bit value in the base64 alphabet. *)
Definition b64_char (n : Z) : ascii :=
  ascii_of_N (Z.to_N
    (if n <? 26 then 65 + n
     else if n <? 52 then 97 + (n - 26)
     else if n <? 62 then 48 + (n - 52)
     else if n =? 62 then 43
     else 47)).

Definition code (c : ascii) : Z := Z.of_N (N_of_ascii c).

Definition pad_char : ascii := "=".

(** [btoa(s)]: every three code units give four characters; a last group
    of one or two code units is padded with [=]. *)
Fixpoint btoa (s : string) : string :=
  match s with
  | EmptyString => ""
  | String a EmptyString =>
      String (b64_char (code a / 4))
        (String (b64_char (code a mod 4 * 16))
           (String pad_char (String pad_char "")))
  | String a (String b EmptyString) =>
      String (b64_char (code a / 4))
        (String (b64_char (code a mod 4 * 16 + code b / 16))
           (String (b64_char (code b mod 16 * 4))
              (String pad_char "")))
  | String a (String b (String c rest)) =>
      String (b64_char (code a / 4))
        (String (b64_char (code a mod 4 * 16 + code b / 16))
           (String (b64_char (code b mod 16 * 4 + code c / 64))
              (String (b64_char (code c mod 64)) (btoa rest))))
  end.

End JS.

(* ====================================================================== *)
(** * The decoding side of the payment envelope                           *)
(* ====================================================================== *)

(** The script only encodes the envelope; the decoder runs on the server,
    whose code is not part of these sources. *)
Module Decode.
Import JS.

Definition b64_val (c : ascii) : option Z :=
  let n := code c in
  if (65 <=? n) && (n <=? 90) then Some (n - 65)
  else if (97 <=? n) && (n <=? 122) then Some (n - 97 + 26)
  else if (48 <=? n) && (n <=? 57) then Some (n - 48 + 52)
  else if n =? 43 then Some 62
  else if n =? 47 then Some 63
  else None.

Definition char_of (n : Z) : ascii := ascii_of_N (Z.to_N n).

(** Modelled from the spec: the base64 decoding step of "decode" (the
    inverse of the script's [btoa]); the server's decoder is missing from
    the sources.  Groups of four alphabet characters give three code
    units, a final group may end in one or two [=]; anything else is a
    decode failure. *)
Fixpoint atob (s : string) : option string :=
  match s with
  | EmptyString => Some ""
  | String c1 (String c2 (String c3 (String c4 rest))) =>
      match b64_val c1, b64_val c2 with
      | Some n1, Some n2 =>
          let b1 := char_of (n1 * 4 + n2 / 16) in
          if Ascii.eqb c3 pad_char && Ascii.eqb c4 pad_char && String.eqb rest ""
          then Some (String b1 "")
          else
            match b64_val c3 with
            | Some n3 =>
                let b2 := char_of (n2 mod 16 * 16 + n3 / 4) in
                if Ascii.eqb c4 pad_char && String.eqb rest ""
                then Some (String b1 (String b2 ""))
                else
                  match b64_val c4 with
                  | Some n4 =>
                      let b3 := char_of (n3 mod 4 * 64 + n4) in
                      match atob rest with
                      | Some tail => Some (String b1 (String b2 (String b3 tail)))
                      | None => None
                      end
                  | None => None
                  end
            | None => None
            end
      | _, _ => None
      end
  | _ => None
  end.

Definition is_json_ws (c : ascii) : bool :=
  let n := code c in
  (n =? 32) || (n =? 9) || (n =? 10) || (n =? 13).

Fixpoint skip_ws (s : string) : string :=
  match s with
  | String c rest => if is_json_ws c then skip_ws rest else s
  | EmptyString => s
  end.

Definition hex_val (c : ascii) : option Z :=
  match digit_val c with
  | Some d => if d <? 16 then Some d else None
  | None => None
  end.

(** The code unit a one-letter escape stands for. *)
Definition unescape (e : ascii) : option ascii :=
  let n := code e in
  if (n =? 34) || (n =? 92) || (n =? 47) then Some e
  else if n =? 98 then Some (char_of 8)
  else if n =? 102 then Some (char_of 12)
  else if n =? 110 then Some (char_of 10)
  else if n =? 114 then Some (char_of 13)
  else if n =? 116 then Some (char_of 9)
  else None.

Definition cons_char (c : ascii) (r : option (string * string))
  : option (string * string) :=
  match r with
  | Some (body, rest) => Some (String c body, rest)
  | None => None
  end.

(** The characters of a string literal after its opening quote, up to
    and including the closing quote. *)
Fixpoint parse_chars (s : string) : option (string * string) :=
  match s with
  | EmptyString => None
  | String c rest =>
      if Ascii.eqb c dquote then Some ("", rest)
      else if Ascii.eqb c backslash then
        match rest with
        | String e rest1 =>
            if Ascii.eqb e "u" then
              match rest1 with
              | String h1 (String h2 (String h3 (String h4 rest2))) =>
                  match hex_val h1, hex_val h2, hex_val h3, hex_val h4 with
                  | Some d1, Some d2, Some d3, Some d4 =>
                      let n := ((d1 * 16 + d2) * 16 + d3) * 16 + d4 in
                      if n <? 256 then cons_char (char_of n) (parse_chars rest2)
                      else None
                  | _, _, _, _ => None
                  end
              | _ => None
              end
            else
              match unescape e with
              | Some ch => cons_char ch (parse_chars rest1)
              | None => None
              end
        | EmptyString => None
        end
      else if code c <? 32 then None
      else cons_char c (parse_chars rest)
  end.

Definition starts_with_digit (s : string) : bool :=
  match s with
  | String c _ => (48 <=? code c) && (code c <=? 57)
  | EmptyString => false
  end.

Definition starts_fraction (s : string) : bool :=
  match s with
  | String c _ => (code c =? 46) || (code c =? 101) || (code c =? 69)
  | EmptyString => false
  end.

(** An integer literal: an optional minus sign, then a single [0] or a
    digit sequence without leading zero.  A fraction or an exponent is not
    a value of the model and fails. *)
Definition parse_number (s : string) : option (Z * string) :=
  let '(sign, body) :=
    match s with
    | String "-" rest => (-1, rest)
    | _ => (1, s)
    end in
  match body with
  | String "0" rest =>
      if starts_with_digit rest || starts_fraction rest then None
      else Some (0, rest)
  | _ =>
      match parse_digits 10 body 0 false with
      | (n, true, rest) =>
          if starts_fraction rest then None else Some (sign * n, rest)
      | (_, false, _) => None
      end
  end.

Fixpoint strip_prefix (p s : string) : option string :=
  match p, s with
  | EmptyString, _ => Some s
  | String a p', String b s' => if Ascii.eqb a b then strip_prefix p' s' else None
  | String _ _, EmptyString => None
  end.

Section Sequences.
Variable p : string -> option (value * string).

(** [v , v , ... ]] after the opening bracket of a non-empty array. *)
Fixpoint parse_elements (fuel : nat) (s : string)
  : option (list value * string) :=
  match fuel with
  | O => None
  | S fuel' =>
      match p s with
      | Some (v, rest) =>
          match skip_ws rest with
          | String "," rest' =>
              match parse_elements fuel' rest' with
              | Some (vs, r) => Some (v :: vs, r)
              | None => None
              end
          | String "]" rest' => Some ([v], rest')
          | _ => None
          end
      | None => None
      end
  end.

(** ["k" : v , ... }] after the opening brace of a non-empty object. *)
Fixpoint parse_members (fuel : nat) (s : string)
  : option (list (string * value) * string) :=
  match fuel with
  | O => None
  | S fuel' =>
      match skip_ws s with
      | String c rest =>
          if Ascii.eqb c dquote then
            match parse_chars rest with
            | Some (k, rest1) =>
                match skip_ws rest1 with
                | String ":" rest2 =>
                    match p rest2 with
                    | Some (v, rest3) =>
                        match skip_ws rest3 with
                        | String "," rest4 =>
                            match parse_members fuel' rest4 with
                            | Some (kvs, r) => Some ((k, v) :: kvs, r)
                            | None => None
                            end
                        | String "}" rest4 => Some ([(k, v)], rest4)
                        | _ => None
                        end
                    | None => None
                    end
                | _ => None
                end
            | None => None
            end
          else None
      | EmptyString => None
      end
  end.
End Sequences.

(** A later member with the same key replaces the earlier value. *)
Definition object_of (members : list (string * value)) : value :=
  Obj (fold_left (fun acc kv => assign (fst kv) (snd kv) acc) members []).

Definition literal (word : string) (v : value) (s : string)
  : option (value * string) :=
  match strip_prefix word s with
  | Some rest => Some (v, rest)
  | None => None
  end.

Fixpoint parse_value (fuel : nat) (s : string) : option (value * string) :=
  match fuel with
  | O => None
  | S fuel' =>
      match skip_ws s with
      | EmptyString => None
      | String c rest as s' =>
          if Ascii.eqb c "{" then
            match skip_ws rest with
            | String "}" rest' => Some (Obj [], rest')
            | _ =>
                match parse_members (parse_value fuel') fuel' rest with
                | Some (kvs, r) => Some (object_of kvs, r)
                | None => None
                end
            end
          else if Ascii.eqb c "[" then
            match skip_ws rest with
            | String "]" rest' => Some (Arr [], rest')
            | _ =>
                match parse_elements (parse_value fuel') fuel' rest with
                | Some (vs, r) => Some (Arr vs, r)
                | None => None
                end
            end
          else if Ascii.eqb c dquote then
            match parse_chars rest with
            | Some (str, r) => Some (Str str, r)
            | None => None
            end
          else if Ascii.eqb c "n" then literal "null" Null s'
          else if Ascii.eqb c "t" then literal "true" (Bool true) s'
          else if Ascii.eqb c "f" then literal "false" (Bool false) s'
          else
            match parse_number s' with
            | Some (z, r) => Some (Number (Num z), r)
            | None => None
            end
      end
  end.

(** Modelled from the spec: the JSON parsing step of "decode" (the inverse
    of the script's [JSON.stringify]); the server's decoder is missing
    from the sources.  Malformed text, or anything but white space after
    the value, is a decode failure. *)
Definition JSON_parse (s : string) : option value :=
  match parse_value (S (String.length s)) s with
  | Some (v, rest) =>
      match skip_ws rest with
      | EmptyString => Some v
      | _ => None
      end
  | None => None
  end.

(** Modelled from the spec: "decode" of the payment envelope, which the
    server performs on the [X-Payment] header and whose code is missing
    from the sources: base64-decode the blob, then parse it as JSON. *)
Definition decode (blob : string) : option value :=
  match atob blob with
  | Some text => JSON_parse text
  | None => None
  end.

End Decode.

(* ====================================================================== *)
(** * The script: state, effects and the payment flow                     *)
(* ====================================================================== *)

Module App.
Import JS.

Definition OXMETA_FEE_USDC_WEI : Z := 10000.

(** What the script uses of a [fetch] response; [json] is the outcome of
    awaiting [response.json()]. *)
Record Response : Type := {
  ok : bool;
  status : Z;
  json : completion value
}.

(** A call of the script to the outside, in program order.  The page
    itself (DOM updates, console output) is not recorded. *)
Inductive event : Type :=
| Alert (msg : string)
| GetRandomValues (bytes : list Byte.byte)
| ContractCall (address method : string)
| EthereumRequest (args : value)
| Fetch (url : string) (headers : list (string * string)).

Section Client.
Context {World : Type}.

(** A [Web3] instance: the two services the script asks of it. *)
Record Web3 : Type := {
  toChecksumAddress : value -> completion string;
  contract_call : string -> string -> World -> completion value * World
}.

(** [window.ethereum] *)
Record Provider : Type := {
  isMetaMask : bool;
  request : value -> World -> completion value * World
}.

(** The browser around the script.  [crypto_random w i] is the byte
    [window.crypto.getRandomValues] writes at index [i] when called in
    world [w]; [add_fee_toFixed2] is the floating-point display amount
    [(parseFloat(x) + OXMETA_FEE_USDC).toFixed(2)], which no payment field
    depends on. *)
Record Env : Type := {
  Date_now : World -> Z;
  crypto_random : World -> nat -> Byte.byte;
  crypto_next : World -> World;
  ethereum : option Provider;
  new_Web3 : Web3;
  fetch : string -> list (string * string) -> World -> completion Response * World;
  add_fee_toFixed2 : value -> string
}.

(** The module-level variables. *)
Record Globals : Type := {
  web3 : option Web3;
  walletAddress : value;
  CONFIG : value;
  selectedCategory : value;
  isCustomCategory : bool
}.

Record State : Type := {
  globals : Globals;
  world : World;
  trace : list event
}.

Definition initial (w : World) : State :=
  {| globals := {| web3 := None; walletAddress := Null; CONFIG := Null;
                   selectedCategory := Null; isCustomCategory := false |};
     world := w;
     trace := [] |}.

(** ** A state and exception monad *)

Definition M (A : Type) : Type := State -> completion A * State.

Definition ret {A} (a : A) : M A := fun st => (Ok a, st).

Definition bind {A B} (m : M A) (k : A -> M B) : M B :=
  fun st =>
    match m st with
    | (Ok a, st') => k a st'
    | (Throw e, st') => (Throw e, st')
    end.

Definition throw {A} (e : exn) : M A := fun st => (Throw e, st).

Definition try_catch {A} (body : M A) (handler : exn -> M A) : M A :=
  fun st =>
    match body st with
    | (Ok a, st') => (Ok a, st')
    | (Throw e, st') => handler e st'
    end.

Definition lift {A} (c : completion A) : M A := fun st => (c, st).

Definition read {A} (f : Globals -> A) : M A := fun st => (Ok (f (globals st)), st).

Definition update (f : Globals -> Globals) : M unit :=
  fun st => (Ok tt, {| globals := f (globals st); world := world st; trace := trace st |}).

Definition emit (e : event) : M unit :=
  fun st => (Ok tt, {| globals := globals st; world := world st; trace := trace st ++ [e] |}).

(** An awaited call to the outside: the world moves on, the script's
    variables do not (no other handler of the page runs in between). *)
Definition external {A} (op : World -> completion A * World) : M A :=
  fun st =>
    let '(r, w') := op (world st) in
    (r, {| globals := globals st; world := w'; trace := trace st |}).

Definition observe {A} (f : World -> A) : M A := fun st => (Ok (f (world st)), st).

Definition set_web3 (v : option Web3) : M unit :=
  update (fun g => {| web3 := v; walletAddress := walletAddress g; CONFIG := CONFIG g;
                      selectedCategory := selectedCategory g;
                      isCustomCategory := isCustomCategory g |}).

Definition set_walletAddress (v : value) : M unit :=
  update (fun g => {| web3 := web3 g; walletAddress := v; CONFIG := CONFIG g;
                      selectedCategory := selectedCategory g;
                      isCustomCategory := isCustomCategory g |}).

Definition set_CONFIG (v : value) : M unit :=
  update (fun g => {| web3 := web3 g; walletAddress := walletAddress g; CONFIG := v;
                      selectedCategory := selectedCategory g;
                      isCustomCategory := isCustomCategory g |}).

Definition set_selectedCategory (v : value) (custom : bool) : M unit :=
  update (fun g => {| web3 := web3 g; walletAddress := walletAddress g; CONFIG := CONFIG g;
                      selectedCategory := v; isCustomCategory := custom |}).

End Client.

Arguments Web3 World : clear implicits.
Arguments Provider World : clear implicits.
Arguments Env World : clear implicits.
Arguments Globals World : clear implicits.
Arguments State World : clear implicits.
Arguments M World A : clear implicits.

Declare Scope js_scope.
Delimit Scope js_scope with js.
Notation "x <- c1 ;; c2" := (bind c1 (fun x => c2))
  (at level 100, c1 at next level, right associativity) : js_scope.
Notation "c1 ;; c2" := (bind c1 (fun _ => c2))
  (at level 100, right associativity) : js_scope.

(** ** Small pieces of the language the script relies on *)

(** [v.length] *)
Definition length_of (v : value) : completion value :=
  match v with
  | Arr elems => Ok (Number (Num (Z.of_nat (List.length elems))))
  | Str s => Ok (Number (Num (Z.of_nat (String.length s))))
  | other => get other "length"
  end.

(** [v[0]] *)
Definition first_of (v : value) : completion value :=
  match v with
  | Arr elems => Ok (nth 0 elems Undefined)
  | Str (String c _) => Ok (Str (String c ""))
  | Str EmptyString => Ok Undefined
  | other => get other "0"
  end.

(** [v === n] for an integer literal [n] *)
Definition is_number (n : Z) (v : value) : bool :=
  match v with
  | Number (Num z) => z =? n
  | _ => false
  end.

(** [v === s] for a string literal [s] *)
Definition is_string (s : string) (v : value) : bool :=
  match v with
  | Str s' => String.eqb s' s
  | _ => false
  end.

(** [e.code] *)
Definition code_of (e : exn) : value :=
  match e with
  | Error _ => Undefined
  | ProviderError c _ => Number (Num c)
  end.

(** [JSON.stringify(v)] as a value *)
Definition JSON_stringify (v : value) : value :=
  match stringify v with
  | Some s => Str s
  | None => Undefined
  end.

(** [a || b] *)
Definition or_else (a b : value) : value := if truthy a then a else b.

Section Script.
Context {World : Type} (env : Env World).
Local Open Scope js_scope.

Definition alert (msg : string) : M World unit := emit (Alert msg).

Definition CONFIG_get (k : string) : M World value :=
  c <- read CONFIG ;; lift (get c k).

Definition CONFIG_set (k : string) (v : value) : M World unit :=
  c <- read CONFIG ;;
  c' <- lift (set c k v) ;;
  set_CONFIG c'.

Definition fetch_ (url : string) (headers : list (string * string))
  : M World Response :=
  emit (Fetch url headers) ;;
  external (fetch env url headers).

(** [window.ethereum.request(args)] *)
Definition ethereum_request (args : value) : M World value :=
  match ethereum env with
  | None => throw (Error "Cannot read properties of undefined (reading 'request')")
  | Some provider =>
      emit (EthereumRequest args) ;;
      external (request provider args)
  end.

Definition isMetaMaskInstalled : bool :=
  match ethereum env with
  | Some provider => isMetaMask provider
  | None => false
  end.

(** *** Config loading *)

Definition loadConfig : M World value :=
  try_catch
    (response <- fetch_ "/api/config" [] ;;
     if negb (ok response) then
       throw (Error ("Failed to fetch config: " ++
                     ToString (Number (Num (status response)))))
     else
       cfg <- lift (json response) ;;
       set_CONFIG cfg ;;
       (* the diagnostic record reads four properties of CONFIG *)
       CONFIG_get "network" ;;
       CONFIG_get "treasury_wallet" ;;
       CONFIG_get "merchant_address" ;;
       CONFIG_get "usdc_address" ;;
       (* Validate and convert *)
       base_url <- CONFIG_get "facilitator_base_url" ;;
       if negb (truthy base_url) then
         throw (Error "Missing facilitator_base_url")
       else
         price <- CONFIG_get "price_usdc_wei" ;;
         CONFIG_set "price_usdc_wei" (Str (ToString price)) ;;
         price' <- CONFIG_get "price_usdc_wei" ;;
         CONFIG_set "total_price_usdc_wei"
           (Str (ToString (Number (add (parseInt price' None)
                                       (Num OXMETA_FEE_USDC_WEI))))) ;;
         price_usdc <- CONFIG_get "price_usdc" ;;
         CONFIG_set "total_price_usdc" (Str (add_fee_toFixed2 env price_usdc)) ;;
         read CONFIG)
    (fun error =>
       alert ("Failed to load configuration: " ++ message error) ;;
       ret Null).

(** *** Category selection (the page's own bookkeeping left out) *)

Definition selectCategory (category : value) (isCustom : bool) : M World unit :=
  set_selectedCategory category isCustom.

(** The click on the category grid: [hit] is the [data-category] of the
    option under the click, if there is one.  The option "other" opens
    the dialog for a custom category and selects nothing yet. *)
Definition categoryClick (hit : option value) : M World unit :=
  match hit with
  | None => ret tt
  | Some category =>
      if is_string "other" category then ret tt
      else selectCategory category false
  end.

(** [input] is the text of the input field of the dialog, if the field
    exists. *)
Definition confirmCustomCategory (input : option string) : M World unit :=
  match input with
  | None => ret tt
  | Some text =>
      let customCategory := toLowerCase (trim text) in
      if String.eqb customCategory "" then
        alert "Please enter a category name"
      else if negb (category_pattern customCategory) then
        alert "Category name can only contain letters, numbers, hyphens, and underscores"
      else
        selectCategory (Str customCategory) true
  end.

(** *** Utility functions *)

Definition shorten (addr : value) : completion string :=
  if negb (truthy addr) then Ok ""
  else
    match addr with
    | Str s => Ok (slice s 0 (Some 6) ++ "..." ++ slice s (-4) None)
    | Arr elems =>
        Ok (ToString (Arr (slice_list elems 0 (Some 6))) ++ "..." ++
            ToString (Arr (slice_list elems (-4) None)))
    | _ => Throw (Error "addr.slice is not a function")
    end.

(** *** Wallet connection *)

Definition switchToNetwork : M World unit :=
  c <- read CONFIG ;;
  match ethereum env with
  | None => ret tt
  | Some _ =>
      if negb (truthy c) then ret tt
      else
        try_catch
          (chain_id <- CONFIG_get "chain_id" ;;
           ethereum_request
             (Obj [("method", Str "wallet_switchEthereumChain");
                   ("params", Arr [Obj [("chainId", chain_id)]])]) ;;
           ret tt)
          (fun switchError =>
             if is_number 4902 (code_of switchError) then
               chain_id <- CONFIG_get "chain_id" ;;
               network <- CONFIG_get "network" ;;
               rpc_url <- CONFIG_get "rpc_url" ;;
               block_explorer <- CONFIG_get "block_explorer" ;;
               let networkParams :=
                 Obj [("chainId", chain_id);
                      ("chainName",
                       Str (if is_string "base" network then "Base" else "Base Sepolia"));
                      ("nativeCurrency",
                       Obj [("name", Str "ETH"); ("symbol", Str "ETH");
                            ("decimals", Number (Num 18))]);
                      ("rpcUrls", Arr [rpc_url]);
                      ("blockExplorerUrls", Arr [block_explorer])] in
               ethereum_request
                 (Obj [("method", Str "wallet_addEthereumChain");
                       ("params", Arr [networkParams])]) ;;
               ret tt
             else ret tt)
  end.

(** The diagnostic line and the display of [shorten(walletAddress)] are
    left out: they matter only for a wallet whose first account is
    neither a string nor an array, on which [shorten] throws. *)
Definition connectWallet : M World unit :=
  try_catch
    (if negb isMetaMaskInstalled then
       alert "MetaMask not found. Please install it."
     else
       c <- read CONFIG ;;
       loaded <- (if negb (truthy c) then
                    c' <- loadConfig ;;
                    set_CONFIG c' ;;
                    ret (truthy c')
                  else ret true) ;;
       if negb loaded then ret tt
       else
         accounts <- ethereum_request (Obj [("method", Str "eth_requestAccounts")]) ;;
         len <- (if truthy accounts then lift (length_of accounts) else ret Undefined) ;;
         if negb (truthy accounts) || is_number 0 len then
           alert "No accounts found"
         else
           account <- lift (first_of accounts) ;;
           set_walletAddress account ;;
           (* Initialize Web3 AFTER getting the address *)
           set_web3 (Some (new_Web3 env)) ;;
           switchToNetwork)
    (fun err => alert ("Failed to connect: " ++ message err)).

(** *** Handlers bound when the page has loaded *)

(** The [accountsChanged] handler; [shown] tells whether the page has
    the element that displays the address. *)
Definition accountsChanged (accounts : value) (shown : bool) : M World unit :=
  len <- lift (length_of accounts) ;;
  if is_number 0 len then
    set_walletAddress Null
  else
    account <- lift (first_of accounts) ;;
    set_walletAddress account ;;
    if shown then lift (shorten account) ;; ret tt else ret tt.


(** *** EIP-3009 authorization *)

(** [new Uint8Array(n)] *)
Definition Uint8Array (n : nat) : list Byte.byte := repeat Byte.x00 n.

(** [window.crypto.getRandomValues(arr)]: every element is overwritten. *)
Definition getRandomValues (arr : list Byte.byte) : M World (list Byte.byte) :=
  bytes <- observe (fun w => map (crypto_random env w) (seq 0 (List.length arr))) ;;
  external (fun w => (Ok tt, crypto_next env w)) ;;
  emit (GetRandomValues bytes) ;;
  ret bytes.

(** [b.toString(16).padStart(2, "0")] *)
Definition byte_hex (b : Byte.byte) : string :=
  padStart 2 "0" (toString_radix 16 (Z.of_N (Byte.to_N b))).

(** ["0x" + Array.from(bytes).map(...).join("")] *)
Definition nonce_of (bytes : list Byte.byte) : string :=
  "0x" ++ join "" (map byte_hex bytes).

(** [usdcContract.methods.<method>().call()] *)
Definition call (w3 : Web3 World) (address method : string) : M World value :=
  emit (ContractCall address method) ;;
  external (contract_call w3 address method).

(** [await Promise.all([a, b])]: both calls are started; the result is
    the pair of their values, or a rejection if one of them rejects. *)
Definition Promise_all {A B} (a : M World A) (b : M World B) : M World (A * B) :=
  fun st =>
    let '(ra, st1) := a st in
    let '(rb, st2) := b st1 in
    match ra, rb with
    | Ok x, Ok y => (Ok (x, y), st2)
    | Throw e, _ => (Throw e, st2)
    | _, Throw e => (Throw e, st2)
    end.

Definition TransferWithAuthorization_type : value :=
  Arr [Obj [("name", Str "from"); ("type", Str "address")];
       Obj [("name", Str "to"); ("type", Str "address")];
       Obj [("name", Str "value"); ("type", Str "uint256")];
       Obj [("name", Str "validAfter"); ("type", Str "uint256")];
       Obj [("name", Str "validBefore"); ("type", Str "uint256")];
       Obj [("name", Str "nonce"); ("type", Str "bytes32")]].

Definition EIP712Domain_type : value :=
  Arr [Obj [("name", Str "name"); ("type", Str "string")];
       Obj [("name", Str "version"); ("type", Str "string")];
       Obj [("name", Str "chainId"); ("type", Str "uint256")];
       Obj [("name", Str "verifyingContract"); ("type", Str "address")]].

(** The object handed to [JSON.stringify] for [eth_signTypedData_v4]. *)
Definition typed_data (domain message : value) : value :=
  Obj [("types", Obj [("EIP712Domain", EIP712Domain_type);
                      ("TransferWithAuthorization", TransferWithAuthorization_type)]);
       ("primaryType", Str "TransferWithAuthorization");
       ("domain", domain);
       ("message", message)].

Definition createEIP3009Authorization : M World value :=
  try_catch
    (w3o <- read web3 ;;
     match w3o with
     | None => throw (Error "Web3 not initialized")
     | Some w3 =>
       wallet <- read walletAddress ;;
       if negb (truthy wallet) then throw (Error "Wallet address not set")
       else
       c <- read CONFIG ;;
       if negb (truthy c) then throw (Error "Config not loaded")
       else
       (* CRITICAL: Checksum ALL addresses *)
       fromAddress <- lift (toChecksumAddress w3 wallet) ;;
       treasury <- CONFIG_get "treasury_wallet" ;;
       toAddress <- lift (toChecksumAddress w3 treasury) ;;
       usdc <- CONFIG_get "usdc_address" ;;
       tokenAddress <- lift (toChecksumAddress w3 usdc) ;;
       meta <- Promise_all (call w3 tokenAddress "name")
                           (call w3 tokenAddress "version") ;;
       let '(tokenName, tokenVersion) := meta in
       (* Generate nonce *)
       nonceBytes <- getRandomValues (Uint8Array 32) ;;
       let nonce := nonce_of nonceBytes in
       chain_id <- CONFIG_get "chain_id" ;;
       let domain :=
         Obj [("name", tokenName);
              ("version", tokenVersion);
              ("chainId", Number (parseInt chain_id (Some 16)));
              ("verifyingContract", Str tokenAddress)] in
       let validAfter := Str "0" in
       now <- observe (Date_now env) ;;
       let validBefore := Str (ToString (Number (Num (now / 1000 + 86400)))) in
       total <- CONFIG_get "total_price_usdc_wei" ;;
       let message :=
         Obj [("from", Str fromAddress);
              ("to", Str toAddress);
              ("value", total);
              ("validAfter", validAfter);
              ("validBefore", validBefore);
              ("nonce", Str nonce)] in
       signature <- ethereum_request
                      (Obj [("method", Str "eth_signTypedData_v4");
                            ("params",
                             Arr [Str fromAddress;
                                  JSON_stringify (typed_data domain message)])]) ;;
       total' <- CONFIG_get "total_price_usdc_wei" ;;
       ret (Obj [("authorization",
                  Obj [("from", Str fromAddress);
                       ("to", Str toAddress);
                       ("value", total');
                       ("validAfter", Str (ToString validAfter));
                       ("validBefore", Str (ToString validBefore));
                       ("nonce", Str nonce);
                       ("token", Str tokenAddress)]);
                 ("signature", signature)])
     end)
    (fun error => throw error).

(** *** Payment flow *)

(** The envelope of [initiatePayment]. *)
Definition paymentPayload (network authorization signature : value) : value :=
  Obj [("x402Version", Number (Num 1));
       ("scheme", Str "exact");
       ("network", network);
       ("payload", Obj [("authorization", authorization);
                        ("signature", signature)])].

(** [btoa(JSON.stringify(v))]; [btoa] applies [String] to its argument. *)
Definition encode (v : value) : string := btoa (ToString (JSON_stringify v)).

Definition initiatePayment : M World unit :=
  try_catch
    (category <- read selectedCategory ;;
     if negb (truthy category) then
       alert "Please select a category first"
     else
       wallet <- read walletAddress ;;
       w3o <- read web3 ;;
       if negb (truthy wallet) || (match w3o with None => true | Some _ => false end) then
         alert "Connect wallet first"
       else
         c <- read CONFIG ;;
         loaded <- (if negb (truthy c) then
                      c' <- loadConfig ;;
                      set_CONFIG c' ;;
                      ret (truthy c')
                    else ret true) ;;
         if negb loaded then ret tt
         else
           built <- createEIP3009Authorization ;;
           authorization <- lift (get built "authorization") ;;
           signature <- lift (get built "signature") ;;
           network <- CONFIG_get "network" ;;
           let xPaymentHeader := encode (paymentPayload network authorization signature) in
           category' <- read selectedCategory ;;
           response <- fetch_ ("/news/" ++ ToString category')
                         [("X-Payment", xPaymentHeader); ("Accept", "application/json")] ;;
           if negb (ok response) then
             errorData <- lift (json response) ;;
             detail <- lift (get errorData "detail") ;;
             throw (Error (ToString (or_else detail (Str "Payment verification failed"))))
           else
             newsData <- lift (json response) ;;
             (* displayNews(newsData) only writes to the page *)
             ret tt)
    (fun error => ret tt).

End Script.

End App.

(* ====================================================================== *)
(** * The payment ledger: table [payment_transactions]                    *)
(* ====================================================================== *)

Module Ledger.

Section Table.
(** Column types whose values the constraints never inspect. *)
Variables (double timestamp jsonb : Type).

(** A row; [None] is SQL [NULL]. *)
Record row : Type := {
  id : option string;                 (* UUID PRIMARY KEY *)
  payment_hash : option string;       (* VARCHAR(200) UNIQUE NOT NULL *)
  endpoint : option string;           (* VARCHAR(100) NOT NULL *)
  category : option string;           (* VARCHAR(50) *)
  amount : option double;             (* DOUBLE PRECISION NOT NULL *)
  verified : option bool;             (* BOOLEAN DEFAULT FALSE *)
  settled : option bool;              (* BOOLEAN DEFAULT FALSE *)
  user_identifier : option string;    (* VARCHAR(200) *)
  user_wallet : option string;        (* VARCHAR(100) *)
  created_at : option timestamp;      (* TIMESTAMP DEFAULT NOW() *)
  verified_at : option timestamp;
  settled_at : option timestamp;
  transaction_data : option jsonb
}.

Definition table : Type := list row.

Definition is_null {A} (x : option A) : bool :=
  match x with None => true | Some _ => false end.

(** [VARCHAR(n)]: a value longer than [n] characters is an error. *)
Definition fits (n : nat) (x : option string) : bool :=
  match x with
  | None => true
  | Some s => (String.length s <=? n)%nat
  end.

(** The column constraints of one row: [NOT NULL] and the lengths. *)
Definition row_ok (r : row) : bool :=
  negb (is_null (id r)) &&
  negb (is_null (payment_hash r)) && fits 200 (payment_hash r) &&
  negb (is_null (endpoint r)) && fits 100 (endpoint r) &&
  fits 50 (category r) &&
  negb (is_null (amount r)) &&
  fits 200 (user_identifier r) && fits 100 (user_wallet r).

Definition same (x y : option string) : bool :=
  match x, y with
  | Some a, Some b => String.eqb a b
  | _, _ => false
  end.

(** [true] when some row of [t] already has this key in the column. *)
Definition taken (col : row -> option string) (key : option string) (t : table) : bool :=
  existsb (fun r => same (col r) key) t.

(** Uniqueness of a column over the whole table. *)
Fixpoint unique (col : row -> option string) (t : table) : bool :=
  match t with
  | [] => true
  | r :: rest => negb (taken col (col r) rest) && unique col rest
  end.

(** [INSERT INTO payment_transactions VALUES r]: [None] is the error the
    database raises, the table is then unchanged. *)
Definition insert (r : row) (t : table) : option table :=
  if row_ok r && negb (taken id (id r) t) && negb (taken payment_hash (payment_hash r) t)
  then Some (t ++ [r])%list
  else None.

(** [UPDATE payment_transactions SET ... WHERE ...]: [change] is applied
    to the rows that [cond] selects; the statement fails as a whole when
    the result breaks a constraint. *)
Definition update (cond : row -> bool) (change : row -> row) (t : table) : option table :=
  let t' := map (fun r => if cond r then change r else r) t in
  if forallb row_ok t' && unique id t' && unique payment_hash t'
  then Some t'
  else None.

(** [DELETE FROM payment_transactions WHERE ...] *)
Definition delete (cond : row -> bool) (t : table) : table :=
  filter (fun r => negb (cond r)) t.

Inductive statement : Type :=
| Insert (r : row)
| Update (cond : row -> bool) (change : row -> row)
| Delete (cond : row -> bool).

Definition exec (s : statement) (t : table) : option table :=
  match s with
  | Insert r => insert r t
  | Update cond change => update cond change t
  | Delete cond => Some (delete cond t)
  end.

(** The ledger states: the empty table after the migration, and what
    the statements that succeed make of it. *)
Inductive reachable : table -> Prop :=
| reachable_empty : reachable []
| reachable_step s t t' : reachable t -> exec s t = Some t' -> reachable t'.

End Table.

Arguments id {double timestamp jsonb} r.
Arguments payment_hash {double timestamp jsonb} r.
Arguments taken {double timestamp jsonb} col key t.
Arguments unique {double timestamp jsonb} col t.
Arguments insert {double timestamp jsonb} r t.
Arguments update {double timestamp jsonb} cond change t.
Arguments delete {double timestamp jsonb} cond t.
Arguments exec {double timestamp jsonb} s t.
Arguments reachable {double timestamp jsonb} t.
Arguments row_ok {double timestamp jsonb} r.

End Ledger.

(* ====================================================================== *)
(** * The signal store: table [signal_items]                              *)
(* ====================================================================== *)

Module Signals.

Section Items.
(** Column types whose values the constraints never inspect. *)
Variables (double timestamp jsonb : Type).

(** A row; [None] is SQL [NULL]. *)
Record row : Type := {
  id : option string;                     (* UUID PRIMARY KEY *)
  oxmeta_id : option string;              (* VARCHAR(100) UNIQUE NOT NULL *)
  source : option string;                 (* VARCHAR(20) NOT NULL CHECK (...) *)
  category : option string;               (* VARCHAR(50) NOT NULL *)
  sources : option (list string);         (* TEXT[] NOT NULL *)
  title : option string;                  (* TEXT NOT NULL *)
  short_context : option string;          (* TEXT *)
  long_context : option string;           (* TEXT *)
  text : option string;                   (* TEXT *)
  sentiment : option string;              (* VARCHAR(20) *)
  sentiment_value : option double;        (* DOUBLE PRECISION *)
  feed_categories : option (list string); (* TEXT[] *)
  tokens : option (list string);          (* TEXT[] *)
  author : option string;                 (* VARCHAR(200) *)
  timestamp_ : option double;             (* DOUBLE PRECISION NOT NULL *)
  normalized_date : option string;        (* VARCHAR(200) *)
  metadata : option jsonb;                (* JSONB *)
  created_at : option timestamp           (* TIMESTAMP DEFAULT NOW() *)
}.

Definition table : Type := list row.

Definition is_null {A} (x : option A) : bool :=
  match x with None => true | Some _ => false end.

(** [VARCHAR(n)]: a value longer than [n] characters is an error. *)
Definition fits (n : nat) (x : option string) : bool :=
  match x with
  | None => true
  | Some s => (String.length s <=? n)%nat
  end.

(** [CHECK (source IN ('cryptonews', 'twitter'))]; a check whose value
    is unknown, as on [NULL], passes. *)
Definition source_check (x : option string) : bool :=
  match x with
  | None => true
  | Some s => String.eqb s "cryptonews" || String.eqb s "twitter"
  end.

(** The column constraints of one row. *)
Definition row_ok (r : row) : bool :=
  negb (is_null (id r)) &&
  negb (is_null (oxmeta_id r)) && fits 100 (oxmeta_id r) &&
  negb (is_null (source r)) && fits 20 (source r) && source_check (source r) &&
  negb (is_null (category r)) && fits 50 (category r) &&
  negb (is_null (sources r)) &&
  negb (is_null (title r)) &&
  fits 20 (sentiment r) &&
  fits 200 (author r) &&
  negb (is_null (timestamp_ r)) &&
  fits 200 (normalized_date r).

Definition same (x y : option string) : bool :=
  match x, y with
  | Some a, Some b => String.eqb a b
  | _, _ => false
  end.

(** [true] when some row of [t] already has this key in the column. *)
Definition taken (col : row -> option string) (key : option string) (t : table) : bool :=
  existsb (fun r => same (col r) key) t.

(** Uniqueness of a column over the whole table. *)
Fixpoint unique (col : row -> option string) (t : table) : bool :=
  match t with
  | [] => true
  | r :: rest => negb (taken col (col r) rest) && unique col rest
  end.

(** [INSERT INTO signal_items VALUES r]: [None] is the error the
    database raises, the table is then unchanged. *)
Definition insert (r : row) (t : table) : option table :=
  if row_ok r && negb (taken id (id r) t) && negb (taken oxmeta_id (oxmeta_id r) t)
  then Some (t ++ [r])%list
  else None.

(** [UPDATE signal_items SET ... WHERE ...] *)
Definition update (cond : row -> bool) (change : row -> row) (t : table) : option table :=
  let t' := map (fun r => if cond r then change r else r) t in
  if forallb row_ok t' && unique id t' && unique oxmeta_id t'
  then Some t'
  else None.

(** [DELETE FROM signal_items WHERE ...] *)
Definition delete (cond : row -> bool) (t : table) : table :=
  filter (fun r => negb (cond r)) t.

Inductive statement : Type :=
| Insert (r : row)
| Update (cond : row -> bool) (change : row -> row)
| Delete (cond : row -> bool).

Definition exec (s : statement) (t : table) : option table :=
  match s with
  | Insert r => insert r t
  | Update cond change => update cond change t
  | Delete cond => Some (delete cond t)
  end.

(** The states of the store: the empty table after the migration, and
    what the statements that succeed make of it. *)
Inductive reachable : table -> Prop :=
| reachable_empty : reachable []
| reachable_step s t t' : reachable t -> exec s t = Some t' -> reachable t'.

End Items.

Arguments id {double timestamp jsonb} r.
Arguments oxmeta_id {double timestamp jsonb} r.
Arguments source {double timestamp jsonb} r.
Arguments taken {double timestamp jsonb} col key t.
Arguments unique {double timestamp jsonb} col t.
Arguments insert {double timestamp jsonb} r t.
Arguments update {double timestamp jsonb} cond change t.
Arguments delete {double timestamp jsonb} cond t.
Arguments exec {double timestamp jsonb} s t.
Arguments reachable {double timestamp jsonb} t.
Arguments row_ok {double timestamp jsonb} r.

End Signals.

(* ====================================================================== *)
(** * A concrete browser, for running the script                          *)
(* ====================================================================== *)

Module Sample.
Import JS App.

(** The world is a clock tick: every awaited call takes one millisecond. *)
Definition World : Type := Z.

Definition config_json : value :=
  Obj [("network", Str "base");
       ("chain_id", Str "0x2105");
       ("treasury_wallet", Str "0x1111111111111111111111111111111111111111");
       ("merchant_address", Str "0x2222222222222222222222222222222222222222");
       ("usdc_address", Str "0x833589fCD6eDb6E08f4c7C32D4f71b54bdA02913");
       ("price_usdc_wei", Number (Num 10000));
       ("price_usdc", Str "0.01");
       ("facilitator_base_url", Str "https://facilitator.0xmeta.ai")].

(** The same configuration without [facilitator_base_url]. *)
Definition config_json_no_facilitator : value :=
  Obj [("network", Str "base");
       ("chain_id", Str "0x2105");
       ("treasury_wallet", Str "0x1111111111111111111111111111111111111111");
       ("merchant_address", Str "0x2222222222222222222222222222222222222222");
       ("usdc_address", Str "0x833589fCD6eDb6E08f4c7C32D4f71b54bdA02913");
       ("price_usdc_wei", Number (Num 10000));
       ("price_usdc", Str "0.01")].

Definition sample_web3 : Web3 World :=
  {| toChecksumAddress := fun v =>
       match v with
       | Str s => Ok s
       | _ => Throw (Error "Given address is not a valid Ethereum address.")
       end;
     contract_call := fun _ method w =>
       (Ok (Str (if String.eqb method "name" then "USD Coin" else "2")), w + 1) |}.

Definition sample_provider : Provider World :=
  {| isMetaMask := true;
     request := fun args w =>
       match get args "method" with
       | Ok (Str "eth_requestAccounts") =>
           (Ok (Arr [Str "0x3333333333333333333333333333333333333333"]), w + 1)
       | Ok (Str "eth_signTypedData_v4") => (Ok (Str "0xsigned"), w + 1)
       | _ => (Ok Null, w + 1)
       end |}.

(** A browser serving [config] at [/api/config]; [random w i] is its
    random source. *)
Definition browser (config : value) (random : World -> nat -> Byte.byte)
  : Env World :=
  {| Date_now := fun w => w;
     crypto_random := random;
     crypto_next := fun w => w + 1;
     ethereum := Some sample_provider;
     new_Web3 := sample_web3;
     fetch := fun url _ w =>
       (Ok {| ok := true; status := 200;
              json := Ok (if String.eqb url "/api/config" then config
                          else Obj [("data", Arr [])]) |}, w + 1);
     add_fee_toFixed2 := fun _ => "0.02" |}.

(** A random source whose bytes depend on the position and on the time
    of the draw, and a stuck one that always gives the same bytes. *)
Definition varying (w : World) (i : nat) : Byte.byte :=
  match Byte.of_N (Z.to_N ((w + 7 * Z.of_nat i) mod 256)) with
  | Some b => b
  | None => Byte.x00
  end.

Definition stuck (w : World) (i : nat) : Byte.byte := Byte.x2a.

(** The page up to the click on the pay button: the [DOMContentLoaded]
    handler awaits [loadConfig()] and drops its result, then the user
    picks a category and connects the wallet. *)
Definition before_payment (env : Env World) : M World unit :=
  bind (loadConfig env) (fun _ =>
  bind (selectCategory (Str "bitcoin") false) (fun _ =>
  connectWallet env)).

Definition t0 : World := 1700000000000.

(** The state in which the user clicks the pay button. *)
Definition ready (env : Env World) : State World :=
  snd (before_payment env (initial t0)).

Definition result_of (c : completion value) : value :=
  match c with
  | Ok v => v
  | Throw _ => Undefined
  end.

(** A browser with a proper configuration, and one whose configuration
    lacks [facilitator_base_url]. *)
Definition good : Env World := browser config_json varying.
Definition unvalidated : Env World := browser config_json_no_facilitator varying.
Definition repeating : Env World := browser config_json stuck.

(** The builder, called in the state [ready]. *)
Definition build (env : Env World) : completion value * State World :=
  createEIP3009Authorization env (ready env).

Definition built (env : Env World) : value := result_of (fst (build env)).

End Sample.

(* ====================================================================== *)
(** * More browsers and states, for the edges of the script               *)
(* ====================================================================== *)

Module Scenes.
Import JS App Sample.

(** A browser whose server answers [/api/config] with status 503. *)
Definition unavailable : Env World :=
  {| Date_now := Date_now good;
     crypto_random := crypto_random good;
     crypto_next := crypto_next good;
     ethereum := ethereum good;
     new_Web3 := new_Web3 good;
     fetch := fun url _ w =>
       (Ok {| ok := false; status := 503; json := Ok Null |}, w + 1);
     add_fee_toFixed2 := add_fee_toFixed2 good |}.

(** A configuration without [price_usdc_wei]. *)
Definition config_json_no_price : value :=
  Obj [("network", Str "base");
       ("chain_id", Str "0x2105");
       ("treasury_wallet", Str "0x1111111111111111111111111111111111111111");
       ("usdc_address", Str "0x833589fCD6eDb6E08f4c7C32D4f71b54bdA02913");
       ("facilitator_base_url", Str "https://facilitator.0xmeta.ai")].

Definition priceless : Env World := browser config_json_no_price varying.

(** A state with a wallet and a [Web3] instance whose configuration
    names no treasury. *)
Definition no_treasury : State World :=
  {| globals :=
       {| web3 := Some sample_web3;
          walletAddress := Str "0x3333333333333333333333333333333333333333";
          CONFIG := Obj [("network", Str "base")];
          selectedCategory := Str "bitcoin";
          isCustomCategory := false |};
     world := t0;
     trace := [] |}.

(** A browser whose token contract rejects the call of [name()]. *)
Definition silent_web3 : Web3 World :=
  {| toChecksumAddress := toChecksumAddress sample_web3;
     contract_call := fun _ method w =>
       (if String.eqb method "name"
        then Throw (Error "execution reverted")
        else Ok (Str "2"), w + 1) |}.

Definition silent_token : Env World :=
  {| Date_now := Date_now good;
     crypto_random := crypto_random good;
     crypto_next := crypto_next good;
     ethereum := ethereum good;
     new_Web3 := silent_web3;
     fetch := fetch good;
     add_fee_toFixed2 := add_fee_toFixed2 good |}.

(** A browser whose clock stays within the range of time values: from
    the epoch to 8.64e15 milliseconds after it. *)
Definition epoch : Env World :=
  {| Date_now := fun w => Z.min (Z.abs w) 8640000000000000;
     crypto_random := crypto_random good;
     crypto_next := crypto_next good;
     ethereum := ethereum good;
     new_Web3 := new_Web3 good;
     fetch := fetch good;
     add_fee_toFixed2 := add_fee_toFixed2 good |}.

(** A wallet that does not know the configured chain and whose user
    declines to share an account. *)
Definition unknown_chain : exn := ProviderError 4902 "Unrecognized chain ID".
Definition user_rejected : exn := ProviderError 4001 "User rejected the request.".

Definition strict_provider : Provider World :=
  {| isMetaMask := true;
     request := fun args w =>
       match get args "method" with
       | Ok (Str "eth_requestAccounts") => (Throw user_rejected, w + 1)
       | Ok (Str "wallet_switchEthereumChain") => (Throw unknown_chain, w + 1)
       | _ => (Ok Null, w + 1)
       end |}.

Definition strict : Env World :=
  {| Date_now := Date_now good;
     crypto_random := crypto_random good;
     crypto_next := crypto_next good;
     ethereum := Some strict_provider;
     new_Web3 := new_Web3 good;
     fetch := fetch good;
     add_fee_toFixed2 := add_fee_toFixed2 good |}.

(** The page after [loadConfig], before the wallet is connected. *)
Definition loaded (env : Env World) : State World :=
  snd (loadConfig env (initial t0)).

(** The account the wallet switches to. *)
Definition other_account : value := Str "0x4444444444444444444444444444444444444444".

(** A wallet that shares its account and then declines to sign. *)
Definition user_denied : exn := ProviderError 4001 "User denied message signature.".

Definition declining_provider : Provider World :=
  {| isMetaMask := true;
     request := fun args w =>
       match get args "method" with
       | Ok (Str "eth_requestAccounts") =>
           (Ok (Arr [Str "0x3333333333333333333333333333333333333333"]), w + 1)
       | Ok (Str "eth_signTypedData_v4") => (Throw user_denied, w + 1)
       | _ => (Ok Null, w + 1)
       end |}.

Definition declining : Env World :=
  {| Date_now := Date_now good;
     crypto_random := crypto_random good;
     crypto_next := crypto_next good;
     ethereum := Some declining_provider;
     new_Web3 := new_Web3 good;
     fetch := fetch good;
     add_fee_toFixed2 := add_fee_toFixed2 good |}.



End Scenes.

(* ====================================================================== *)
(** * Facts about strings and digits                                      *)
(* ====================================================================== *)

Module StringFacts.
Import JS.

Lemma append_nil_r (s : string) : s ++ "" = s.
Proof. induction s as [|c s IH]; simpl; [reflexivity | now rewrite IH]. Qed.

Lemma append_assoc (a b c : string) : (a ++ b) ++ c = a ++ (b ++ c).
Proof. induction a as [|x a IH]; simpl; [reflexivity | now rewrite IH]. Qed.

Lemma length_append (a b : string) :
  String.length (a ++ b) = (String.length a + String.length b)%nat.
Proof. induction a as [|x a IH]; simpl; [reflexivity | now rewrite IH]. Qed.

(** All characters of a string satisfy a test. *)
Fixpoint all_chars (p : ascii -> bool) (s : string) : bool :=
  match s with
  | String c rest => p c && all_chars p rest
  | EmptyString => true
  end.

Lemma all_chars_append p a b :
  all_chars p (a ++ b) = all_chars p a && all_chars p b.
Proof.
  induction a as [|x a IH]; simpl; [reflexivity|].
  now rewrite IH, andb_assoc.
Qed.

Lemma join_empty_cons (s : string) (l : list string) :
  join "" (s :: l) = s ++ join "" l.
Proof.
  destruct l as [|t l]; simpl; [now rewrite append_nil_r | reflexivity].
Qed.

Lemma code_range (c : ascii) : 0 <= code c < 256.
Proof.
  unfold code. pose proof (N_ascii_bounded c). lia.
Qed.

Lemma code_inj (a b : ascii) : code a = code b -> a = b.
Proof.
  unfold code. intros H.
  rewrite <- (ascii_N_embedding a), <- (ascii_N_embedding b).
  f_equal. lia.
Qed.

Lemma code_ascii_of_N (n : Z) :
  0 <= n < 256 -> code (ascii_of_N (Z.to_N n)) = n.
Proof.
  intros H. unfold code. rewrite N_ascii_embedding; lia.
Qed.

(** A bounded integer is one of finitely many: a property checked on the
    whole range holds of each. *)
Lemma below_forall (bound : nat) (P : Z -> bool) :
  forallb P (map Z.of_nat (seq 0 bound)) = true ->
  forall z, 0 <= z < Z.of_nat bound -> P z = true.
Proof.
  intros H z Hz.
  rewrite forallb_forall in H. apply H.
  apply in_map_iff. exists (Z.to_nat z). split; [lia|].
  apply in_seq. lia.
Qed.

End StringFacts.

Module DigitFacts.
Import JS StringFacts.

Lemma digit_val_digit_char (d : Z) :
  0 <= d < 36 -> digit_val (digit_char d) = Some d.
Proof.
  intros H.
  apply (below_forall 36
           (fun d => match digit_val (digit_char d) with
                     | Some d' => d' =? d
                     | None => false
                     end)) in H; [|vm_compute; reflexivity].
  destruct (digit_val (digit_char d)); [|discriminate].
  f_equal. lia.
Qed.

Definition is_decimal (c : ascii) : bool :=
  (48 <=? code c) && (code c <=? 57).

Definition is_lower_hex (c : ascii) : bool :=
  is_decimal c || ((97 <=? code c) && (code c <=? 102)).

Lemma digit_char_decimal (d : Z) :
  0 <= d < 10 -> is_decimal (digit_char d) = true.
Proof.
  intros H.
  now apply (below_forall 10 (fun d => is_decimal (digit_char d))).
Qed.

Lemma to_digits_nonempty fuel radix n acc : to_digits fuel radix n acc <> "".
Proof.
  revert n acc. induction fuel as [|fuel IH]; intros n acc; simpl.
  - discriminate.
  - destruct (n / radix =? 0); [discriminate | apply IH].
Qed.

Lemma to_digits_decimal fuel n acc :
  0 <= n ->
  all_chars is_decimal acc = true ->
  all_chars is_decimal (to_digits fuel 10 n acc) = true.
Proof.
  revert n acc. induction fuel as [|fuel IH]; intros n acc Hn Hacc; simpl.
  - rewrite digit_char_decimal, Hacc; [reflexivity|].
    apply Z.mod_pos_bound. lia.
  - assert (Hstep : all_chars is_decimal (String (digit_char (n mod 10)) acc) = true).
    { simpl. rewrite digit_char_decimal, Hacc; [reflexivity|].
      apply Z.mod_pos_bound. lia. }
    destruct (n / 10 =? 0); [exact Hstep|].
    apply IH; [|exact Hstep].
    apply Z.div_pos; lia.
Qed.

(** Reading back the digits that [to_digits] wrote gives the number. *)
Lemma parse_to_digits radix fuel n acc seen :
  2 <= radix <= 36 ->
  0 <= n < radix ^ Z.of_nat (S fuel) ->
  parse_digits radix (to_digits fuel radix n acc) 0 seen
  = parse_digits radix acc n true.
Proof.
  intros Hr. revert n acc seen.
  assert (Hdigit : forall n acc a seen, 0 <= n ->
            parse_digits radix (String (digit_char (n mod radix)) acc) a seen
            = parse_digits radix acc (a * radix + n mod radix) true).
  { intros n acc a seen Hn. simpl.
    assert (Hm : 0 <= n mod radix < radix) by (apply Z.mod_pos_bound; lia).
    rewrite digit_val_digit_char by lia.
    destruct (Z.ltb_spec (n mod radix) radix); [reflexivity | lia]. }
  induction fuel as [|fuel IH]; intros n acc seen Hn.
  - simpl to_digits. rewrite Hdigit by lia.
    change (Z.of_nat 1) with 1 in Hn. rewrite Z.pow_1_r in Hn.
    rewrite Z.mod_small by lia. reflexivity.
  - simpl to_digits.
    destruct (Z.eqb_spec (n / radix) 0) as [H0|H0].
    + rewrite Hdigit by lia.
      assert (n < radix) by (apply Z.div_small_iff in H0; lia).
      rewrite Z.mod_small by lia. reflexivity.
    + rewrite IH.
      * rewrite Hdigit by lia. f_equal.
        pose proof (Z.div_mod n radix ltac:(lia)). lia.
      * split; [apply Z.div_pos; lia|].
        apply Z.div_lt_upper_bound; [lia|].
        replace (Z.of_nat (S (S fuel))) with (Z.succ (Z.of_nat (S fuel))) in Hn by lia.
        rewrite Z.pow_succ_r in Hn by lia. lia.
Qed.

Lemma fuel_enough radix n :
  2 <= radix -> 0 <= n ->
  n < radix ^ Z.of_nat (S (Z.to_nat (Z.log2 n))).
Proof.
  intros Hr Hn.
  destruct (Z.eq_dec n 0) as [->|Hnz].
  - simpl. lia.
  - pose proof (Z.log2_spec n ltac:(lia)) as [_ Hlt].
    pose proof (Z.log2_nonneg n).
    replace (Z.of_nat (S (Z.to_nat (Z.log2 n)))) with (Z.succ (Z.log2 n)) by lia.
    eapply Z.lt_le_trans; [exact Hlt|].
    apply Z.pow_le_mono_l. lia.
Qed.

Lemma to_digits_append fuel radix n acc rest :
  to_digits fuel radix n acc ++ rest = to_digits fuel radix n (acc ++ rest).
Proof.
  revert n acc. induction fuel as [|fuel IH]; intros n acc; simpl.
  - reflexivity.
  - destruct (n / radix =? 0); [reflexivity|].
    rewrite IH. reflexivity.
Qed.

(** No digit below [radix] starts the string. *)
Definition stops (radix : Z) (s : string) : bool :=
  match s with
  | String c _ =>
      match digit_val c with
      | Some d => radix <=? d
      | None => true
      end
  | EmptyString => true
  end.

Lemma parse_digits_stops radix s acc seen :
  stops radix s = true -> parse_digits radix s acc seen = (acc, seen, s).
Proof.
  destruct s as [|c s]; simpl; [reflexivity|].
  destruct (digit_val c) as [d|]; [|reflexivity].
  intros H. destruct (Z.ltb_spec d radix); [lia | reflexivity].
Qed.

(** The text of a natural number reads back as that number, whatever
    follows it, as long as no digit follows. *)
Lemma parse_digits_toString radix n rest seen :
  2 <= radix <= 36 ->
  0 <= n ->
  stops radix rest = true ->
  parse_digits radix (toString_radix radix n ++ rest) 0 seen = (n, true, rest).
Proof.
  intros Hr Hn Hrest. unfold toString_radix.
  destruct (Z.ltb_spec n 0); [lia|].
  rewrite Z.abs_eq by lia.
  rewrite to_digits_append. simpl append.
  rewrite parse_to_digits; [|lia|].
  - apply parse_digits_stops, Hrest.
  - split; [lia | apply fuel_enough; lia].
Qed.

Lemma toString_decimal n :
  0 <= n -> all_chars is_decimal (toString_radix 10 n) = true.
Proof.
  intros Hn. unfold toString_radix.
  destruct (Z.ltb_spec n 0); [lia|].
  apply to_digits_decimal; [lia | reflexivity].
Qed.

Lemma toString_nonempty radix n : toString_radix radix n <> "".
Proof.
  unfold toString_radix. destruct (n <? 0); [discriminate|].
  apply to_digits_nonempty.
Qed.

Lemma parse_digits_seen radix s acc :
  snd (fst (parse_digits radix s acc true)) = true.
Proof.
  revert acc. induction s as [|c s IH]; intros acc; simpl; [reflexivity|].
  destruct (digit_val c) as [d|]; [|reflexivity].
  destruct (d <? radix); [apply IH | reflexivity].
Qed.

(** On a non-empty string of decimal digits, one-argument [parseInt]
    skips nothing and reads all of it. *)
Lemma parseInt_decimal_string s :
  s <> "" ->
  all_chars is_decimal s = true ->
  parseInt (Str s) None = Num (fst (fst (parse_digits 10 s 0 false))).
Proof.
  intros Hne Hdec.
  destruct s as [|c s]; [congruence|].
  simpl in Hdec. apply andb_true_iff in Hdec as [Hc Hs].
  assert (Hseen : forall a b, snd (fst (parse_digits 10 (String c s) a b)) = true).
  { intros a b. simpl.
    unfold is_decimal in Hc. unfold digit_val. fold (code c).
    rewrite Hc.
    destruct (Z.ltb_spec (code c - 48) 10) as [_|Hge];
      [|apply andb_true_iff in Hc; lia].
    apply parse_digits_seen. }
  unfold parseInt. simpl ToString.
  assert (Hc' : is_whitespace c = false /\ c <> "-"%char /\ c <> "+"%char /\
                (c = "0"%char -> match s with
                                 | String x _ => x <> "x"%char /\ x <> "X"%char
                                 | EmptyString => True
                                 end)).
  { repeat split.
    - destruct c as [[] [] [] [] [] [] [] []]; try discriminate Hc; reflexivity.
    - intros ->. discriminate Hc.
    - intros ->. discriminate Hc.
    - intros _. destruct s as [|x s]; [exact I|].
      simpl in Hs. apply andb_true_iff in Hs as [Hx _].
      split; intros ->; discriminate Hx. }
  destruct Hc' as (Hws & Hminus & Hplus & Hzero).
  simpl trim_start. rewrite Hws.
  assert (Hstrip : strip_hex_prefix (String c s) = None).
  { unfold strip_hex_prefix.
    destruct c as [[] [] [] [] [] [] [] []]; try reflexivity.
    specialize (Hzero eq_refl).
    destruct s as [|x s]; [reflexivity|].
    destruct Hzero as [Hx HX].
    destruct x as [[] [] [] [] [] [] [] []]; try reflexivity; congruence. }
  destruct c as [[] [] [] [] [] [] [] []]; try discriminate Hc;
    cbn -[parse_digits strip_hex_prefix]; rewrite Hstrip;
    specialize (Hseen 0 false);
    destruct (parse_digits 10 _ 0 false) as [[n seen] rest];
    cbn [fst snd] in Hseen |- *; subst seen; destruct n; reflexivity.
Qed.

(** [parseInt(String(n))] is [n] for a natural number. *)
Lemma parseInt_toString n :
  0 <= n -> parseInt (Str (toString_radix 10 n)) None = Num n.
Proof.
  intros Hn.
  rewrite parseInt_decimal_string;
    [|apply toString_nonempty | apply toString_decimal, Hn].
  rewrite <- (append_nil_r (toString_radix 10 n)).
  rewrite parse_digits_toString by (reflexivity || lia).
  reflexivity.
Qed.

End DigitFacts.

(* ====================================================================== *)
(** * Facts about the envelope codec                                      *)
(* ====================================================================== *)

Module Base64Facts.
Import JS Decode StringFacts.

Lemma b64_val_char (n : Z) :
  0 <= n < 64 -> b64_val (b64_char n) = Some n.
Proof.
  intros H.
  apply (below_forall 64
           (fun n => match b64_val (b64_char n) with
                     | Some m => m =? n
                     | None => false
                     end)) in H; [|vm_compute; reflexivity].
  destruct (b64_val (b64_char n)); [|discriminate].
  f_equal. lia.
Qed.

Lemma b64_char_not_pad (n : Z) :
  0 <= n < 64 -> Ascii.eqb (b64_char n) pad_char = false.
Proof.
  intros H.
  apply (below_forall 64 (fun n => negb (Ascii.eqb (b64_char n) pad_char))) in H;
    [|vm_compute; reflexivity].
  now apply negb_true_iff in H.
Qed.

Lemma char_of_code (c : ascii) (n : Z) : n = code c -> char_of n = c.
Proof.
  intros ->. unfold char_of, code.
  rewrite N2Z.id. apply ascii_N_embedding.
Qed.

(** Induction on strings three characters at a time. *)
Lemma string_triples_ind (P : string -> Prop) :
  P "" ->
  (forall a, P (String a "")) ->
  (forall a b, P (String a (String b ""))) ->
  (forall a b c s, P s -> P (String a (String b (String c s)))) ->
  forall s, P s.
Proof.
  intros H0 H1 H2 H3.
  fix IH 1.
  intros [|a [|b [|c s]]].
  - exact H0.
  - apply H1.
  - apply H2.
  - apply H3, IH.
Qed.

Ltac b64_range :=
  match goal with
  | |- 0 <= ?e < 64 =>
      repeat match goal with
             | c : ascii |- _ =>
                 lazymatch goal with
                 | H : 0 <= code c < 256 |- _ => fail
                 | _ => pose proof (code_range c)
                 end
             end;
      Z.div_mod_to_equations; lia
  end.

(** Base64 decoding inverts [btoa] on every string. *)
Lemma atob_btoa (s : string) : atob (btoa s) = Some s.
Proof.
  induction s as [|a|a b|a b c s IH] using string_triples_ind.
  - reflexivity.
  - cbn [btoa atob].
    rewrite !b64_val_char by b64_range.
    rewrite Ascii.eqb_refl. cbn [andb String.eqb].
    f_equal. f_equal. apply char_of_code.
    pose proof (code_range a). Z.div_mod_to_equations; lia.
  - cbn [btoa atob].
    rewrite !b64_val_char by b64_range.
    rewrite (b64_char_not_pad (code b mod 16 * 4)) by b64_range.
    rewrite Ascii.eqb_refl. cbn [andb String.eqb].
    pose proof (code_range a). pose proof (code_range b).
    f_equal. f_equal; [|f_equal];
      apply char_of_code; Z.div_mod_to_equations; lia.
  - cbn [btoa atob].
    rewrite !b64_val_char by b64_range.
    rewrite (b64_char_not_pad (code b mod 16 * 4 + code c / 64)) by b64_range.
    rewrite (b64_char_not_pad (code c mod 64)) by b64_range.
    cbn [andb]. rewrite IH.
    pose proof (code_range a). pose proof (code_range b). pose proof (code_range c).
    f_equal. f_equal; [|f_equal; [|f_equal]];
      apply char_of_code; Z.div_mod_to_equations; lia.
Qed.

End Base64Facts.

Module JsonFacts.
Import JS Decode StringFacts DigitFacts.

(** ** String literals *)

Lemma parse_chars_escape_char (c : ascii) (tail : string) :
  parse_chars (escape_char c ++ tail) = cons_char c (parse_chars tail).
Proof.
  destruct c as [[] [] [] [] [] [] [] []]; reflexivity.
Qed.

Lemma parse_chars_escape (s rest : string) :
  parse_chars (escape s ++ String dquote rest) = Some (s, rest).
Proof.
  induction s as [|c s IH]; [reflexivity|].
  cbn [escape]. rewrite append_assoc, parse_chars_escape_char, IH.
  reflexivity.
Qed.

Lemma quote_append (s rest : string) :
  quote s ++ rest = String dquote (escape s ++ String dquote rest).
Proof.
  unfold quote. cbn [append]. now rewrite append_assoc.
Qed.

(** ** Numbers *)

(** After a value comes the end of the text, a comma or a closing
    bracket. *)
Definition delim (s : string) : bool :=
  match s with
  | EmptyString => true
  | String c _ => (code c =? 44) || (code c =? 93) || (code c =? 125)
  end.

Lemma delim_stops s : delim s = true -> stops 10 s = true.
Proof.
  destruct s as [|c s]; [reflexivity|]. cbn [delim stops].
  destruct c as [[] [] [] [] [] [] [] []]; try discriminate; reflexivity.
Qed.

Lemma delim_no_fraction s : delim s = true -> starts_fraction s = false.
Proof.
  destruct s as [|c s]; [reflexivity|]. cbn [delim starts_fraction].
  destruct c as [[] [] [] [] [] [] [] []]; try discriminate; reflexivity.
Qed.

Lemma delim_no_digit s : delim s = true -> starts_with_digit s = false.
Proof.
  destruct s as [|c s]; [reflexivity|]. cbn [delim starts_with_digit].
  destruct c as [[] [] [] [] [] [] [] []]; try discriminate; reflexivity.
Qed.

(** The first digit written for a positive number is not zero. *)
Lemma to_digits_head fuel radix n acc :
  2 <= radix ->
  0 < n < radix ^ Z.of_nat (S fuel) ->
  exists d tail,
    to_digits fuel radix n acc = String (digit_char d) tail /\ 0 < d < radix.
Proof.
  intros Hr. revert n acc.
  induction fuel as [|fuel IH]; intros n acc Hn.
  - change (Z.of_nat 1) with 1 in Hn. rewrite Z.pow_1_r in Hn.
    exists (n mod radix), acc. split; [reflexivity|].
    rewrite Z.mod_small; lia.
  - cbn [to_digits].
    destruct (Z.eqb_spec (n / radix) 0) as [H0|H0].
    + exists (n mod radix), acc. split; [reflexivity|].
      apply Z.div_small_iff in H0; [|lia].
      rewrite Z.mod_small; lia.
    + apply IH.
      assert (0 <= n / radix) by (apply Z.div_pos; lia).
      split; [lia|].
      apply Z.div_lt_upper_bound; [lia|].
      replace (Z.of_nat (S (S fuel))) with (Z.succ (Z.of_nat (S fuel))) in Hn by lia.
      rewrite Z.pow_succ_r in Hn by lia. lia.
Qed.

Lemma toString_positive_head n :
  0 < n ->
  exists d tail,
    toString_radix 10 n = String (digit_char d) tail /\ 0 < d < 10.
Proof.
  intros Hn. unfold toString_radix.
  destruct (Z.ltb_spec n 0); [lia|].
  rewrite Z.abs_eq by lia.
  apply to_digits_head; [lia|].
  split; [lia | apply fuel_enough; lia].
Qed.

Lemma toString_zero : toString_radix 10 0 = "0".
Proof. reflexivity. Qed.

Lemma toString_negative n :
  n < 0 -> toString_radix 10 n = String "-" (toString_radix 10 (- n)).
Proof.
  intros Hn. unfold toString_radix.
  destruct (Z.ltb_spec n 0); [|lia].
  destruct (Z.ltb_spec (- n) 0); [lia|].
  rewrite Z.abs_opp. reflexivity.
Qed.

Lemma digit_char_nonzero d : 0 < d < 10 -> digit_char d <> "0"%char.
Proof.
  intros Hd Heq.
  pose proof (digit_val_digit_char d ltac:(lia)) as Hv.
  rewrite Heq in Hv. vm_compute in Hv. injection Hv as Hv. lia.
Qed.

(** Reading a number whose first character is a digit other than [0],
    with or without a minus sign in front. *)
Definition number_from_digits (sign : Z) (body : string) : option (Z * string) :=
  match parse_digits 10 body 0 false with
  | (n, true, rest) =>
      if starts_fraction rest then None else Some (sign * n, rest)
  | (_, false, _) => None
  end.

Lemma parse_number_unsigned c body :
  is_decimal c = true -> c <> "0"%char ->
  parse_number (String c body) = number_from_digits 1 (String c body).
Proof.
  intros Hc Hnz.
  destruct c as [[] [] [] [] [] [] [] []];
    try discriminate Hc; try congruence; reflexivity.
Qed.

Lemma parse_number_signed c body :
  is_decimal c = true -> c <> "0"%char ->
  parse_number (String "-" (String c body)) = number_from_digits (-1) (String c body).
Proof.
  intros Hc Hnz.
  destruct c as [[] [] [] [] [] [] [] []];
    try discriminate Hc; try congruence; reflexivity.
Qed.

Lemma number_from_digits_toString sign n rest :
  0 <= n -> delim rest = true ->
  number_from_digits sign (toString_radix 10 n ++ rest) = Some (sign * n, rest).
Proof.
  intros Hn Hrest. unfold number_from_digits.
  rewrite parse_digits_toString by (lia || apply delim_stops, Hrest).
  now rewrite (delim_no_fraction _ Hrest).
Qed.

(** The digits of a positive number, read by [parse_number] without a
    sign. *)
Lemma parse_number_positive n rest :
  0 < n -> delim rest = true ->
  parse_number (toString_radix 10 n ++ rest) = Some (n, rest).
Proof.
  intros Hn Hrest.
  pose proof (number_from_digits_toString 1 n rest ltac:(lia) Hrest) as Hparse.
  destruct (toString_positive_head n Hn) as (d & tail & Heq & Hd).
  rewrite Heq in *. cbn [append] in *.
  rewrite parse_number_unsigned, Hparse;
    [ do 2 f_equal; lia
    | apply digit_char_decimal; lia
    | apply digit_char_nonzero; lia ].
Qed.

Lemma parse_number_toString z rest :
  delim rest = true ->
  parse_number (toString_radix 10 z ++ rest) = Some (z, rest).
Proof.
  intros Hrest.
  destruct (Z.lt_trichotomy z 0) as [Hneg|[->|Hpos]].
  - rewrite toString_negative by lia.
    pose proof (number_from_digits_toString (-1) (- z) rest ltac:(lia) Hrest)
      as Hparse.
    destruct (toString_positive_head (- z) ltac:(lia)) as (d & tail & Heq & Hd).
    rewrite Heq in *. cbn [append] in *.
    rewrite parse_number_signed, Hparse;
      [ do 2 f_equal; lia
      | apply digit_char_decimal; lia
      | apply digit_char_nonzero; lia ].
  - rewrite toString_zero. cbn [append]. unfold parse_number.
    rewrite (delim_no_digit _ Hrest), (delim_no_fraction _ Hrest).
    reflexivity.
  - apply parse_number_positive; assumption.
Qed.

(** ** Values *)

(** The first character of the text of a value. *)
Definition value_start (c : ascii) : bool :=
  is_decimal c ||
  existsb (Ascii.eqb c) ["{"; "["; dquote; "n"; "t"; "f"; "-"]%char.

Definition starts_value (s : string) : bool :=
  match s with
  | String c _ => value_start c
  | EmptyString => false
  end.

Lemma number_head z :
  exists c tail,
    toString_radix 10 z = String c tail /\
    (c = "-"%char \/ is_decimal c = true).
Proof.
  destruct (Z.ltb_spec z 0) as [Hneg|Hpos].
  - rewrite toString_negative by lia. eauto.
  - pose proof (toString_decimal z Hpos) as Hdec.
    pose proof (toString_nonempty 10 z) as Hne.
    destruct (toString_radix 10 z) as [|c tail]; [congruence|].
    cbn [all_chars] in Hdec. apply andb_true_iff in Hdec as [Hc _].
    eauto.
Qed.

Lemma parse_value_number_head fuel c body :
  c = "-"%char \/ is_decimal c = true ->
  parse_value (S fuel) (String c body)
  = match parse_number (String c body) with
    | Some (z, r) => Some (Number (Num z), r)
    | None => None
    end.
Proof.
  intros [->|Hc]; [reflexivity|].
  destruct c as [[] [] [] [] [] [] [] []]; try discriminate Hc; reflexivity.
Qed.

Lemma parse_value_number fuel z rest :
  delim rest = true ->
  parse_value (S fuel) (toString_radix 10 z ++ rest) = Some (Number (Num z), rest).
Proof.
  intros Hrest.
  pose proof (parse_number_toString z rest Hrest) as Hnum.
  destruct (number_head z) as (c & tail & Heq & Hc).
  rewrite Heq in *. cbn [append] in *.
  now rewrite parse_value_number_head, Hnum.
Qed.

Lemma parse_value_string fuel s rest :
  parse_value (S fuel) (quote s ++ rest) = Some (Str s, rest).
Proof.
  rewrite quote_append.
  cbn -[parse_chars]. now rewrite parse_chars_escape.
Qed.

(** A value character is neither white space nor a closing bracket. *)
Lemma skip_ws_value_start c t :
  value_start c = true -> skip_ws (String c t) = String c t.
Proof.
  intros Hc.
  destruct c as [[] [] [] [] [] [] [] []]; try discriminate Hc; reflexivity.
Qed.

Lemma value_start_not_bracket {T} c t (A : string -> T) (B : T) :
  value_start c = true ->
  match String c t with
  | String "]" r => A r
  | _ => B
  end = B.
Proof.
  intros Hc.
  destruct c as [[] [] [] [] [] [] [] []]; try discriminate Hc; reflexivity.
Qed.

(** Values that JSON can carry: no [undefined], no [NaN], and no key
    twice in an object. *)
Fixpoint distinct (keys : list string) : bool :=
  match keys with
  | [] => true
  | k :: rest => negb (existsb (String.eqb k) rest) && distinct rest
  end.

Fixpoint json_wf (v : value) : bool :=
  match v with
  | Undefined => false
  | Number NaN => false
  | Arr elems => forallb json_wf elems
  | Obj fields =>
      forallb (fun kv => json_wf (snd kv)) fields && distinct (map fst fields)
  | _ => true
  end.

Fixpoint size (v : value) : nat :=
  match v with
  | Arr elems => S (list_sum (map size elems))
  | Obj fields => S (list_sum (map (fun kv => size (snd kv)) fields))
  | _ => 1
  end.

Lemma value_nested_ind (P : value -> Prop) :
  P Undefined -> P Null -> (forall b, P (Bool b)) ->
  (forall n, P (Number n)) -> (forall s, P (Str s)) ->
  (forall elems, Forall P elems -> P (Arr elems)) ->
  (forall fields, Forall (fun kv => P (snd kv)) fields -> P (Obj fields)) ->
  forall v, P v.
Proof.
  intros HU HN HB HNum HS HA HO.
  fix IH 1.
  intros [ | | b | n | s | elems | fields].
  - exact HU.
  - exact HN.
  - apply HB.
  - apply HNum.
  - apply HS.
  - apply HA. revert elems.
    fix IHl 1. intros [|x elems]; constructor; [apply IH | apply IHl].
  - apply HO. revert fields.
    fix IHl 1. intros [|[k x] fields]; constructor; [apply IH | apply IHl].
Qed.

(** What the round trip says of one value and its text. *)
Definition round_trips (v : value) (s : string) : Prop :=
  stringify v = Some s /\
  starts_value s = true /\
  (size v <= String.length s)%nat /\
  forall fuel rest,
    (size v <= fuel)%nat -> delim rest = true ->
    parse_value fuel (s ++ rest) = Some (v, rest).

Definition text_of (x : value) : string :=
  match stringify x with
  | Some s => s
  | None => "null"
  end.

Lemma join_cons2 sep (a b : string) l :
  join sep (a :: b :: l) = a ++ sep ++ join sep (b :: l).
Proof. reflexivity. Qed.

Lemma starts_value_append a b :
  starts_value a = true -> starts_value (a ++ b) = true.
Proof. destruct a; [discriminate | trivial]. Qed.

Lemma starts_value_join sep a l :
  starts_value a = true -> starts_value (join sep (a :: l)) = true.
Proof.
  intros Ha. destruct l; [exact Ha|].
  rewrite join_cons2. now apply starts_value_append.
Qed.

Lemma dispatch_bracket {T} body (A : string -> T) (B : T) :
  starts_value body = true ->
  match skip_ws body with
  | String "]" r => A r
  | _ => B
  end = B.
Proof.
  destruct body as [|c t]; [discriminate|]. cbn [starts_value]. intros Hc.
  rewrite skip_ws_value_start by exact Hc.
  destruct c as [[] [] [] [] [] [] [] []]; try discriminate Hc; reflexivity.
Qed.

Lemma dispatch_brace {T} body (A : string -> T) (B : T) :
  starts_value body = true ->
  match skip_ws body with
  | String "}" r => A r
  | _ => B
  end = B.
Proof.
  destruct body as [|c t]; [discriminate|]. cbn [starts_value]. intros Hc.
  rewrite skip_ws_value_start by exact Hc.
  destruct c as [[] [] [] [] [] [] [] []]; try discriminate Hc; reflexivity.
Qed.

Lemma parse_value_array fuel body :
  parse_value (S fuel) (String "[" body)
  = match skip_ws body with
    | String "]" rest' => Some (Arr [], rest')
    | _ =>
        match parse_elements (parse_value fuel) fuel body with
        | Some (vs, r) => Some (Arr vs, r)
        | None => None
        end
    end.
Proof. reflexivity. Qed.

Lemma parse_value_object fuel body :
  parse_value (S fuel) (String "{" body)
  = match skip_ws body with
    | String "}" rest' => Some (Obj [], rest')
    | _ =>
        match parse_members (parse_value fuel) fuel body with
        | Some (kvs, r) => Some (object_of kvs, r)
        | None => None
        end
    end.
Proof. reflexivity. Qed.

(** A value whose text the parser [parse_value fuel] reads back. *)
Definition reads_back (fuel : nat) (y : value) : Prop :=
  exists s,
    stringify y = Some s /\
    forall rest, delim rest = true -> parse_value fuel (s ++ rest) = Some (y, rest).

Lemma parse_elements_comma p fuel s v t :
  p s = Some (v, String "," t) ->
  parse_elements p (S fuel) s
  = match parse_elements p fuel t with
    | Some (vs, r) => Some (v :: vs, r)
    | None => None
    end.
Proof. intros H. cbn [parse_elements]. rewrite H. reflexivity. Qed.

Lemma parse_elements_close p fuel s v t :
  p s = Some (v, String "]" t) ->
  parse_elements p (S fuel) s = Some ([v], t).
Proof. intros H. cbn [parse_elements]. rewrite H. reflexivity. Qed.

Lemma parse_elements_join f l :
  forall x rest fuel,
    Forall (reads_back f) (x :: l) ->
    (List.length (x :: l) <= fuel)%nat ->
    parse_elements (parse_value f) fuel
      (join "," (map text_of (x :: l)) ++ String "]" rest)
    = Some (x :: l, rest).
Proof.
  induction l as [|y l IH]; intros x rest fuel HF Hlen.
  - inversion HF as [|? ? (s & Hs & Hp) _]; subst.
    destruct fuel as [|fuel]; [cbn in Hlen; lia|].
    cbn [map join]. unfold text_of. rewrite Hs.
    apply parse_elements_close, Hp. reflexivity.
  - inversion HF as [|? ? (s & Hs & Hp) HF']; subst.
    destruct fuel as [|fuel]; [cbn in Hlen; lia|].
    change (map text_of (x :: y :: l))
      with (text_of x :: map text_of (y :: l)).
    change (map text_of (y :: l)) with (text_of y :: map text_of l) at 1.
    rewrite join_cons2.
    change (text_of y :: map text_of l) with (map text_of (y :: l)).
    rewrite append_assoc. cbn [append].
    unfold text_of at 1. rewrite Hs.
    erewrite parse_elements_comma by (apply Hp; reflexivity).
    rewrite IH; [reflexivity | exact HF' | cbn in Hlen |- *; lia].
Qed.

Definition member_text (kv : string * value) : string :=
  quote (fst kv) ++ ":" ++ text_of (snd kv).

Lemma member_texts f fields :
  Forall (fun kv => reads_back f (snd kv)) fields ->
  flat_map (fun kv => match stringify (snd kv) with
                      | Some s => [quote (fst kv) ++ ":" ++ s]
                      | None => []
                      end) fields
  = map member_text fields.
Proof.
  induction 1 as [|kv fields (s & Hs & _) _ IH]; [reflexivity|].
  cbn [flat_map map]. rewrite IH. unfold member_text, text_of.
  rewrite Hs. reflexivity.
Qed.

Lemma member_text_append kv tail :
  member_text kv ++ tail
  = String dquote (escape (fst kv) ++
                   String dquote (String ":" (text_of (snd kv) ++ tail))).
Proof.
  unfold member_text. rewrite append_assoc, quote_append.
  reflexivity.
Qed.

Lemma parse_members_comma p fuel k tail v t :
  p tail = Some (v, String "," t) ->
  parse_members p (S fuel)
    (String dquote (escape k ++ String dquote (String ":" tail)))
  = match parse_members p fuel t with
    | Some (kvs, r) => Some ((k, v) :: kvs, r)
    | None => None
    end.
Proof.
  intros H. cbn -[parse_chars]. rewrite parse_chars_escape.
  cbn. rewrite H. reflexivity.
Qed.

Lemma parse_members_close p fuel k tail v t :
  p tail = Some (v, String "}" t) ->
  parse_members p (S fuel)
    (String dquote (escape k ++ String dquote (String ":" tail)))
  = Some ([(k, v)], t).
Proof.
  intros H. cbn -[parse_chars]. rewrite parse_chars_escape.
  cbn. rewrite H. reflexivity.
Qed.

Lemma parse_members_join f l :
  forall kv rest fuel,
    Forall (fun kv => reads_back f (snd kv)) (kv :: l) ->
    (List.length (kv :: l) <= fuel)%nat ->
    parse_members (parse_value f) fuel
      (join "," (map member_text (kv :: l)) ++ String "}" rest)
    = Some (kv :: l, rest).
Proof.
  induction l as [|kv' l IH]; intros [k x] rest fuel HF Hlen.
  - inversion HF as [|? ? (s & Hs & Hp) _]; subst. cbn [snd] in *.
    destruct fuel as [|fuel]; [cbn in Hlen; lia|].
    cbn [map join]. rewrite member_text_append.
    cbn [fst snd]. unfold text_of. rewrite Hs.
    apply parse_members_close, Hp. reflexivity.
  - inversion HF as [|? ? (s & Hs & Hp) HF']; subst. cbn [snd] in *.
    destruct fuel as [|fuel]; [cbn in Hlen; lia|].
    change (map member_text ((k, x) :: kv' :: l))
      with (member_text (k, x) :: map member_text (kv' :: l)).
    change (map member_text (kv' :: l))
      with (member_text kv' :: map member_text l) at 1.
    rewrite join_cons2.
    change (member_text kv' :: map member_text l)
      with (map member_text (kv' :: l)).
    rewrite append_assoc, member_text_append.
    cbn [fst snd]. unfold text_of at 1. rewrite Hs.
    cbn [append].
    erewrite parse_members_comma by (apply Hp; reflexivity).
    rewrite IH; [reflexivity | exact HF' | cbn in Hlen |- *; lia].
Qed.

(** Members with distinct keys make the object that lists them. *)
Lemma existsb_eqb_In k l : existsb (String.eqb k) l = true <-> In k l.
Proof.
  rewrite existsb_exists. split.
  - intros (x & Hin & Heq). apply String.eqb_eq in Heq. now subst.
  - intros Hin. exists k. split; [exact Hin | apply String.eqb_refl].
Qed.

Lemma distinct_NoDup l : distinct l = true -> NoDup l.
Proof.
  induction l as [|k l IH]; cbn [distinct]; intros H; constructor.
  - apply andb_true_iff in H as [H _]. apply negb_true_iff in H.
    intros Hin. apply existsb_eqb_In in Hin. congruence.
  - apply IH. now apply andb_true_iff in H as [_ H].
Qed.

Lemma assign_fresh k v acc :
  ~ In k (map fst acc) -> assign k v acc = (acc ++ [(k, v)])%list.
Proof.
  induction acc as [|[k' v'] acc IH]; cbn [assign map fst In app]; intros Hk.
  - reflexivity.
  - destruct (String.eqb_spec k k') as [->|Hne]; [tauto|].
    rewrite IH by tauto. reflexivity.
Qed.

Lemma fold_assign fields :
  forall acc,
    NoDup (map fst fields) ->
    (forall k, In k (map fst fields) -> ~ In k (map fst acc)) ->
    fold_left (fun a kv => assign (fst kv) (snd kv) a) fields acc
    = (acc ++ fields)%list.
Proof.
  induction fields as [|[k v] fields IH]; intros acc Hnd Hfresh.
  - cbn. now rewrite app_nil_r.
  - cbn [fold_left fst snd]. cbn [map fst] in Hnd, Hfresh.
    inversion Hnd as [|? ? Hk Hnd']; subst.
    rewrite assign_fresh by (apply Hfresh; now left).
    rewrite IH; [now rewrite <- app_assoc | exact Hnd' |].
    intros k' Hin. rewrite map_app, in_app_iff. cbn [map fst In].
    intros [Hacc|[->|[]]].
    + apply (Hfresh k'); [now right | exact Hacc].
    + contradiction.
Qed.

Lemma object_of_distinct fields :
  distinct (map fst fields) = true -> object_of fields = Obj fields.
Proof.
  intros H. unfold object_of. f_equal.
  rewrite fold_assign; [reflexivity | now apply distinct_NoDup |].
  intros k _ [].
Qed.

(** Sizes against lengths. *)
Lemma size_pos v : (1 <= size v)%nat.
Proof. destruct v; cbn; lia. Qed.

Lemma sum_le_join {A} (sz : A -> nat) (tx : A -> string) sep l :
  Forall (fun a => (sz a <= String.length (tx a))%nat) l ->
  (list_sum (map sz l) <= String.length (join sep (map tx l)))%nat.
Proof.
  induction 1 as [|a l Ha Hl IH]; [cbn; lia|].
  destruct l as [|b l].
  - cbn. lia.
  - change (map tx (a :: b :: l)) with (tx a :: tx b :: map tx l).
    rewrite join_cons2, !length_append.
    change (tx b :: map tx l) with (map tx (b :: l)).
    change (list_sum (map sz (a :: b :: l)))
      with (sz a + list_sum (map sz (b :: l)))%nat.
    lia.
Qed.

Lemma sum_bounds {A} (sz : A -> nat) l :
  (forall a, (1 <= sz a)%nat) ->
  (List.length l <= list_sum (map sz l))%nat /\
  Forall (fun a => (sz a <= list_sum (map sz l))%nat) l.
Proof.
  intros Hpos. induction l as [|a l [IHlen IHall]]; simpl.
  - split; [lia | constructor].
  - pose proof (Hpos a). split; [lia|].
    constructor; [lia|].
    eapply Forall_impl; [|exact IHall]. cbn beta. intros; lia.
Qed.

Lemma value_start_number_head c :
  c = "-"%char \/ is_decimal c = true -> value_start c = true.
Proof.
  intros [->|H]; [reflexivity|]. unfold value_start. now rewrite H.
Qed.

(** Every value that JSON can carry has a text, and the parser reads
    that text back as the value. *)
Lemma stringify_round_trips (v : value) :
  json_wf v = true -> exists s, round_trips v s.
Proof.
  induction v as [ | | b | n | s | elems IH | fields IH ] using value_nested_ind;
    intros Hwf.
  - discriminate.
  - exists "null". repeat split; try (cbn; lia).
    intros [|fuel] rest Hfuel _; [cbn in Hfuel; lia | reflexivity].
  - exists (if b then "true" else "false").
    destruct b; (repeat split; try (cbn; lia);
      intros [|fuel] rest Hfuel _; [cbn in Hfuel; lia | reflexivity]).
  - destruct n as [|z]; [discriminate|].
    exists (toString_radix 10 z).
    destruct (number_head z) as (c & tail & Heq & Hc).
    repeat split.
    + rewrite Heq. cbn. now apply value_start_number_head.
    + rewrite Heq. cbn. lia.
    + intros [|fuel] rest Hfuel Hrest; [cbn in Hfuel; lia|].
      now apply parse_value_number.
  - exists (quote s). repeat split.
    + cbn. lia.
    + intros [|fuel] rest Hfuel _; [cbn in Hfuel; lia|].
      apply parse_value_string.
  - cbn [json_wf] in Hwf. rewrite forallb_forall in Hwf.
    assert (Hall : Forall (fun y => exists s, round_trips y s) elems).
    { rewrite Forall_forall in IH |- *. intros y Hy. apply IH; auto. }
    clear IH Hwf.
    exists ("[" ++ join "," (map text_of elems) ++ "]").
    assert (Hlen : Forall (fun y => (size y <= String.length (text_of y))%nat) elems).
    { eapply Forall_impl; [|exact Hall].
      intros y (s & Hs & _ & Hsz & _). unfold text_of. now rewrite Hs. }
    repeat split.
    + cbn [size String.length append]. rewrite length_append.
      pose proof (sum_le_join size text_of "," elems Hlen). cbn. lia.
    + intros [|fuel] rest Hfuel Hrest; [cbn in Hfuel; lia|].
      cbn [size] in Hfuel.
      cbn [append]. rewrite append_assoc. cbn [append].
      rewrite parse_value_array.
      destruct elems as [|x elems]; [reflexivity|].
      rewrite dispatch_bracket.
      * destruct (sum_bounds size (x :: elems) size_pos) as [Hn Hsz].
        rewrite parse_elements_join; [reflexivity| |lia].
        rewrite Forall_forall in Hall, Hsz |- *.
        intros y Hy. destruct (Hall y Hy) as (s & Hs & _ & _ & Hp).
        exists s. split; [exact Hs|].
        intros rest' Hrest'. apply Hp; [|exact Hrest'].
        specialize (Hsz y Hy). lia.
      * apply starts_value_append. cbn [map].
        apply starts_value_join.
        inversion Hall as [|? ? (s & Hs & Hstart & _) _]; subst.
        unfold text_of. now rewrite Hs.
  - cbn [json_wf] in Hwf. apply andb_true_iff in Hwf as [Hwf Hkeys].
    rewrite forallb_forall in Hwf.
    assert (Hall : Forall (fun kv => exists s, round_trips (snd kv) s) fields).
    { rewrite Forall_forall in IH |- *. intros y Hy. apply IH; auto. }
    clear IH Hwf.
    assert (Htexts : forall f, Forall (fun kv => reads_back f (snd kv)) fields ->
              stringify (Obj fields)
              = Some ("{" ++ join "," (map member_text fields) ++ "}")).
    { intros f Hf. cbn [stringify]. now rewrite (member_texts f). }
    assert (Hlen : Forall (fun kv => (size (snd kv)
                                      <= String.length (member_text kv))%nat) fields).
    { eapply Forall_impl; [|exact Hall].
      intros kv (s & Hs & _ & Hsz & _). unfold member_text, text_of.
      rewrite Hs, !length_append. lia. }
    destruct (sum_bounds (fun kv : string * value => size (snd kv)) fields
                (fun kv => size_pos (snd kv))) as [Hn Hsz].
    assert (Hreads : forall f,
              (list_sum (map (fun kv => size (snd kv)) fields) <= f)%nat ->
              Forall (fun kv => reads_back f (snd kv)) fields).
    { intros f Hf. rewrite Forall_forall in Hall, Hsz |- *.
      intros y Hy. destruct (Hall y Hy) as (s & Hs & _ & _ & Hp).
      exists s. split; [exact Hs|].
      intros rest' Hrest'. apply Hp; [|exact Hrest'].
      specialize (Hsz y Hy). cbn beta in Hsz. lia. }
    exists ("{" ++ join "," (map member_text fields) ++ "}").
    repeat split.
    + apply (Htexts _ (Hreads _ (Nat.le_refl _))).
    + cbn [size String.length append]. rewrite length_append.
      pose proof (sum_le_join (fun kv => size (snd kv)) member_text "," fields Hlen).
      cbn. lia.
    + intros [|fuel] rest Hfuel Hrest; [cbn in Hfuel; lia|].
      cbn [size] in Hfuel.
      cbn [append]. rewrite append_assoc. cbn [append].
      rewrite parse_value_object.
      destruct fields as [|kv fields]; [reflexivity|].
      rewrite dispatch_brace.
      * rewrite parse_members_join; [|apply Hreads; lia | lia].
        now rewrite object_of_distinct.
      * apply starts_value_append. cbn [map].
        apply starts_value_join. reflexivity.
Qed.

(** [JSON.parse(JSON.stringify(v))] is [v]. *)
Lemma JSON_parse_stringify (v : value) :
  json_wf v = true ->
  exists s, stringify v = Some s /\ JSON_parse s = Some v.
Proof.
  intros Hwf.
  destruct (stringify_round_trips v Hwf) as (s & Hs & _ & Hsz & Hp).
  exists s. split; [exact Hs|].
  unfold JSON_parse.
  rewrite <- (append_nil_r s) at 2.
  rewrite Hp; [reflexivity | lia | reflexivity].
Qed.

End JsonFacts.

(* ====================================================================== *)
(** * What a successful run of the builder looks like                     *)
(* ====================================================================== *)

Module BuilderFacts.
Import JS App.

Section Runs.
Context {World : Type} (env : Env World).

(** The values that occur in one run of [createEIP3009Authorization]. *)
Record build_run : Type := {
  b_web3 : Web3 World;
  b_provider : Provider World;
  b_from : string;
  b_to : string;
  b_token : string;
  b_name : value;
  b_version : value;
  b_chain_id : value;
  b_total : value;
  b_draw : World;            (* the world in which the nonce is drawn *)
  b_signature : value
}.

Definition b_bytes (b : build_run) : list Byte.byte :=
  map (crypto_random env (b_draw b)) (seq 0 32).

Definition b_now (b : build_run) : Z :=
  Date_now env (crypto_next env (b_draw b)).

Definition b_validBefore (b : build_run) : string :=
  ToString (Number (Num (b_now b / 1000 + 86400))).

Definition b_domain (b : build_run) : value :=
  Obj [("name", b_name b);
       ("version", b_version b);
       ("chainId", Number (parseInt (b_chain_id b) (Some 16)));
       ("verifyingContract", Str (b_token b))].

Definition b_message (b : build_run) : value :=
  Obj [("from", Str (b_from b));
       ("to", Str (b_to b));
       ("value", b_total b);
       ("validAfter", Str "0");
       ("validBefore", Str (b_validBefore b));
       ("nonce", Str (nonce_of (b_bytes b)))].

Definition b_sign_args (b : build_run) : value :=
  Obj [("method", Str "eth_signTypedData_v4");
       ("params",
        Arr [Str (b_from b);
             JSON_stringify (typed_data (b_domain b) (b_message b))])].

Definition b_authorization (b : build_run) : value :=
  Obj [("from", Str (b_from b));
       ("to", Str (b_to b));
       ("value", b_total b);
       ("validAfter", Str "0");
       ("validBefore", Str (b_validBefore b));
       ("nonce", Str (nonce_of (b_bytes b)));
       ("token", Str (b_token b))].

Definition b_result (b : build_run) : value :=
  Obj [("authorization", b_authorization b); ("signature", b_signature b)].

Definition b_events (b : build_run) : list event :=
  [ContractCall (b_token b) "name";
   ContractCall (b_token b) "version";
   GetRandomValues (b_bytes b);
   EthereumRequest (b_sign_args b)].

(** How the values of a run come from the state it starts in and from
    the browser. *)
Definition describes (st st' : State World) (b : build_run) : Prop :=
  let g := globals st in
  web3 g = Some (b_web3 b) /\
  ethereum env = Some (b_provider b) /\
  truthy (walletAddress g) = true /\
  truthy (CONFIG g) = true /\
  toChecksumAddress (b_web3 b) (walletAddress g) = Ok (b_from b) /\
  (exists treasury,
      get (CONFIG g) "treasury_wallet" = Ok treasury /\
      toChecksumAddress (b_web3 b) treasury = Ok (b_to b)) /\
  (exists usdc,
      get (CONFIG g) "usdc_address" = Ok usdc /\
      toChecksumAddress (b_web3 b) usdc = Ok (b_token b)) /\
  (exists w1,
      contract_call (b_web3 b) (b_token b) "name" (world st) = (Ok (b_name b), w1) /\
      contract_call (b_web3 b) (b_token b) "version" w1
      = (Ok (b_version b), b_draw b)) /\
  get (CONFIG g) "chain_id" = Ok (b_chain_id b) /\
  get (CONFIG g) "total_price_usdc_wei" = Ok (b_total b) /\
  request (b_provider b) (b_sign_args b) (crypto_next env (b_draw b))
  = (Ok (b_signature b), world st') /\
  globals st' = globals st /\
  trace st' = (trace st ++ b_events b)%list.

(** ** Inversion of the monad's operations *)

Lemma bind_Ok {A B} (m : M World A) (k : A -> M World B) st b st' :
  bind m k st = (Ok b, st') ->
  exists a st1, m st = (Ok a, st1) /\ k a st1 = (Ok b, st').
Proof.
  unfold bind. destruct (m st) as [[a|e] st1]; [eauto | discriminate].
Qed.

Lemma ret_Ok {A} (a b : A) (st st' : State World) :
  ret a st = (Ok b, st') -> b = a /\ st' = st.
Proof. unfold ret. intros H. now inversion H. Qed.

Lemma lift_Ok {A} (c : completion A) (a : A) (st st' : State World) :
  lift c st = (Ok a, st') -> c = Ok a /\ st' = st.
Proof. unfold lift. intros H. now inversion H. Qed.

Lemma read_Ok {A} (f : Globals World -> A) (a : A) (st st' : State World) :
  read f st = (Ok a, st') -> a = f (globals st) /\ st' = st.
Proof. unfold read. intros H. now inversion H. Qed.

Lemma observe_Ok {A} (f : World -> A) (a : A) (st st' : State World) :
  observe f st = (Ok a, st') -> a = f (world st) /\ st' = st.
Proof. unfold observe. intros H. now inversion H. Qed.

Lemma emit_Ok (e : event) (u : unit) (st st' : State World) :
  emit e st = (Ok u, st') ->
  st' = {| globals := globals st; world := world st;
           trace := (trace st ++ [e])%list |}.
Proof. unfold emit. intros H. now inversion H. Qed.

Lemma update_Ok (f : Globals World -> Globals World) (u : unit) (st st' : State World) :
  update f st = (Ok u, st') ->
  st' = {| globals := f (globals st); world := world st; trace := trace st |}.
Proof. unfold update. intros H. now inversion H. Qed.

Lemma external_Ok {A} (op : World -> completion A * World) (a : A)
      (st st' : State World) :
  external op st = (Ok a, st') ->
  exists w', op (world st) = (Ok a, w') /\
             st' = {| globals := globals st; world := w'; trace := trace st |}.
Proof.
  unfold external. destruct (op (world st)) as [c w'].
  intros H. inversion H; subst. eauto.
Qed.

Lemma CONFIG_get_Ok (k : string) (v : value) (st st' : State World) :
  CONFIG_get k st = (Ok v, st') ->
  get (CONFIG (globals st)) k = Ok v /\ st' = st.
Proof.
  unfold CONFIG_get. intros H.
  apply bind_Ok in H as (c & st1 & Hc & H).
  apply read_Ok in Hc as [-> ->]. now apply lift_Ok in H.
Qed.

Lemma call_Ok (w3 : Web3 World) (address method : string) (v : value)
      (st st' : State World) :
  call w3 address method st = (Ok v, st') ->
  exists w',
    contract_call w3 address method (world st) = (Ok v, w') /\
    st' = {| globals := globals st; world := w';
             trace := (trace st ++ [ContractCall address method])%list |}.
Proof.
  unfold call. intros H.
  apply bind_Ok in H as (u & st1 & Hu & H).
  apply emit_Ok in Hu. subst st1.
  apply external_Ok in H as (w' & Hw & ->). eauto.
Qed.

Lemma Promise_all_Ok {A B} (a : M World A) (b : M World B) x y st st' :
  Promise_all a b st = (Ok (x, y), st') ->
  exists st1, a st = (Ok x, st1) /\ b st1 = (Ok y, st').
Proof.
  unfold Promise_all.
  destruct (a st) as [ra st1]. destruct (b st1) as [rb st2] eqn:Hb.
  destruct ra, rb; intros H; inversion H; subst; eauto.
Qed.

Lemma getRandomValues_Ok (arr bytes : list Byte.byte) (st st' : State World) :
  getRandomValues env arr st = (Ok bytes, st') ->
  bytes = map (crypto_random env (world st)) (seq 0 (List.length arr)) /\
  st' = {| globals := globals st; world := crypto_next env (world st);
           trace := (trace st ++ [GetRandomValues bytes])%list |}.
Proof.
  unfold getRandomValues. intros H.
  apply bind_Ok in H as (bs & st1 & Hbs & H).
  apply observe_Ok in Hbs as [-> ->].
  apply bind_Ok in H as (u & st2 & Hu & H).
  apply external_Ok in Hu as (w' & Hw & ->). inversion Hw; subst w'.
  apply bind_Ok in H as (u' & st3 & Hu' & H).
  apply emit_Ok in Hu'. subst st3.
  apply ret_Ok in H as [-> ->]. split; reflexivity.
Qed.

Lemma ethereum_request_Ok (args v : value) (st st' : State World) :
  ethereum_request env args st = (Ok v, st') ->
  exists provider,
    ethereum env = Some provider /\
    request provider args (world st) = (Ok v, world st') /\
    globals st' = globals st /\
    trace st' = (trace st ++ [EthereumRequest args])%list.
Proof.
  unfold ethereum_request.
  destruct (ethereum env) as [provider|]; [|discriminate].
  intros H. exists provider.
  apply bind_Ok in H as (u & st1 & Hu & H).
  apply emit_Ok in Hu. subst st1.
  apply external_Ok in H as (w' & Hw & ->). cbn. auto.
Qed.

Lemma builder_inversion (st st' : State World) (r : value) :
  createEIP3009Authorization env st = (Ok r, st') ->
  exists b, r = b_result b /\ describes st st' b.
Proof.
  unfold createEIP3009Authorization, try_catch.
  destruct (bind _ _ st) as [[r0|e] st0] eqn:H; cbn [throw];
    [|discriminate].
  intros Hr. inversion Hr; subst r0 st0. clear Hr.
  apply bind_Ok in H as (w3o & s1 & Hw3 & H).
  apply read_Ok in Hw3 as [-> ->].
  destruct (web3 (globals st)) as [w3|] eqn:Hweb3; [|discriminate].
  apply bind_Ok in H as (wallet & s1 & Hwallet & H).
  apply read_Ok in Hwallet as [-> ->].
  destruct (truthy (walletAddress (globals st))) eqn:Hwallet; [|discriminate].
  cbn [negb] in H.
  apply bind_Ok in H as (c & s1 & Hc & H).
  apply read_Ok in Hc as [-> ->].
  destruct (truthy (CONFIG (globals st))) eqn:Hconfig; [|discriminate].
  cbn [negb] in H.
  apply bind_Ok in H as (fromA & s1 & Hfrom & H).
  apply lift_Ok in Hfrom as [Hfrom ->].
  apply bind_Ok in H as (treasury & s1 & Htreasury & H).
  apply CONFIG_get_Ok in Htreasury as [Htreasury ->].
  apply bind_Ok in H as (toA & s1 & Hto & H).
  apply lift_Ok in Hto as [Hto ->].
  apply bind_Ok in H as (usdc & s1 & Husdc & H).
  apply CONFIG_get_Ok in Husdc as [Husdc ->].
  apply bind_Ok in H as (tokA & s1 & Htok & H).
  apply lift_Ok in Htok as [Htok ->].
  apply bind_Ok in H as ([nm ver] & s2 & Hmeta & H).
  apply Promise_all_Ok in Hmeta as (s1 & Hname & Hversion).
  apply call_Ok in Hname as (w1 & Hname & ->).
  apply call_Ok in Hversion as (w2 & Hversion & ->).
  cbn [world globals trace] in *.
  apply bind_Ok in H as (bytes & s3 & Hbytes & H).
  apply getRandomValues_Ok in Hbytes as [-> ->].
  cbn [world globals trace] in *.
  apply bind_Ok in H as (chain & s1 & Hchain & H).
  apply CONFIG_get_Ok in Hchain as [Hchain ->].
  apply bind_Ok in H as (now & s1 & Hnow & H).
  apply observe_Ok in Hnow as [-> ->].
  apply bind_Ok in H as (total & s1 & Htotal & H).
  apply CONFIG_get_Ok in Htotal as [Htotal ->].
  apply bind_Ok in H as (sig & s4 & Hsig & H).
  apply ethereum_request_Ok in Hsig as (provider & Hprov & Hsig & Hg & Ht).
  apply bind_Ok in H as (total' & s1 & Htotal' & H).
  apply CONFIG_get_Ok in Htotal' as [Htotal' ->].
  apply ret_Ok in H as [-> ->].
  cbn [world globals trace] in *.
  rewrite Hg in Htotal'. cbn [globals] in Htotal'.
  rewrite Htotal in Htotal'. inversion Htotal'; subst total'.
  exists {| b_web3 := w3; b_provider := provider; b_from := fromA; b_to := toA;
            b_token := tokA; b_name := nm; b_version := ver; b_chain_id := chain;
            b_total := total; b_draw := w2; b_signature := sig |}.
  split; [reflexivity|].
  unfold describes. cbn [b_web3 b_provider b_from b_to b_token b_name b_version
                        b_chain_id b_total b_draw b_signature].
  repeat (split; [solve [eauto]|]).
  rewrite Ht. unfold b_events. cbn.
  rewrite <- !app_assoc. reflexivity.
Qed.

(** ** What a computation may add to the trace, whatever its outcome *)

(** [emits P m]: run from any state, [m] only appends events to the
    trace, and each appended event satisfies [P]. *)
Definition emits {A} (P : event -> Prop) (m : M World A) : Prop :=
  forall st, exists evs,
    trace (snd (m st)) = (trace st ++ evs)%list /\ Forall P evs.

Lemma emits_silent {A} P (m : M World A) :
  (forall st, trace (snd (m st)) = trace st) -> emits P m.
Proof.
  intros H st. exists []. rewrite app_nil_r. split; [apply H | constructor].
Qed.

Lemma emits_ret {A} P (a : A) : emits P (ret a).
Proof. now apply emits_silent. Qed.

Lemma emits_throw {A} P e : emits P (@throw World A e).
Proof. now apply emits_silent. Qed.

Lemma emits_lift {A} P (c : completion A) : emits P (@lift World A c).
Proof. now apply emits_silent. Qed.

Lemma emits_read {A} P (f : Globals World -> A) : emits P (read f).
Proof. now apply emits_silent. Qed.

Lemma emits_observe {A} P (f : World -> A) : emits P (observe f).
Proof. now apply emits_silent. Qed.

Lemma emits_update P f : emits P (@update World f).
Proof. now apply emits_silent. Qed.

Lemma emits_external {A} P (op : World -> completion A * World) :
  emits P (external op).
Proof.
  apply emits_silent. intros st. unfold external.
  now destruct (op (world st)).
Qed.

Lemma emits_emit P e : P e -> emits P (@emit World e).
Proof.
  intros He st. exists [e]. split; [reflexivity | now constructor].
Qed.

Lemma emits_bind {A B} P (m : M World A) (k : A -> M World B) :
  emits P m -> (forall a, emits P (k a)) -> emits P (bind m k).
Proof.
  intros Hm Hk st. unfold bind.
  destruct (Hm st) as (evs & Ht & Hevs).
  destruct (m st) as [[a|e] st1]; cbn [snd] in *.
  - destruct (Hk a st1) as (evs' & Ht' & Hevs').
    exists (evs ++ evs')%list. split.
    + rewrite Ht', Ht. now rewrite app_assoc.
    + now apply Forall_app.
  - now exists evs.
Qed.

Lemma emits_try_catch {A} P (body : M World A) (handler : exn -> M World A) :
  emits P body -> (forall e, emits P (handler e)) -> emits P (try_catch body handler).
Proof.
  intros Hm Hk st. unfold try_catch.
  destruct (Hm st) as (evs & Ht & Hevs).
  destruct (body st) as [[a|e] st1]; cbn [snd] in *.
  - now exists evs.
  - destruct (Hk e st1) as (evs' & Ht' & Hevs').
    exists (evs ++ evs')%list. split.
    + rewrite Ht', Ht. now rewrite app_assoc.
    + now apply Forall_app.
Qed.

Lemma emits_Promise_all {A B} P (a : M World A) (b : M World B) :
  emits P a -> emits P b -> emits P (Promise_all a b).
Proof.
  intros Ha Hb st. unfold Promise_all.
  destruct (Ha st) as (evs & Ht & Hevs).
  destruct (a st) as [ra st1]; cbn [snd] in *.
  destruct (Hb st1) as (evs' & Ht' & Hevs').
  destruct (b st1) as [rb st2]; cbn [snd] in *.
  exists (evs ++ evs')%list. split.
  - destruct ra, rb; cbn [snd]; rewrite Ht', Ht; now rewrite app_assoc.
  - now apply Forall_app.
Qed.

Lemma emits_weaken {A} (P Q : event -> Prop) (m : M World A) :
  (forall e, P e -> Q e) -> emits P m -> emits Q m.
Proof.
  intros HPQ Hm st. destruct (Hm st) as (evs & Ht & Hevs).
  exists evs. split; [exact Ht|]. eapply Forall_impl; eauto.
Qed.

End Runs.

Ltac emits_step :=
  match goal with
  | |- emits _ (bind _ _) => apply emits_bind; [|intros ?]
  | |- emits _ (try_catch _ _) => apply emits_try_catch; [|intros ?]
  | |- emits _ (Promise_all _ _) => apply emits_Promise_all
  | |- emits _ (ret _) => apply emits_ret
  | |- emits _ (throw _) => apply emits_throw
  | |- emits _ (lift _) => apply emits_lift
  | |- emits _ (read _) => apply emits_read
  | |- emits _ (observe _) => apply emits_observe
  | |- emits _ (update _) => apply emits_update
  | |- emits _ (external _) => apply emits_external
  | |- emits _ (emit _) => apply emits_emit
  | |- emits _ (if ?c then _ else _) => destruct c
  | |- emits _ (match ?x with _ => _ end) => destruct x
  | |- emits _ (let '(_, _) := ?x in _) => destruct x
  end.

End BuilderFacts.

(* ====================================================================== *)
(** * The nonce                                                           *)
(* ====================================================================== *)

Module NonceFacts.
Import JS App StringFacts DigitFacts BuilderFacts.

(** Two lower-case hexadecimal digits that read back as the byte. *)
Lemma byte_hex_spec (b : Byte.byte) :
  String.length (byte_hex b) = 2%nat /\
  all_chars is_lower_hex (byte_hex b) = true /\
  parse_digits 16 (byte_hex b) 0 false = (Z.of_N (Byte.to_N b), true, "").
Proof.
  destruct b; vm_compute; repeat split; reflexivity.
Qed.

Definition hex_body (bytes : list Byte.byte) : string :=
  join "" (map byte_hex bytes).

Lemma hex_body_cons b bytes : hex_body (b :: bytes) = byte_hex b ++ hex_body bytes.
Proof. unfold hex_body. cbn [map]. apply join_empty_cons. Qed.

Lemma hex_body_length bytes :
  String.length (hex_body bytes) = (2 * List.length bytes)%nat.
Proof.
  induction bytes as [|b bytes IH]; [reflexivity|].
  rewrite hex_body_cons, length_append, IH.
  destruct (byte_hex_spec b) as [-> _]. cbn [List.length]. lia.
Qed.

Lemma hex_body_lower bytes : all_chars is_lower_hex (hex_body bytes) = true.
Proof.
  induction bytes as [|b bytes IH]; [reflexivity|].
  rewrite hex_body_cons, all_chars_append, IH.
  destruct (byte_hex_spec b) as (_ & -> & _). reflexivity.
Qed.

Lemma nonce_of_hex_body bytes : nonce_of bytes = "0x" ++ hex_body bytes.
Proof. reflexivity. Qed.

Section Drawn.
Context {World : Type} (env : Env World).

Lemma b_bytes_length (b : build_run) : List.length (b_bytes env b) = 32%nat.
Proof. unfold b_bytes. now rewrite length_map, length_seq. Qed.

End Drawn.

End NonceFacts.

(* ====================================================================== *)
(** * The authorization builder                                           *)
(* ====================================================================== *)

Module Builder.
Import JS App StringFacts DigitFacts BuilderFacts NonceFacts Sample.

(** C9.  Every nonce the builder returns is ["0x"] followed by exactly 64
    lower-case hexadecimal digits: 32 bytes, each written as two
    zero-padded digits that read back as the byte. *)
Theorem nonce_is_0x_and_64_lower_hex_digits
    {World : Type} (env : Env World) (st st' : State World) (r : value) :
  createEIP3009Authorization env st = (Ok r, st') ->
  exists authorization bytes,
    get r "authorization" = Ok authorization /\
    get authorization "nonce" = Ok (Str ("0x" ++ hex_body bytes)) /\
    List.length bytes = 32%nat /\
    String.length (hex_body bytes) = 64%nat /\
    all_chars is_lower_hex (hex_body bytes) = true /\
    Forall (fun b =>
              String.length (byte_hex b) = 2%nat /\
              parse_digits 16 (byte_hex b) 0 false
              = (Z.of_N (Byte.to_N b), true, "")) bytes.
Proof.
  intros H. apply builder_inversion in H as (b & -> & _).
  exists (b_authorization env b), (b_bytes env b).
  split; [reflexivity|]. split; [reflexivity|].
  split; [apply b_bytes_length|]. repeat split.
  - now rewrite hex_body_length, b_bytes_length.
  - apply hex_body_lower.
  - apply Forall_forall. intros x _.
    destruct (byte_hex_spec x) as (H2 & _ & Hp). now split.
Qed.

Lemma nonce_is_0x_and_64_lower_hex_digits_witness :
  createEIP3009Authorization good (ready good) = (Ok (built good), snd (build good)) /\
  exists authorization bytes,
    get (built good) "authorization" = Ok authorization /\
    get authorization "nonce" = Ok (Str ("0x" ++ hex_body bytes)) /\
    List.length bytes = 32%nat /\
    String.length (hex_body bytes) = 64%nat /\
    all_chars is_lower_hex (hex_body bytes) = true /\
    Forall (fun b =>
              String.length (byte_hex b) = 2%nat /\
              parse_digits 16 (byte_hex b) 0 false
              = (Z.of_N (Byte.to_N b), true, "")) bytes.
Proof.
  split; [vm_compute; reflexivity|].
  apply (nonce_is_0x_and_64_lower_hex_digits good (ready good) (snd (build good))).
  vm_compute; reflexivity.
Defined.

(** C2.  In every authorization the builder returns, [validAfter] is
    ["0"] and [validBefore] is the decimal text of the unix time, read
    when the signature is requested, plus 86400 seconds; the message
    handed to the wallet carries the same two values.  The builder takes
    no argument, and the statement holds in every state of the script's
    variables, so nothing the caller or the configuration holds changes
    the window. *)
Theorem validity_window_is_zero_to_now_plus_86400
    {World : Type} (env : Env World) (st st' : State World) (r : value) :
  createEIP3009Authorization env st = (Ok r, st') ->
  exists authorization provider from domain message now signature,
    get r "authorization" = Ok authorization /\
    get authorization "validAfter" = Ok (Str "0") /\
    parseInt (Str "0") None = Num 0 /\
    get authorization "validBefore"
    = Ok (Str (ToString (Number (Num (Date_now env now / 1000 + 86400))))) /\
    ethereum env = Some provider /\
    request provider
      (Obj [("method", Str "eth_signTypedData_v4");
            ("params", Arr [Str from;
                            JSON_stringify (typed_data domain message)])])
      now
    = (Ok signature, world st') /\
    get message "validAfter" = Ok (Str "0") /\
    get message "validBefore"
    = Ok (Str (ToString (Number (Num (Date_now env now / 1000 + 86400))))).
Proof.
  intros H. apply builder_inversion in H as (b & -> & Hb).
  destruct Hb as (_ & Hprov & _ & _ & _ & _ & _ & _ & _ & _ & Hsig & _).
  exists (b_authorization env b), (b_provider b), (b_from b),
    (b_domain b), (b_message env b), (crypto_next env (b_draw b)),
    (b_signature b).
  repeat split; assumption.
Qed.

Lemma validity_window_is_zero_to_now_plus_86400_witness :
  createEIP3009Authorization good (ready good) = (Ok (built good), snd (build good)) /\
  exists authorization provider from domain message now signature,
    get (built good) "authorization" = Ok authorization /\
    get authorization "validAfter" = Ok (Str "0") /\
    parseInt (Str "0") None = Num 0 /\
    get authorization "validBefore"
    = Ok (Str (ToString (Number (Num (Date_now good now / 1000 + 86400))))) /\
    ethereum good = Some provider /\
    request provider
      (Obj [("method", Str "eth_signTypedData_v4");
            ("params", Arr [Str from;
                            JSON_stringify (typed_data domain message)])])
      now
    = (Ok signature, world (snd (build good))) /\
    get message "validAfter" = Ok (Str "0") /\
    get message "validBefore"
    = Ok (Str (ToString (Number (Num (Date_now good now / 1000 + 86400))))).
Proof.
  split; [vm_compute; reflexivity|].
  apply (validity_window_is_zero_to_now_plus_86400 good (ready good)).
  vm_compute; reflexivity.
Defined.



(** The request for a signature over a [TransferWithAuthorization]
    message, as the specification lays it out. *)
Definition typed_transfer_request (args : value) : Prop :=
  exists from to token name version chainId value validBefore nonce,
    args =
    Obj [("method", Str "eth_signTypedData_v4");
         ("params",
          Arr [Str from;
               JSON_stringify
                 (Obj [("types",
                        Obj [("EIP712Domain", EIP712Domain_type);
                             ("TransferWithAuthorization",
                              TransferWithAuthorization_type)]);
                       ("primaryType", Str "TransferWithAuthorization");
                       ("domain",
                        Obj [("name", name);
                             ("version", version);
                             ("chainId", Number chainId);
                             ("verifyingContract", Str token)]);
                       ("message",
                        Obj [("from", Str from);
                             ("to", Str to);
                             ("value", value);
                             ("validAfter", Str "0");
                             ("validBefore", Str validBefore);
                             ("nonce", Str nonce)])])])].

Lemma builder_requests_are_typed {World : Type} (env : Env World) :
  emits (fun e => forall args, e = EthereumRequest args -> typed_transfer_request args)
        (createEIP3009Authorization env).
Proof.
  unfold createEIP3009Authorization, CONFIG_get, call, getRandomValues,
    ethereum_request.
  repeat emits_step; intros args Hargs; try discriminate Hargs.
  injection Hargs as <-. unfold typed_transfer_request, typed_data.
  repeat eexists.
Qed.

(** The events a run appended to the trace. *)
Definition added {World : Type} (st st' : State World) : list event :=
  skipn (List.length (trace st)) (trace st').

Lemma added_app {World : Type} (st st' : State World) evs :
  trace st' = (trace st ++ evs)%list -> added st st' = evs.
Proof.
  intros H. unfold added. rewrite H.
  rewrite skipn_app, Nat.sub_diag, skipn_all. reflexivity.
Qed.



(** Against C4 as stated: with a random source that repeats itself, two
    runs of the builder in a row both return an authorization, with the
    same nonce; the collision is not a build failure. *)
Lemma repeated_nonce_is_not_a_build_failure :
  exists r1 s1 r2 s2 nonce,
    createEIP3009Authorization repeating (ready repeating) = (Ok r1, s1) /\
    createEIP3009Authorization repeating s1 = (Ok r2, s2) /\
    (exists a1, get r1 "authorization" = Ok a1 /\ get a1 "nonce" = Ok (Str nonce)) /\
    (exists a2, get r2 "authorization" = Ok a2 /\ get a2 "nonce" = Ok (Str nonce)).
Proof.
  exists (built repeating), (snd (build repeating)),
    (result_of (fst (createEIP3009Authorization repeating (snd (build repeating))))),
    (snd (createEIP3009Authorization repeating (snd (build repeating)))),
    (nonce_of (repeat Byte.x2a 32)).
  split; [vm_compute; reflexivity|].
  split; [vm_compute; reflexivity|].
  split; eexists; split; vm_compute; reflexivity.
Qed.

End Builder.

(* ====================================================================== *)
(** * The builder, stage by stage                                         *)
(* ====================================================================== *)

Module BuilderCases.
Import JS App StringFacts BuilderFacts NonceFacts.

(** The value of a property read that does not throw. *)
Definition value_of (c : completion value) : value :=
  match c with
  | Ok v => v
  | Throw _ => Undefined
  end.

Lemma get_value_of (o : value) (k : string) :
  truthy o = true -> get o k = Ok (value_of (get o k)).
Proof. destruct o; cbn; intros H; try discriminate H; reflexivity. Qed.

(** The object handed to [window.ethereum.request] for the signature,
    and the authorization returned with it. *)
Definition sign_request (from to token : string)
    (name version chain_id total : value) (bytes : list Byte.byte) (now : Z)
  : value :=
  Obj [("method", Str "eth_signTypedData_v4");
       ("params",
        Arr [Str from;
             JSON_stringify
               (typed_data
                  (Obj [("name", name);
                        ("version", version);
                        ("chainId", Number (parseInt chain_id (Some 16)));
                        ("verifyingContract", Str token)])
                  (Obj [("from", Str from);
                        ("to", Str to);
                        ("value", total);
                        ("validAfter", Str "0");
                        ("validBefore",
                         Str (ToString (Number (Num (now / 1000 + 86400)))));
                        ("nonce", Str (nonce_of bytes))]))])].

Definition authorization_of (from to token : string) (total : value)
    (bytes : list Byte.byte) (now : Z) : value :=
  Obj [("from", Str from);
       ("to", Str to);
       ("value", total);
       ("validAfter", Str "0");
       ("validBefore", Str (ToString (Number (Num (now / 1000 + 86400)))));
       ("nonce", Str (nonce_of bytes));
       ("token", Str token)].

Section Cases.
Context {World : Type} (env : Env World).

(** The builder has passed its checks, checksummed the three addresses
    and received the token's name and version; [w] is the world in which
    it goes on to draw the nonce. *)
Definition reaches_the_draw (st : State World) (w3 : Web3 World)
    (from to token : string) (name version : value) (w : World) : Prop :=
  web3 (globals st) = Some w3 /\
  truthy (walletAddress (globals st)) = true /\
  truthy (CONFIG (globals st)) = true /\
  toChecksumAddress w3 (walletAddress (globals st)) = Ok from /\
  toChecksumAddress w3 (value_of (get (CONFIG (globals st)) "treasury_wallet"))
  = Ok to /\
  toChecksumAddress w3 (value_of (get (CONFIG (globals st)) "usdc_address"))
  = Ok token /\
  exists w1,
    contract_call w3 token "name" (world st) = (Ok name, w1) /\
    contract_call w3 token "version" w1 = (Ok version, w).

Ltac go :=
  cbv [createEIP3009Authorization try_catch bind read throw lift ret CONFIG_get
       Promise_all call emit external observe getRandomValues ethereum_request];
  cbn [negb world globals trace].

(** From the draw on: the builder draws, reads the clock and asks the
    wallet; what it returns or throws is the wallet's answer. *)
Lemma builder_from_the_draw (st : State World) w3 from to token name version w :
  reaches_the_draw st w3 from to token name version w ->
  let bytes := map (crypto_random env w) (seq 0 32) in
  let now := Date_now env (crypto_next env w) in
  let chain_id := value_of (get (CONFIG (globals st)) "chain_id") in
  let total := value_of (get (CONFIG (globals st)) "total_price_usdc_wei") in
  let args := sign_request from to token name version chain_id total bytes now in
  let drawn := (trace st ++ [ContractCall token "name";
                             ContractCall token "version";
                             GetRandomValues bytes])%list in
  createEIP3009Authorization env st
  = match ethereum env with
    | None =>
        (Throw (Error "Cannot read properties of undefined (reading 'request')"),
         {| globals := globals st; world := crypto_next env w; trace := drawn |})
    | Some provider =>
        match request provider args (crypto_next env w) with
        | (Ok signature, w') =>
            (Ok (Obj [("authorization",
                       authorization_of from to token total bytes now);
                      ("signature", signature)]),
             {| globals := globals st; world := w';
                trace := (drawn ++ [EthereumRequest args])%list |})
        | (Throw e, w') =>
            (Throw e,
             {| globals := globals st; world := w';
                trace := (drawn ++ [EthereumRequest args])%list |})
        end
    end.
Proof.
  intros (Hweb3 & Hwallet & Hconfig & Hfrom & Hto & Htoken & w1 & Hname & Hversion).
  cbv zeta.
  pose proof (get_value_of _ "treasury_wallet" Hconfig) as Gt.
  pose proof (get_value_of _ "usdc_address" Hconfig) as Gu.
  pose proof (get_value_of _ "chain_id" Hconfig) as Gc.
  pose proof (get_value_of _ "total_price_usdc_wei" Hconfig) as Gp.
  set (treasury := value_of (get _ "treasury_wallet")) in *.
  set (usdc := value_of (get _ "usdc_address")) in *.
  set (chain_id := value_of (get _ "chain_id")) in *.
  set (total := value_of (get _ "total_price_usdc_wei")) in *.
  go. rewrite Hweb3. go. rewrite Hwallet. go. rewrite Hconfig. go.
  rewrite Hfrom. go. rewrite Gt. go. rewrite Hto. go.
  rewrite Gu. go. rewrite Htoken. go.
  rewrite Hname. go. rewrite Hversion. go.
  rewrite Gc. go. rewrite Gp. go.
  rewrite <- !app_assoc. cbn [app].
  unfold Uint8Array. rewrite repeat_length.
  destruct (ethereum env) as [provider|]; go; [|reflexivity].
  unfold sign_request, authorization_of.
  destruct (request provider _ (crypto_next env w)) as [[signature|e] w'];
    go; rewrite <- ?app_assoc; cbn [app]; [|reflexivity].
  rewrite Gp. reflexivity.
Qed.

(** The three ways through the builder: it stops before it has called
    anything outside; it stops after the two metadata calls, one of
    which was rejected; or it reaches the draw. *)
Lemma builder_stops_or_draws (st : State World) :
  (exists e, createEIP3009Authorization env st = (Throw e, st)) \/
  (exists e token w2,
      createEIP3009Authorization env st
      = (Throw e,
         {| globals := globals st; world := w2;
            trace := (trace st ++ [ContractCall token "name";
                                   ContractCall token "version"])%list |})) \/
  (exists w3 from to token name version w,
      reaches_the_draw st w3 from to token name version w).
Proof.
  destruct (web3 (globals st)) as [w3|] eqn:Hweb3.
  2:{ left. eexists. go. rewrite Hweb3. reflexivity. }
  destruct (truthy (walletAddress (globals st))) eqn:Hwallet.
  2:{ left. eexists. go. rewrite Hweb3. go. rewrite Hwallet. reflexivity. }
  destruct (truthy (CONFIG (globals st))) eqn:Hconfig.
  2:{ left. eexists. go. rewrite Hweb3. go. rewrite Hwallet. go.
      rewrite Hconfig. reflexivity. }
  pose proof (get_value_of _ "treasury_wallet" Hconfig) as Gt.
  pose proof (get_value_of _ "usdc_address" Hconfig) as Gu.
  unfold reaches_the_draw.
  set (treasury := value_of (get _ "treasury_wallet")) in *.
  set (usdc := value_of (get _ "usdc_address")) in *.
  destruct (toChecksumAddress w3 (walletAddress (globals st))) as [from|e] eqn:Hfrom.
  2:{ left. eexists. go. rewrite Hweb3. go. rewrite Hwallet. go.
      rewrite Hconfig. go. rewrite Hfrom. reflexivity. }
  destruct (toChecksumAddress w3 treasury) as [to|e] eqn:Hto.
  2:{ left. eexists. go. rewrite Hweb3. go. rewrite Hwallet. go.
      rewrite Hconfig. go. rewrite Hfrom. go. rewrite Gt. go.
      rewrite Hto. reflexivity. }
  destruct (toChecksumAddress w3 usdc) as [token|e] eqn:Htoken.
  2:{ left. eexists. go. rewrite Hweb3. go. rewrite Hwallet. go.
      rewrite Hconfig. go. rewrite Hfrom. go. rewrite Gt. go.
      rewrite Hto. go. rewrite Gu. go. rewrite Htoken. reflexivity. }
  destruct (contract_call w3 token "name" (world st)) as [rn w1] eqn:Hname.
  destruct (contract_call w3 token "version" w1) as [rv w2] eqn:Hversion.
  assert (Hmeta : forall e,
             (rn = Throw e \/ (exists n, rn = Ok n) /\ rv = Throw e) ->
             createEIP3009Authorization env st
             = (Throw e,
                {| globals := globals st; world := w2;
                   trace := (trace st ++ [ContractCall token "name";
                                          ContractCall token "version"])%list |})).
  { intros e He.
    go. rewrite Hweb3. go. rewrite Hwallet. go. rewrite Hconfig. go.
    rewrite Hfrom. go. rewrite Gt. go. rewrite Hto. go.
    rewrite Gu. go. rewrite Htoken. go.
    rewrite Hname. go. rewrite Hversion. rewrite <- app_assoc. cbn [app].
    destruct He as [->|[(n & ->) ->]]; [destruct rv|]; reflexivity. }
  destruct rn as [name|e].
  2:{ right. left. exists e, token, w2. apply Hmeta. now left. }
  destruct rv as [version|e].
  2:{ right. left. exists e, token, w2. apply Hmeta. right. eauto. }
  right. right. exists w3, from, to, token, name, version, w2.
  repeat (split; [first [assumption | reflexivity]|]).
  exists w1. split; assumption.
Qed.

End Cases.

End BuilderCases.

(* ====================================================================== *)
(** * The builder: every run, whatever its outcome                        *)
(* ====================================================================== *)

Module BuilderRuns.
Import JS App StringFacts DigitFacts BuilderFacts NonceFacts BuilderCases Builder
       Sample Scenes.

Lemma added_nil {World : Type} (st : State World) : added st st = [].
Proof. apply added_app. now rewrite app_nil_r. Qed.

(** X27.  Whatever the outcome of the builder, every request it sends to
    the wallet asks for a signature ([eth_signTypedData_v4], by the payer)
    over typed data with primary type [TransferWithAuthorization], domain
    {name, version, chainId, verifyingContract} and message {from, to,
    value, validAfter, validBefore, nonce}.  The builder sends such a
    request only after it has passed its checks, checksummed the three
    addresses and received the token's name and version; the request is
    then the only one of the run, its domain holds the name and the
    version that the token contract (the checksummed [usdc_address])
    answered in this run, its message holds the checksummed payer and
    treasury, the [total_price_usdc_wei] of the configuration and the
    nonce drawn in this run, and the builder returns the wallet's
    signature with the same fields, or throws the wallet's error.  These
    are the fields of the object given to [JSON.stringify], which leaves
    a field whose value is [undefined] out of the text: the [value], when
    the configuration in force has no [total_price_usdc_wei]. *)
Theorem signing_request_is_the_typed_transfer_message
    {World : Type} (env : Env World) (st : State World) (args : value) :
  In (EthereumRequest args) (added st (snd (createEIP3009Authorization env st))) ->
  typed_transfer_request args /\
  exists w3 provider from to token name version w answer,
    reaches_the_draw st w3 from to token name version w /\
    ethereum env = Some provider /\
    args = sign_request from to token name version
             (value_of (get (CONFIG (globals st)) "chain_id"))
             (value_of (get (CONFIG (globals st)) "total_price_usdc_wei"))
             (map (crypto_random env w) (seq 0 32))
             (Date_now env (crypto_next env w)) /\
    added st (snd (createEIP3009Authorization env st))
    = [ContractCall token "name"; ContractCall token "version";
       GetRandomValues (map (crypto_random env w) (seq 0 32));
       EthereumRequest args] /\
    request provider args (crypto_next env w)
    = (answer, world (snd (createEIP3009Authorization env st))) /\
    fst (createEIP3009Authorization env st)
    = match answer with
      | Ok signature =>
          Ok (Obj [("authorization",
                    authorization_of from to token
                      (value_of (get (CONFIG (globals st)) "total_price_usdc_wei"))
                      (map (crypto_random env w) (seq 0 32))
                      (Date_now env (crypto_next env w)));
                   ("signature", signature)])
      | Throw e => Throw e
      end.
Proof.
  intros Hin.
  destruct (builder_stops_or_draws env st)
    as [(e & Hrun)|[(e & token & w2 & Hrun)
                   |(w3 & from & to & token & name & version & w & Hreach)]].
  { rewrite Hrun in Hin. cbn [snd] in Hin. rewrite added_nil in Hin.
    destruct Hin. }
  { rewrite Hrun in Hin. cbn [snd] in Hin.
    rewrite (added_app st _ [ContractCall token "name"; ContractCall token "version"])
      in Hin by reflexivity.
    destruct Hin as [Hin|[Hin|[]]]; discriminate Hin. }
  pose proof (builder_from_the_draw env st _ _ _ _ _ _ _ Hreach) as Hrun.
  cbv zeta in Hrun.
  destruct (ethereum env) as [provider|] eqn:Hprov.
  2:{ rewrite Hrun in Hin. cbn [snd] in Hin.
      rewrite (added_app st _
                 [ContractCall token "name"; ContractCall token "version";
                  GetRandomValues (map (crypto_random env w) (seq 0 32))])
        in Hin by reflexivity.
      destruct Hin as [Hin|[Hin|[Hin|[]]]]; discriminate Hin. }
  set (request_args := sign_request _ _ _ _ _ _ _ _ _) in *.
  assert (Hargs : forall w',
             In (EthereumRequest args)
                (added st
                   {| globals := globals st; world := w';
                      trace := ((trace st ++
                                 [ContractCall token "name";
                                  ContractCall token "version";
                                  GetRandomValues
                                    (map (crypto_random env w) (seq 0 32))]) ++
                                [EthereumRequest request_args])%list |}) ->
             args = request_args /\
             added st
               {| globals := globals st; world := w';
                  trace := ((trace st ++
                             [ContractCall token "name";
                              ContractCall token "version";
                              GetRandomValues
                                (map (crypto_random env w) (seq 0 32))]) ++
                            [EthereumRequest request_args])%list |}
             = [ContractCall token "name"; ContractCall token "version";
                GetRandomValues (map (crypto_random env w) (seq 0 32));
                EthereumRequest request_args]).
  { intros w' Hin'.
    rewrite (added_app st _
               [ContractCall token "name"; ContractCall token "version";
                GetRandomValues (map (crypto_random env w) (seq 0 32));
                EthereumRequest request_args])
      in Hin' |- * by (cbn [trace]; now rewrite <- app_assoc).
    destruct Hin' as [H|[H|[H|[H|[]]]]]; try discriminate H.
    injection H as <-. split; reflexivity. }
  destruct (request provider request_args (crypto_next env w))
    as [[signature|e] w'] eqn:Hreq;
    rewrite Hrun in Hin |- *; cbn [fst snd world] in Hin |- *;
    destruct (Hargs w' Hin) as [-> Hadded].
  - split.
    { subst request_args. unfold typed_transfer_request, sign_request, typed_data.
      repeat eexists. }
    exists w3, provider, from, to, token, name, version, w, (Ok signature).
    repeat (split; [first [assumption | reflexivity]|]). reflexivity.
  - split.
    { subst request_args. unfold typed_transfer_request, sign_request, typed_data.
      repeat eexists. }
    exists w3, provider, from, to, token, name, version, w, (Throw e).
    repeat (split; [first [assumption | reflexivity]|]). reflexivity.
Qed.

(** The signing request of the session in which the wallet declines. *)
Definition declined_request : value :=
  sign_request
    "0x3333333333333333333333333333333333333333"
    "0x1111111111111111111111111111111111111111"
    "0x833589fCD6eDb6E08f4c7C32D4f71b54bdA02913"
    (Str "USD Coin") (Str "2") (Str "0x2105") (Str "20000")
    (map (crypto_random declining (world (ready declining) + 2)) (seq 0 32))
    (Date_now declining (crypto_next declining (world (ready declining) + 2))).

Lemma signing_request_is_the_typed_transfer_message_witness :
  In (EthereumRequest declined_request)
     (added (ready declining)
        (snd (createEIP3009Authorization declining (ready declining)))) /\
  fst (createEIP3009Authorization declining (ready declining)) = Throw user_denied /\
  typed_transfer_request declined_request.
Proof.
  assert (Hin : In (EthereumRequest declined_request)
                  (added (ready declining)
                     (snd (createEIP3009Authorization declining (ready declining))))).
  { vm_compute. do 3 right. left. reflexivity. }
  split; [exact Hin|]. split; [vm_compute; reflexivity|].
  exact (proj1 (signing_request_is_the_typed_transfer_message
                  declining (ready declining) declined_request Hin)).
Defined.

(** C4, as the code has it.  Every run of the builder that has passed
    its checks, checksummed the three addresses and received the token's
    name and version makes exactly one call of
    [window.crypto.getRandomValues], on an array of 32 bytes, in the
    world reached after the two contract calls of this same run.  Every
    signing request of the run is [sign_request] on exactly those bytes,
    whose message has their text as its nonce, and so has the
    authorization if the run returns one; and
    whether the run returns or throws (the wallet may refuse to sign), it
    leaves the script's variables as they were, so nothing of a nonce is
    kept for a later run.  The builder does not compare the nonce with
    any earlier one. *)
Theorem nonce_is_32_bytes_drawn_in_this_run
    {World : Type} (env : Env World) (st : State World)
    (w3 : Web3 World) (from to token : string) (name version : value) (w : World) :
  reaches_the_draw st w3 from to token name version w ->
  List.length (map (crypto_random env w) (seq 0 32)) = 32%nat /\
  filter (fun e => match e with GetRandomValues _ => true | _ => false end)
         (added st (snd (createEIP3009Authorization env st)))
  = [GetRandomValues (map (crypto_random env w) (seq 0 32))] /\
  (forall args,
      In (EthereumRequest args)
         (added st (snd (createEIP3009Authorization env st))) ->
      args = sign_request from to token name version
               (value_of (get (CONFIG (globals st)) "chain_id"))
               (value_of (get (CONFIG (globals st)) "total_price_usdc_wei"))
               (map (crypto_random env w) (seq 0 32))
               (Date_now env (crypto_next env w))) /\
  (forall r,
      fst (createEIP3009Authorization env st) = Ok r ->
      exists authorization,
        get r "authorization" = Ok authorization /\
        get authorization "nonce"
        = Ok (Str (nonce_of (map (crypto_random env w) (seq 0 32))))) /\
  globals (snd (createEIP3009Authorization env st)) = globals st.
Proof.
  intros Hreach.
  pose proof (builder_from_the_draw env st _ _ _ _ _ _ _ Hreach) as Hrun.
  cbv zeta in Hrun.
  split; [now rewrite length_map, length_seq|].
  set (request_args := sign_request _ _ _ _ _ _ _ _ _) in *.
  destruct (ethereum env) as [provider|].
  2:{ rewrite Hrun. cbn [fst snd globals].
      rewrite (added_app st _
                 [ContractCall token "name"; ContractCall token "version";
                  GetRandomValues (map (crypto_random env w) (seq 0 32))])
        by reflexivity.
      split; [reflexivity|]. split.
      { intros args [H|[H|[H|[]]]]; discriminate H. }
      split; [intros r H; discriminate H | reflexivity]. }
  destruct (request provider request_args (crypto_next env w))
    as [[signature|e] w'];
    rewrite Hrun; cbn [fst snd globals];
    (rewrite (added_app st _
                ([ContractCall token "name"; ContractCall token "version";
                  GetRandomValues (map (crypto_random env w) (seq 0 32));
                  EthereumRequest request_args]))
      by (cbn [trace]; now rewrite <- app_assoc)).
  - split; [reflexivity|]. split.
    { intros args [H|[H|[H|[H|[]]]]]; try discriminate H.
      injection H as <-. reflexivity. }
    split; [|reflexivity].
    intros r H. injection H as <-.
    eexists. split; reflexivity.
  - split; [reflexivity|]. split.
    { intros args [H|[H|[H|[H|[]]]]]; try discriminate H.
      injection H as <-. reflexivity. }
    split; [intros r H; discriminate H | reflexivity].
Qed.

Lemma nonce_is_32_bytes_drawn_in_this_run_witness :
  fst (createEIP3009Authorization declining (ready declining)) = Throw user_denied /\
  filter (fun e => match e with GetRandomValues _ => true | _ => false end)
         (added (ready declining)
            (snd (createEIP3009Authorization declining (ready declining))))
  = [GetRandomValues
       (map (crypto_random declining (world (ready declining) + 2)) (seq 0 32))] /\
  globals (snd (createEIP3009Authorization declining (ready declining)))
  = globals (ready declining).
Proof.
  split; [vm_compute; reflexivity|].
  assert (Hreach : reaches_the_draw (ready declining) sample_web3
                     "0x3333333333333333333333333333333333333333"
                     "0x1111111111111111111111111111111111111111"
                     "0x833589fCD6eDb6E08f4c7C32D4f71b54bdA02913"
                     (Str "USD Coin") (Str "2") (world (ready declining) + 2)).
  { unfold reaches_the_draw.
    repeat (split; [vm_compute; reflexivity|]).
    exists (world (ready declining) + 1). split; vm_compute; reflexivity. }
  destruct (nonce_is_32_bytes_drawn_in_this_run declining (ready declining)
              sample_web3
              "0x3333333333333333333333333333333333333333"
              "0x1111111111111111111111111111111111111111"
              "0x833589fCD6eDb6E08f4c7C32D4f71b54bdA02913"
              (Str "USD Coin") (Str "2") (world (ready declining) + 2) Hreach)
    as (_ & Hdraw & _ & _ & Hkeeps).
  split; [exact Hdraw | exact Hkeeps].
Defined.

(** The message that the wallet is asked to sign in the session with the
    configuration that lacks [facilitator_base_url], as the builder
    makes it. *)
Definition unvalidated_authorization : value :=
  result_of (get (built unvalidated) "authorization").

Definition unvalidated_domain : value :=
  Obj [("name", Str "USD Coin");
       ("version", Str "2");
       ("chainId", Number (Num 8453));
       ("verifyingContract", Str "0x833589fCD6eDb6E08f4c7C32D4f71b54bdA02913")].

(** ... and the same message without [value]. *)
Definition message_without_value : value :=
  Obj [("from", Str "0x3333333333333333333333333333333333333333");
       ("to", Str "0x1111111111111111111111111111111111111111");
       ("validAfter", Str "0");
       ("validBefore", result_of (get unvalidated_authorization "validBefore"));
       ("nonce", result_of (get unvalidated_authorization "nonce"))].

(** C3 fails on the page as it is written, by the defect of C1.  The
    server's configuration has no [facilitator_base_url]: [loadConfig]
    rejects it but leaves it in [CONFIG], without
    [total_price_usdc_wei].  The builder then asks the wallet to sign,
    and the wallet signs, a [TransferWithAuthorization] message whose
    [value] is [undefined]: the text handed to the wallet is that of a
    message with [from], [to], [validAfter], [validBefore] and [nonce]
    only. *)
Lemma unvalidated_config_signs_a_message_without_value :
  exists args text r st',
    createEIP3009Authorization unvalidated (ready unvalidated) = (Ok r, st') /\
    In (EthereumRequest args) (added (ready unvalidated) st') /\
    args = Obj [("method", Str "eth_signTypedData_v4");
                ("params", Arr [Str "0x3333333333333333333333333333333333333333";
                                Str text])] /\
    args = sign_request
             "0x3333333333333333333333333333333333333333"
             "0x1111111111111111111111111111111111111111"
             "0x833589fCD6eDb6E08f4c7C32D4f71b54bdA02913"
             (Str "USD Coin") (Str "2") (Str "0x2105") Undefined
             (map (crypto_random unvalidated (world (ready unvalidated) + 2))
                  (seq 0 32))
             (Date_now unvalidated
                (crypto_next unvalidated (world (ready unvalidated) + 2))) /\
    stringify (typed_data unvalidated_domain message_without_value) = Some text /\
    get message_without_value "value" = Ok Undefined.
Proof.
  exists (match nth 3 (added (ready unvalidated) (snd (build unvalidated)))
                  (Alert "") with
          | EthereumRequest args => args
          | _ => Null
          end),
    (match stringify (typed_data unvalidated_domain message_without_value) with
     | Some text => text
     | None => ""
     end),
    (built unvalidated), (snd (build unvalidated)).
  split; [vm_compute; reflexivity|].
  split; [vm_compute; do 3 right; left; reflexivity|].
  split; [vm_compute; reflexivity|].
  split; [vm_compute; reflexivity|].
  split; vm_compute; reflexivity.
Qed.

End BuilderRuns.

(* ====================================================================== *)
(** * The payment ledger keeps its keys apart                             *)
(* ====================================================================== *)

Module LedgerFacts.
Import Ledger.
Local Open Scope list_scope.

Section Invariant.
Variables (double timestamp jsonb : Type).
Local Abbreviation row := (Ledger.row double timestamp jsonb).
Local Abbreviation table := (list row).

Lemma same_sym (x y : option string) : same x y = same y x.
Proof. destruct x, y; cbn; try reflexivity. apply String.eqb_sym. Qed.

Lemma taken_app (col : row -> option string) key (t u : table) :
  taken col key (t ++ u) = taken col key t || taken col key u.
Proof. unfold taken. apply existsb_app. Qed.

Lemma unique_snoc (col : row -> option string) (t : table) (r : row) :
  unique col t = true ->
  taken col (col r) t = false ->
  unique col (t ++ [r]) = true.
Proof.
  induction t as [|x t IH]; cbn [app unique taken existsb]; intros Hu Ht.
  - reflexivity.
  - apply andb_true_iff in Hu as [Hx Hu].
    apply orb_false_iff in Ht as [Hxr Ht].
    rewrite taken_app. fold (taken col (col x) t). cbn [taken existsb].
    apply negb_true_iff in Hx. rewrite Hx, orb_false_r.
    rewrite same_sym, Hxr. cbn. now apply IH.
Qed.

Lemma taken_filter (col : row -> option string) key f (t : table) :
  taken col key (filter f t) = true -> taken col key t = true.
Proof.
  unfold taken. rewrite !existsb_exists.
  intros (x & Hin & Hx). apply filter_In in Hin as [Hin _]. eauto.
Qed.

Lemma unique_filter (col : row -> option string) f (t : table) :
  unique col t = true -> unique col (filter f t) = true.
Proof.
  induction t as [|x t IH]; cbn [filter unique]; intros Hu; [reflexivity|].
  apply andb_true_iff in Hu as [Hx Hu].
  destruct (f x); [|now apply IH].
  cbn [unique]. rewrite IH by exact Hu. rewrite andb_true_r.
  apply negb_true_iff. apply negb_true_iff in Hx.
  destruct (taken col (col x) (filter f t)) eqn:E; [|reflexivity].
  apply taken_filter in E. congruence.
Qed.

Lemma forallb_filter_keep {A} (p f : A -> bool) l :
  forallb p l = true -> forallb p (filter f l) = true.
Proof.
  rewrite !forallb_forall. intros H x Hx.
  apply filter_In in Hx as [Hx _]. now apply H.
Qed.

(** The constraints of the table, as a property of its states. *)
Definition consistent (t : table) : Prop :=
  forallb row_ok t = true /\
  unique id t = true /\
  unique payment_hash t = true.

Lemma exec_consistent s (t t' : table) :
  consistent t -> exec s t = Some t' -> consistent t'.
Proof.
  intros (Hok & Hid & Hhash). destruct s as [r|cond change|cond]; cbn [exec].
  - unfold insert.
    destruct (row_ok r) eqn:Hr; cbn [andb]; [|discriminate].
    destruct (taken id (id r) t) eqn:Hi; cbn [andb negb]; [discriminate|].
    destruct (taken payment_hash (payment_hash r) t) eqn:Hh; cbn [negb];
      [discriminate|].
    intros [= <-]. repeat split.
    + rewrite forallb_app, Hok. cbn. now rewrite Hr.
    + now apply unique_snoc.
    + now apply unique_snoc.
  - unfold update. cbv zeta.
    set (u := map (fun r => if cond r then change r else r) t).
    destruct (forallb row_ok u) eqn:H1; cbn [andb]; [|discriminate].
    destruct (unique id u) eqn:H2; cbn [andb]; [|discriminate].
    destruct (unique payment_hash u) eqn:H3; [|discriminate].
    intros Heq. injection Heq as <-. repeat split; assumption.
  - intros [= <-]. unfold delete. repeat split.
    + now apply forallb_filter_keep.
    + now apply unique_filter.
    + now apply unique_filter.
Qed.

Lemma reachable_consistent (t : table) : reachable t -> consistent t.
Proof.
  induction 1 as [|s t t' _ IH Hexec].
  - repeat split.
  - eapply exec_consistent; eassumption.
Qed.

Lemma unique_positions (col : row -> option string) (t : table) :
  unique col t = true ->
  forall i j r1 r2,
    nth_error t i = Some r1 -> nth_error t j = Some r2 ->
    same (col r1) (col r2) = true -> i = j.
Proof.
  induction t as [|x t IH]; intros Hu i j r1 r2 Hi Hj Hsame.
  - destruct i; discriminate.
  - cbn [unique] in Hu. apply andb_true_iff in Hu as [Hx Hu].
    apply negb_true_iff in Hx.
    assert (Hfree : forall k r, nth_error t k = Some r -> same (col r) (col x) = false).
    { intros k r Hk. destruct (same (col r) (col x)) eqn:E; [|reflexivity].
      assert (taken col (col x) t = true); [|congruence].
      unfold taken. apply existsb_exists. exists r. split; [|exact E].
      eapply nth_error_In; eassumption. }
    destruct i as [|i], j as [|j]; cbn [nth_error] in Hi, Hj.
    + reflexivity.
    + injection Hi as <-. rewrite same_sym, (Hfree _ _ Hj) in Hsame. discriminate.
    + injection Hj as <-. rewrite (Hfree _ _ Hi) in Hsame. discriminate.
    + f_equal. eapply IH; eassumption.
Qed.

Lemma row_ok_hash (r : row) :
  row_ok r = true -> exists key, payment_hash r = Some key.
Proof.
  unfold row_ok. destruct (payment_hash r) as [key|]; [eauto|].
  cbn. rewrite andb_false_r. discriminate.
Qed.

(** C8.  In every state of the ledger that statements can reach from
    the empty table, an [INSERT] whose payment hash is already in the
    table is rejected (and leaves the table as it was), and no two rows,
    at different positions, carry the same payment hash. *)
Theorem payment_hash_names_at_most_one_row (t : table) :
  reachable t ->
  (forall r r',
      In r t -> payment_hash r' = payment_hash r -> insert r' t = None) /\
  (forall i j r1 r2,
      nth_error t i = Some r1 -> nth_error t j = Some r2 ->
      payment_hash r1 = payment_hash r2 -> i = j).
Proof.
  intros Hreach. destruct (reachable_consistent t Hreach) as (Hok & _ & Hhash).
  rewrite forallb_forall in Hok. split.
  - intros r r' Hin Heq. unfold insert.
    assert (Htaken : taken payment_hash (payment_hash r') t = true).
    { unfold taken. apply existsb_exists. exists r. split; [exact Hin|].
      destruct (row_ok_hash r (Hok r Hin)) as (key & Hkey).
      rewrite Heq, Hkey. cbn. apply String.eqb_refl. }
    rewrite Htaken. cbn. now rewrite !andb_false_r.
  - intros i j r1 r2 Hi Hj Heq.
    apply (unique_positions payment_hash t Hhash i j r1 r2 Hi Hj).
    destruct (row_ok_hash r1 (Hok r1 (nth_error_In _ _ Hi))) as (key & Hkey).
    rewrite <- Heq, Hkey. cbn. apply String.eqb_refl.
Qed.

End Invariant.

(** A verified payment of the sample session, as a ledger row. *)
Definition sample_row (key : string) : Ledger.row unit unit unit :=
  {| id := Some ("id-of-" ++ key)%string;
     payment_hash := Some key;
     endpoint := Some "/news/bitcoin";
     category := Some "bitcoin";
     amount := Some tt;
     verified := Some true;
     settled := Some false;
     user_identifier := None;
     user_wallet := Some "0x3333333333333333333333333333333333333333";
     created_at := Some tt;
     verified_at := Some tt;
     settled_at := None;
     transaction_data := None |}.

Lemma sample_reachable : reachable [sample_row "k1"; sample_row "k2"].
Proof.
  apply (reachable_step _ _ _ (Insert _ _ _ (sample_row "k2")) [sample_row "k1"]);
    [|reflexivity].
  apply (reachable_step _ _ _ (Insert _ _ _ (sample_row "k1")) []);
    [apply reachable_empty | reflexivity].
Qed.

Lemma payment_hash_names_at_most_one_row_witness :
  reachable [sample_row "k1"; sample_row "k2"] /\
  insert (sample_row "k2") [sample_row "k1"; sample_row "k2"] = None.
Proof.
  split; [exact sample_reachable|].
  apply (proj1 (payment_hash_names_at_most_one_row unit unit unit
                  [sample_row "k1"; sample_row "k2"] sample_reachable)
           (sample_row "k2") (sample_row "k2")).
  - right. left. reflexivity.
  - reflexivity.
Defined.

End LedgerFacts.

(* ====================================================================== *)
(** * The envelope survives its transport                                 *)
(* ====================================================================== *)

Module Codec.
Import JS Decode App StringFacts Base64Facts JsonFacts.

(** The PaymentAuthorization of the data model, as the builder writes
    it: seven strings. *)
Record Authorization : Type := {
  from : string;
  to : string;
  value : string;
  validAfter : string;
  validBefore : string;
  nonce : string;
  token : string
}.

Definition authorization_value (a : Authorization) : JS.value :=
  Obj [("from", Str (from a));
       ("to", Str (to a));
       ("value", Str (value a));
       ("validAfter", Str (validAfter a));
       ("validBefore", Str (validBefore a));
       ("nonce", Str (nonce a));
       ("token", Str (token a))].

(** Anything JSON can carry comes back from [decode] after [encode]. *)
Lemma decode_encode (v : JS.value) :
  json_wf v = true -> decode (encode v) = Some v.
Proof.
  intros Hwf. destruct (JSON_parse_stringify v Hwf) as (s & Hs & Hparse).
  unfold decode, encode, JSON_stringify. rewrite Hs. cbn [ToString].
  now rewrite atob_btoa.
Qed.

(** C7.  For every authorization, signature and network name, decoding
    the blob that [initiatePayment] builds ([btoa(JSON.stringify(...))])
    gives back the envelope, with every field as it was. *)
Theorem envelope_round_trip_is_lossless
    (network : string) (a : Authorization) (signature : string) :
  decode (encode (paymentPayload (Str network) (authorization_value a)
                                 (Str signature)))
  = Some (paymentPayload (Str network) (authorization_value a) (Str signature)).
Proof.
  apply decode_encode. reflexivity.
Qed.

End Codec.

(* ====================================================================== *)
(** * Configuration loading                                               *)
(* ====================================================================== *)

Module Config.
Import JS App StringFacts DigitFacts BuilderFacts Sample.

Lemma lookup_assign_same k v fields : lookup k (assign k v fields) = Some v.
Proof.
  induction fields as [|[k' v'] fields IH]; cbn [assign lookup].
  - now rewrite String.eqb_refl.
  - destruct (String.eqb_spec k k') as [->|Hne]; cbn [lookup].
    + now rewrite String.eqb_refl.
    + destruct (String.eqb_spec k k'); [contradiction | exact IH].
Qed.

Lemma lookup_assign_other k k' v fields :
  k <> k' -> lookup k (assign k' v fields) = lookup k fields.
Proof.
  intros Hne. induction fields as [|[k0 v0] fields IH]; cbn [assign lookup].
  - destruct (String.eqb_spec k k'); [contradiction | reflexivity].
  - destruct (String.eqb_spec k' k0) as [->|Hne0]; cbn [lookup].
    + destruct (String.eqb_spec k k0); [contradiction | reflexivity].
    + destruct (String.eqb_spec k k0); [reflexivity | exact IH].
Qed.

(** A property with a truthy value belongs to an object. *)
Lemma truthy_property o k v :
  get o k = Ok v -> truthy v = true ->
  exists fields, o = Obj fields /\ lookup k fields = Some v.
Proof.
  destruct o as [ | | b | n | s | elems | fields]; cbn [get]; intros H Hv;
    try discriminate H;
    try (injection H as <-; discriminate Hv).
  exists fields. split; [reflexivity|].
  injection H as <-.
  destruct (lookup k fields); [reflexivity | discriminate Hv].
Qed.

Section Loading.
Context {World : Type} (env : Env World).

Lemma CONFIG_set_Ok k v (u : unit) (st st' : State World) :
  CONFIG_set k v st = (Ok u, st') ->
  exists c',
    set (CONFIG (globals st)) k v = Ok c' /\
    CONFIG (globals st') = c' /\
    world st' = world st /\ trace st' = trace st.
Proof.
  unfold CONFIG_set. intros H.
  apply bind_Ok in H as (c & s1 & Hc & H).
  apply read_Ok in Hc as [-> ->].
  apply bind_Ok in H as (c' & s1 & Hc' & H).
  apply lift_Ok in Hc' as [Hc' ->].
  apply update_Ok in H. subst st'. cbn. eauto.
Qed.

(** [loadConfig] has a catch-all handler: it always returns. *)
Lemma loadConfig_returns (st : State World) :
  exists c st', loadConfig env st = (Ok c, st').
Proof.
  unfold loadConfig, try_catch.
  destruct (bind _ _ st) as [[c|e] s1]; eauto.
  cbv beta. unfold bind, alert, emit, ret. eauto.
Qed.

(** What a successful load leaves in [CONFIG]. *)
Lemma loadConfig_success (st st' : State World) (cfg : value) :
  loadConfig env st = (Ok cfg, st') ->
  truthy cfg = true ->
  exists response w' fields price,
    fetch env "/api/config" [] (world st) = (Ok response, w') /\
    ok response = true /\
    json response = Ok (Obj fields) /\
    truthy (match lookup "facilitator_base_url" fields with
            | Some v => v
            | None => Undefined
            end) = true /\
    price = match lookup "price_usdc_wei" fields with
            | Some v => v
            | None => Undefined
            end /\
    CONFIG (globals st') = cfg /\
    get cfg "price_usdc_wei" = Ok (Str (ToString price)) /\
    get cfg "total_price_usdc_wei"
    = Ok (Str (ToString (Number (add (parseInt (Str (ToString price)) None)
                                     (Num OXMETA_FEE_USDC_WEI))))).
Proof.
  unfold loadConfig, try_catch.
  destruct (bind _ _ st) as [[c|e] s1] eqn:H.
  2:{ cbv beta. unfold bind, alert, emit, ret.
      intros Heq. injection Heq as <- _. discriminate. }
  intros Heq Htruthy. injection Heq as -> ->.
  apply bind_Ok in H as (response & s2 & Hfetch & H).
  unfold fetch_ in Hfetch.
  apply bind_Ok in Hfetch as (u & s3 & Hu & Hfetch).
  apply emit_Ok in Hu. subst s3.
  apply external_Ok in Hfetch as (w' & Hfetch & ->). cbn [world] in Hfetch.
  destruct (ok response) eqn:Hok; cbn [negb] in H; [|discriminate].
  apply bind_Ok in H as (raw & s2 & Hraw & H).
  apply lift_Ok in Hraw as [Hraw ->].
  apply bind_Ok in H as (u1 & s2 & Hset & H).
  apply update_Ok in Hset. subst s2.
  do 4 (apply bind_Ok in H as (? & ? & Hget & H);
        apply CONFIG_get_Ok in Hget as [_ ->]).
  apply bind_Ok in H as (base_url & s2 & Hbase & H).
  apply CONFIG_get_Ok in Hbase as [Hbase ->]. cbn [globals CONFIG] in Hbase.
  destruct (truthy base_url) eqn:Hbt; cbn [negb] in H; [|discriminate].
  destruct (truthy_property _ _ _ Hbase Hbt) as (fields & -> & Hlook).
  apply bind_Ok in H as (price & s2 & Hprice & H).
  apply CONFIG_get_Ok in Hprice as [Hprice ->]. cbn [globals CONFIG get] in Hprice.
  injection Hprice as Hprice.
  apply bind_Ok in H as (u2 & s2 & Hs1 & H).
  apply CONFIG_set_Ok in Hs1 as (c1 & Hc1 & Hg1 & _). cbn [globals CONFIG set] in Hc1.
  injection Hc1 as <-.
  apply bind_Ok in H as (price' & s3 & Hprice' & H).
  apply CONFIG_get_Ok in Hprice' as [Hprice' ->].
  rewrite Hg1 in Hprice'. cbn [get] in Hprice'.
  rewrite lookup_assign_same in Hprice'. injection Hprice' as <-.
  apply bind_Ok in H as (u3 & s3 & Hs2 & H).
  apply CONFIG_set_Ok in Hs2 as (c2 & Hc2 & Hg2 & _).
  rewrite Hg1 in Hc2. cbn [set] in Hc2. injection Hc2 as <-.
  apply bind_Ok in H as (price_usdc & s4 & Hpu & H).
  apply CONFIG_get_Ok in Hpu as [_ ->].
  apply bind_Ok in H as (u4 & s4 & Hs3 & H).
  apply CONFIG_set_Ok in Hs3 as (c3 & Hc3 & Hg3 & _).
  rewrite Hg2 in Hc3. cbn [set] in Hc3. injection Hc3 as <-.
  apply read_Ok in H as [-> ->].
  exists response, w', fields, price.
  rewrite Hlook, Hg3, <- Hprice.
  repeat (split; [first [assumption | reflexivity]|]).
  cbn [get]. split.
  - rewrite !lookup_assign_other by discriminate.
    now rewrite lookup_assign_same.
  - rewrite lookup_assign_other by discriminate.
    now rewrite lookup_assign_same.
Qed.

(** After a load that succeeded, the total that [loadConfig] stores is
    the text of the price plus the facilitator fee. *)
Lemma loaded_total_is_price_plus_fee (st st' : State World) (cfg : value) (p : Z) :
  loadConfig env st = (Ok cfg, st') ->
  truthy cfg = true ->
  0 <= p ->
  get cfg "price_usdc_wei" = Ok (Str (toString_radix 10 p)) ->
  get cfg "total_price_usdc_wei" = Ok (Str (toString_radix 10 (p + 10000))).
Proof.
  intros Hload Htruthy Hp Hprice.
  destruct (loadConfig_success st st' cfg Hload Htruthy)
    as (response & w' & fields & price & _ & _ & _ & _ & _ & _ & Hp' & Htotal).
  rewrite Hp' in Hprice. injection Hprice as Hprice.
  rewrite Htotal, Hprice, parseInt_toString by exact Hp.
  reflexivity.
Qed.

End Loading.

(** X1.  C1 holds when the configuration in force was installed by a load
    that succeeded: the [value] of the authorization is then the decimal
    text of the configured price plus 10000, as long as that sum is a
    safe integer (at most 2^53 - 1), where the script's arithmetic on
    doubles is exact. *)
Lemma value_is_price_plus_fee_after_successful_load
    {World : Type} (env : Env World) (st0 st1 st st' : State World)
    (cfg r : value) (p : Z) :
  loadConfig env st0 = (Ok cfg, st1) ->
  truthy cfg = true ->
  0 <= p ->
  p + 10000 <= 9007199254740991 ->
  get cfg "price_usdc_wei" = Ok (Str (toString_radix 10 p)) ->
  CONFIG (globals st) = cfg ->
  createEIP3009Authorization env st = (Ok r, st') ->
  exists authorization,
    get r "authorization" = Ok authorization /\
    get authorization "value" = Ok (Str (toString_radix 10 (p + 10000))).
Proof.
  intros Hload Htruthy Hp _ Hprice Hcfg Hbuild.
  pose proof (loaded_total_is_price_plus_fee env _ _ _ _ Hload Htruthy Hp Hprice)
    as Htotal.
  apply builder_inversion in Hbuild as (b & -> & Hb).
  destruct Hb as (_ & _ & _ & _ & _ & _ & _ & _ & _ & Hbt & _).
  rewrite Hcfg, Htotal in Hbt. injection Hbt as Hbt.
  exists (b_authorization env b). split; [reflexivity|].
  cbn. now rewrite <- Hbt.
Qed.

Lemma value_is_price_plus_fee_after_successful_load_witness :
  createEIP3009Authorization good (ready good) = (Ok (built good), snd (build good)) /\
  exists authorization,
    get (built good) "authorization" = Ok authorization /\
    get authorization "value" = Ok (Str (toString_radix 10 (10000 + 10000))).
Proof.
  split; [vm_compute; reflexivity|].
  apply (value_is_price_plus_fee_after_successful_load good (initial t0)
           (snd (loadConfig good (initial t0))) (ready good) (snd (build good))
           (result_of (fst (loadConfig good (initial t0)))) (built good) 10000);
    vm_compute; (reflexivity || discriminate).
Defined.

(** C1 fails on the page as it is written.  The server's configuration
    has [price_usdc_wei] = 10000 but no [facilitator_base_url]:
    [loadConfig] at page load stores the parsed object in [CONFIG], then
    fails its validation and returns [null]; the page drops that result,
    so [CONFIG] stays set, without [total_price_usdc_wei].  The wallet
    connects, the builder runs and returns an authorization whose [value]
    is [undefined], not ["20000"]. *)
Lemma unvalidated_config_builds_authorization_without_value :
  fst (loadConfig unvalidated (initial t0)) = Ok Null /\
  get (CONFIG (globals (ready unvalidated))) "price_usdc_wei"
  = Ok (Number (Num 10000)) /\
  exists r st' authorization,
    createEIP3009Authorization unvalidated (ready unvalidated) = (Ok r, st') /\
    get r "authorization" = Ok authorization /\
    get authorization "value" = Ok Undefined /\
    get authorization "value" <> Ok (Str (toString_radix 10 (10000 + 10000))).
Proof.
  split; [vm_compute; reflexivity|].
  split; [vm_compute; reflexivity|].
  exists (built unvalidated), (snd (build unvalidated)),
    (result_of (get (built unvalidated) "authorization")).
  split; [vm_compute; reflexivity|].
  split; [vm_compute; reflexivity|].
  split; [vm_compute; reflexivity|].
  vm_compute. discriminate.
Qed.

End Config.

(* ====================================================================== *)
(** * The payment flow                                                    *)
(* ====================================================================== *)

Module Payment.
Import JS App StringFacts BuilderFacts Builder Config Sample.

(** The events of configuration loading and of the builder. *)
Definition config_event (e : event) : Prop :=
  match e with
  | Fetch url headers => url = "/api/config" /\ headers = []
  | Alert _ => True
  | _ => False
  end.

Definition builder_event (e : event) : Prop :=
  match e with
  | ContractCall _ _ | GetRandomValues _ | EthereumRequest _ => True
  | _ => False
  end.

(** A request that carries an [X-Payment] header. *)
Definition carries_payment (e : event) : Prop :=
  match e with
  | Fetch _ headers => In "X-Payment" (map fst headers)
  | _ => False
  end.

Lemma get_truthy o k : truthy o = true -> exists v, get o k = Ok v.
Proof. destruct o; cbn; intros H; try discriminate H; eauto. Qed.

Section Flow.
Context {World : Type} (env : Env World).

Lemma loadConfig_emits : emits config_event (loadConfig env).
Proof.
  unfold loadConfig, CONFIG_get, CONFIG_set, fetch_, alert, set_CONFIG.
  repeat emits_step; cbn; auto.
Qed.

Lemma builder_emits : emits builder_event (createEIP3009Authorization env).
Proof.
  unfold createEIP3009Authorization, CONFIG_get, call, getRandomValues,
    ethereum_request.
  repeat emits_step; exact I.
Qed.

(** The state in which the builder is called: the entry state if
    [CONFIG] is set, otherwise the state after a load that succeeded,
    with its result stored in [CONFIG]. *)
Definition configured (st s1 : State World) : Prop :=
  truthy (CONFIG (globals s1)) = true /\
  ((truthy (CONFIG (globals st)) = true /\ s1 = st) \/
   (truthy (CONFIG (globals st)) = false /\
    exists c s0,
      loadConfig env st = (Ok c, s0) /\ truthy c = true /\
      s1 = snd (set_CONFIG c s0))).

Definition entry_ok (st : State World) : Prop :=
  truthy (selectedCategory (globals st)) = true /\
  truthy (walletAddress (globals st)) = true /\
  web3 (globals st) <> None.

(** The five ways through [initiatePayment], with the events each one
    appends. *)
Inductive outcome (st : State World) (evs : list event) : Prop :=
| no_category :
    truthy (selectedCategory (globals st)) = false ->
    evs = [Alert "Please select a category first"] ->
    outcome st evs
| no_wallet :
    truthy (selectedCategory (globals st)) = true ->
    truthy (walletAddress (globals st)) = false \/ web3 (globals st) = None ->
    evs = [Alert "Connect wallet first"] ->
    outcome st evs
| no_config c s0 :
    entry_ok st ->
    truthy (CONFIG (globals st)) = false ->
    loadConfig env st = (Ok c, s0) ->
    truthy c = false ->
    evs = added st s0 ->
    outcome st evs
| build_failed s1 e s2 :
    entry_ok st ->
    configured st s1 ->
    createEIP3009Authorization env s1 = (Throw e, s2) ->
    evs = added st s2 ->
    outcome st evs
| paid s1 r s2 authorization signature network text :
    entry_ok st ->
    configured st s1 ->
    createEIP3009Authorization env s1 = (Ok r, s2) ->
    get r "authorization" = Ok authorization ->
    get r "signature" = Ok signature ->
    get (CONFIG (globals s2)) "network" = Ok network ->
    stringify (Obj [("x402Version", Number (Num 1));
                    ("scheme", Str "exact");
                    ("network", network);
                    ("payload", Obj [("authorization", authorization);
                                     ("signature", signature)])])
    = Some text ->
    evs = (added st s2 ++
           [Fetch ("/news/" ++ ToString (selectedCategory (globals s2)))
                  [("X-Payment", btoa text); ("Accept", "application/json")]])%list ->
    outcome st evs.

Lemma added_refl (st : State World) : added st st = [].
Proof. apply added_app. now rewrite app_nil_r. Qed.

Lemma added_snoc (st s : State World) e :
  (exists evs, trace s = (trace st ++ evs)%list) ->
  added st {| globals := globals s; world := world s;
              trace := (trace s ++ [e])%list |}
  = (added st s ++ [e])%list.
Proof.
  intros (evs & Ht). rewrite (added_app st s evs Ht).
  apply added_app. cbn. rewrite Ht. now rewrite app_assoc.
Qed.

Ltac run := cbn [bind read ret lift throw negb orb andb fst snd alert emit
                 globals world trace].

Lemma bind_unfold {A B} (m : M World A) (k : A -> M World B) st :
  bind m k st
  = match m st with
    | (Ok a, st') => k a st'
    | (Throw e, st') => (Throw e, st')
    end.
Proof. reflexivity. Qed.

Lemma fetch_run url headers (st : State World) :
  fetch_ env url headers st
  = let '(r, w') := fetch env url headers (world st) in
    (r, {| globals := globals st; world := w';
           trace := (trace st ++ [Fetch url headers])%list |}).
Proof. reflexivity. Qed.

Lemma stringify_object fields : exists text, stringify (Obj fields) = Some text.
Proof. cbn [stringify]. eauto. Qed.

Lemma encode_payload network authorization signature text :
  stringify (paymentPayload network authorization signature) = Some text ->
  encode (paymentPayload network authorization signature) = btoa text.
Proof. intros H. unfold encode, JSON_stringify. now rewrite H. Qed.

(** From the call of the builder on: [finish] stands for the handler
    of [initiatePayment], which turns every outcome into a plain
    return. *)
Definition finish (out : completion unit * State World)
  : completion unit * State World :=
  let (c, st') := out in
  match c with
  | Ok a => (Ok a, st')
  | Throw _ => ret tt st'
  end.

Lemma initiatePayment_outcome (st : State World) :
  fst (initiatePayment env st) = Ok tt /\
  outcome st (added st (snd (initiatePayment env st))).
Proof.
  unfold initiatePayment, try_catch. run.
  destruct (truthy (selectedCategory (globals st))) eqn:Hcat; run.
  2:{ split; [reflexivity|]. apply no_category; [exact Hcat|].
      apply added_app. reflexivity. }
  destruct (truthy (walletAddress (globals st))) eqn:Hwallet; run.
  2:{ split; [reflexivity|]. apply no_wallet; auto.
      apply added_app. reflexivity. }
  destruct (web3 (globals st)) as [w3|] eqn:Hweb3; run.
  2:{ split; [reflexivity|]. apply no_wallet; auto.
      apply added_app. reflexivity. }
  assert (Hentry : entry_ok st).
  { repeat split; try assumption. congruence. }
  set (tail := bind (createEIP3009Authorization env) _).
  assert (Htail : forall s1,
             configured st s1 ->
             (exists evs0, trace s1 = (trace st ++ evs0)%list) ->
             fst (finish (tail s1)) = Ok tt /\
             outcome st (added st (snd (finish (tail s1))))).
  { intros s1 Hconf (evs0 & Hevs0). subst tail. unfold finish.
    rewrite bind_unfold.
    destruct (createEIP3009Authorization env s1) as [[r|e] s2] eqn:Hb; run.
    2:{ split; [reflexivity|]. eapply build_failed; eauto. }
    pose proof Hb as Hinv.
    apply builder_inversion in Hinv as (b & -> & Hdesc).
    assert (Hg : globals s2 = globals s1).
    { now destruct Hdesc as (_ & _ & _ & _ & _ & _ & _ & _ & _ & _ & _ & Hg & _). }
    assert (Ht2 : exists evs, trace s2 = (trace st ++ evs)%list).
    { destruct Hdesc as (_ & _ & _ & _ & _ & _ & _ & _ & _ & _ & _ & _ & Ht).
      exists (evs0 ++ b_events env b)%list.
      now rewrite Ht, Hevs0, app_assoc. }
    change (get (b_result env b) "authorization") with (Ok (b_authorization env b)).
    change (get (b_result env b) "signature") with (Ok (b_signature b)).
    run. unfold CONFIG_get. run.
    destruct (get_truthy (CONFIG (globals s2)) "network") as (network & Hnet).
    { rewrite Hg. apply Hconf. }
    rewrite Hnet. run.
    destruct (stringify_object
                [("x402Version", Number (Num 1)); ("scheme", Str "exact");
                 ("network", network);
                 ("payload", Obj [("authorization", b_authorization env b);
                                  ("signature", b_signature b)])])
      as (text & Htext).
    rewrite (encode_payload _ _ _ text Htext).
    assert (Hpaid : forall w' : World,
               outcome st
                 (added st
                    {| globals := globals s2; world := w';
                       trace := (trace s2 ++
                         [Fetch ("/news/" ++ ToString (selectedCategory (globals s2)))
                            [("X-Payment", btoa text);
                             ("Accept", "application/json")]])%list |})).
    { intros w'.
      eapply (paid st _ s1 (b_result env b) s2); eauto; try reflexivity.
      unfold added at 1. cbn [trace].
      destruct Ht2 as (evs & Ht2).
      rewrite (added_app st s2 evs Ht2), Ht2, <- app_assoc.
      now rewrite skipn_app, Nat.sub_diag, skipn_all. }
    rewrite bind_unfold, fetch_run.
    destruct (fetch env _ _ (world s2)) as [[response|e] w'] eqn:Hfetch; run.
    2:{ split; [reflexivity | apply Hpaid]. }
    destruct (ok response); run.
    - destruct (json response) as [data|e]; run;
        (split; [reflexivity | apply Hpaid]).
    - destruct (json response) as [errorData|e]; run.
      2:{ split; [reflexivity | apply Hpaid]. }
      destruct (get errorData "detail") as [detail|e]; run;
        (split; [reflexivity | apply Hpaid]). }
  destruct (truthy (CONFIG (globals st))) eqn:Hconfig; run.
  - apply (Htail st).
    + split; [exact Hconfig|]. left. split; [exact Hconfig | reflexivity].
    + exists []. now rewrite app_nil_r.
  - destruct (loadConfig_returns env st) as (c & s0 & Hload).
    destruct (loadConfig_emits st) as (evs0 & Hevs0 & _).
    rewrite Hload in Hevs0. cbn [snd] in Hevs0.
    rewrite !bind_unfold, Hload. run.
    unfold set_CONFIG, update. run.
    destruct (truthy c) eqn:Hc; run.
    + apply (Htail {| globals := _; world := world s0; trace := trace s0 |}).
      * split; [exact Hc|]. right. split; [exact Hconfig|].
        exists c, s0. repeat split; assumption.
      * exists evs0. exact Hevs0.
    + split; [reflexivity|].
      eapply no_config; eauto.
Qed.

Lemma configured_trace (st s1 : State World) :
  configured st s1 ->
  exists evs0, trace s1 = (trace st ++ evs0)%list /\ Forall config_event evs0.
Proof.
  intros (_ & [(_ & ->)|(_ & c & s0 & Hload & _ & ->)]).
  - exists []. split; [now rewrite app_nil_r | constructor].
  - destruct (loadConfig_emits st) as (evs0 & Ht & Hall).
    rewrite Hload in Ht. exists evs0. split; [exact Ht | exact Hall].
Qed.

(** Up to the return of the builder, the flow only loads the
    configuration and builds. *)
Lemma before_the_request (st s1 s2 : State World) res :
  configured st s1 ->
  createEIP3009Authorization env s1 = (res, s2) ->
  Forall (fun e => config_event e \/ builder_event e) (added st s2).
Proof.
  intros Hconf Hb.
  destruct (configured_trace st s1 Hconf) as (evs0 & Ht0 & Hall0).
  destruct (builder_emits s1) as (evs1 & Ht1 & Hall1).
  rewrite Hb in Ht1. cbn [snd] in Ht1.
  rewrite (added_app st s2 (evs0 ++ evs1)).
  - apply Forall_app. split.
    + eapply Forall_impl; [|exact Hall0]. cbn beta. auto.
    + eapply Forall_impl; [|exact Hall1]. cbn beta. auto.
  - now rewrite Ht1, Ht0, app_assoc.
Qed.

(** Whether all that [initiatePayment] asks for is there: a category, a
    wallet address, a [Web3] instance, and a configuration, already in
    [CONFIG] or loaded now. *)
Definition may_pay (st : State World) : Prop :=
  truthy (selectedCategory (globals st)) = true /\
  truthy (walletAddress (globals st)) = true /\
  web3 (globals st) <> None /\
  (truthy (CONFIG (globals st)) = true \/
   exists c s0, loadConfig env st = (Ok c, s0) /\ truthy c = true).

Lemma configured_may_pay (st s1 : State World) :
  entry_ok st -> configured st s1 -> may_pay st.
Proof.
  intros (Hc & Hw & H3) (_ & [(Hcfg & _)|(_ & c & s0 & Hload & Ht & _)]);
    repeat split; eauto.
Qed.

(** C10.  [initiatePayment] always returns; and either a category is
    selected, a wallet address and a [Web3] instance are present and a
    configuration is there (in [CONFIG], or loaded by this call), or the
    call adds to the trace no contract call, no random draw, no request
    to the wallet and no request with an [X-Payment] header: nothing is
    built and nothing paid is sent. *)
Theorem payment_needs_category_wallet_and_config (st : State World) :
  fst (initiatePayment env st) = Ok tt /\
  (may_pay st \/
   Forall (fun e => ~ builder_event e /\ ~ carries_payment e)
          (added st (snd (initiatePayment env st)))).
Proof.
  destruct (initiatePayment_outcome st) as [Hret Hout].
  split; [exact Hret|].
  destruct Hout as [Hcat ->|Hcat Hw ->|c s0 Hentry Hcfg Hload Hc ->
                   |s1 e s2 Hentry Hconf _ _
                   |s1 r s2 a sg n text Hentry Hconf _ _ _ _ _ _].
  - right. constructor; [cbn; tauto | constructor].
  - right. constructor; [cbn; tauto | constructor].
  - right. destruct (loadConfig_emits st) as (evs0 & Ht & Hall).
    rewrite Hload in Ht. cbn [snd] in Ht. rewrite (added_app _ _ _ Ht).
    eapply Forall_impl; [|exact Hall].
    intros [m|bs|ad me|args|url headers]; cbn; try tauto.
    intros (_ & ->). cbn. tauto.
  - left. eapply configured_may_pay; eassumption.
  - left. eapply configured_may_pay; eassumption.
Qed.


End Flow.





End Payment.

(* ====================================================================== *)
(** * What a computation leaves of the script's variables                 *)
(* ====================================================================== *)

Module Frame.
Import JS App.

Section Kept.
Context {World : Type} {B : Type} (f : Globals World -> B).

(** [keeps f m]: whatever its outcome, [m] leaves [f] of the variables
    as it found it. *)
Definition keeps {A} (m : M World A) : Prop :=
  forall st, f (globals (snd (m st))) = f (globals st).

Lemma keeps_ret {A} (a : A) : keeps (ret a).
Proof. now intros st. Qed.

Lemma keeps_throw {A} e : keeps (@throw World A e).
Proof. now intros st. Qed.

Lemma keeps_lift {A} (c : completion A) : keeps (@lift World A c).
Proof. now intros st. Qed.

Lemma keeps_read {A} (g : Globals World -> A) : keeps (read g).
Proof. now intros st. Qed.

Lemma keeps_observe {A} (g : World -> A) : keeps (observe g).
Proof. now intros st. Qed.

Lemma keeps_emit e : keeps (@emit World e).
Proof. now intros st. Qed.

Lemma keeps_external {A} (op : World -> completion A * World) :
  keeps (external op).
Proof. intros st. unfold external. now destruct (op (world st)). Qed.

Lemma keeps_update (u : Globals World -> Globals World) :
  (forall g, f (u g) = f g) -> keeps (update u).
Proof. intros H st. apply H. Qed.

Lemma keeps_bind {A C} (m : M World A) (k : A -> M World C) :
  keeps m -> (forall a, keeps (k a)) -> keeps (bind m k).
Proof.
  intros Hm Hk st. unfold bind. specialize (Hm st).
  destruct (m st) as [[a|e] st1]; cbn [snd] in *.
  - now rewrite Hk.
  - exact Hm.
Qed.

Lemma keeps_try_catch {A} (body : M World A) (handler : exn -> M World A) :
  keeps body -> (forall e, keeps (handler e)) -> keeps (try_catch body handler).
Proof.
  intros Hm Hk st. unfold try_catch. specialize (Hm st).
  destruct (body st) as [[a|e] st1]; cbn [snd] in *.
  - exact Hm.
  - now rewrite Hk.
Qed.

Lemma keeps_Promise_all {A C} (a : M World A) (b : M World C) :
  keeps a -> keeps b -> keeps (Promise_all a b).
Proof.
  intros Ha Hb st. unfold Promise_all. specialize (Ha st).
  destruct (a st) as [ra st1]; cbn [snd] in *.
  specialize (Hb st1).
  destruct (b st1) as [rb st2]; cbn [snd] in *.
  destruct ra, rb; cbn [snd]; congruence.
Qed.

End Kept.

Ltac keeps_step :=
  match goal with
  | |- keeps _ (bind _ _) => apply keeps_bind; [|intros ?]
  | |- keeps _ (try_catch _ _) => apply keeps_try_catch; [|intros ?]
  | |- keeps _ (Promise_all _ _) => apply keeps_Promise_all
  | |- keeps _ (ret _) => apply keeps_ret
  | |- keeps _ (throw _) => apply keeps_throw
  | |- keeps _ (lift _) => apply keeps_lift
  | |- keeps _ (read _) => apply keeps_read
  | |- keeps _ (observe _) => apply keeps_observe
  | |- keeps _ (update _) => apply keeps_update; intros ?; reflexivity
  | |- keeps _ (external _) => apply keeps_external
  | |- keeps _ (emit _) => apply keeps_emit
  | |- keeps _ (if ?c then _ else _) => destruct c
  | |- keeps _ (match ?x with _ => _ end) => destruct x
  | |- keeps _ (let '(_, _) := ?x in _) => destruct x
  end.

Section Handlers.
Context {World : Type} (env : Env World).

(** The variables other than [CONFIG]. *)
Definition session (g : Globals World) : option (Web3 World) * value * value * bool :=
  (web3 g, walletAddress g, selectedCategory g, isCustomCategory g).

Lemma keeps_weaken {A B} (f : Globals World -> B) (m : M World A) :
  keeps (fun g => g) m -> keeps f m.
Proof. intros H st. now rewrite (H st). Qed.

Lemma builder_keeps : keeps (fun g => g) (createEIP3009Authorization env).
Proof.
  unfold createEIP3009Authorization, CONFIG_get, call, getRandomValues,
    ethereum_request.
  repeat keeps_step.
Qed.

Lemma loadConfig_keeps : keeps session (loadConfig env).
Proof.
  unfold loadConfig, CONFIG_get, CONFIG_set, fetch_, alert, set_CONFIG.
  repeat keeps_step.
Qed.

Lemma switchToNetwork_keeps : keeps (fun g => g) (switchToNetwork env).
Proof.
  unfold switchToNetwork, CONFIG_get, ethereum_request.
  repeat keeps_step.
Qed.

End Handlers.

End Frame.

(* ====================================================================== *)
(** * More on configuration loading                                       *)
(* ====================================================================== *)

Module ConfigEdges.
Import JS App StringFacts DigitFacts BuilderFacts Builder Config Sample Scenes.

Section Edges.
Context {World : Type} (env : Env World).

(** X2.  A configuration that fails the validation stays in [CONFIG]:
    [loadConfig] stores the parsed object before it checks
    [facilitator_base_url], and its handler does not take it back. *)
Theorem rejected_configuration_stays_in_force
    (st : State World) response w' fields :
  fetch env "/api/config" [] (world st) = (Ok response, w') ->
  ok response = true ->
  json response = Ok (Obj fields) ->
  truthy (match lookup "facilitator_base_url" fields with
          | Some v => v
          | None => Undefined
          end) = false ->
  exists st',
    loadConfig env st = (Ok Null, st') /\
    CONFIG (globals st') = Obj fields /\
    added st st'
    = [Fetch "/api/config" [];
       Alert "Failed to load configuration: Missing facilitator_base_url"].
Proof.
  intros Hfetch Hok Hjson Hbase.
  eexists. split; [|split].
  - cbv [loadConfig try_catch fetch_ CONFIG_get external set_CONFIG update
           bind emit read lift ret throw alert].
    cbn [world globals trace CONFIG].
    rewrite Hfetch, Hok. cbn [negb]. rewrite Hjson.
    cbn [get world globals trace CONFIG]. rewrite Hbase. cbn [negb]. reflexivity.
  - reflexivity.
  - apply added_app. cbn [trace]. now rewrite <- app_assoc.
Qed.

(** X3.  When the request for the configuration fails, or its answer is not
    [ok], [loadConfig] returns [null] and leaves every variable of the
    script, [CONFIG] included, as it was. *)
Theorem failed_request_leaves_CONFIG_alone (st : State World) :
  (exists e w', fetch env "/api/config" [] (world st) = (Throw e, w')) \/
  (exists response w',
      fetch env "/api/config" [] (world st) = (Ok response, w') /\
      ok response = false) ->
  exists st' msg,
    loadConfig env st = (Ok Null, st') /\
    globals st' = globals st /\
    added st st' = [Fetch "/api/config" []; Alert msg].
Proof.
  intros [(e & w' & Hfetch)|(response & w' & Hfetch & Hok)].
  - eexists. eexists. split; [|split].
    + cbv [loadConfig try_catch fetch_ external bind emit read lift ret throw
             alert].
      cbn [world globals trace].
      rewrite Hfetch. reflexivity.
    + reflexivity.
    + apply added_app. cbn [trace]. now rewrite <- app_assoc.
  - eexists. eexists. split; [|split].
    + cbv [loadConfig try_catch fetch_ external bind emit read lift ret throw
             alert].
      cbn [world globals trace].
      rewrite Hfetch, Hok. cbn [negb]. reflexivity.
    + reflexivity.
    + apply added_app. cbn [trace]. now rewrite <- app_assoc.
Qed.

Ltac load :=
  cbv [loadConfig try_catch fetch_ CONFIG_get CONFIG_set external set_CONFIG update
       bind emit read lift ret throw alert];
  cbn [world globals trace CONFIG negb get set].

(** X4.  A configuration without [price_usdc_wei] passes the validation:
    when the server answers [ok] with an object that has a truthy
    [facilitator_base_url] and no [price_usdc_wei], [loadConfig] returns
    the configuration, stored in [CONFIG], with the price the text
    "undefined" and the total the text "NaN". *)
Theorem missing_price_gives_NaN_total
    (st : State World) response w' fields :
  fetch env "/api/config" [] (world st) = (Ok response, w') ->
  ok response = true ->
  json response = Ok (Obj fields) ->
  truthy (match lookup "facilitator_base_url" fields with
          | Some v => v
          | None => Undefined
          end) = true ->
  lookup "price_usdc_wei" fields = None ->
  exists cfg st',
    loadConfig env st = (Ok cfg, st') /\
    truthy cfg = true /\
    CONFIG (globals st') = cfg /\
    get cfg "price_usdc_wei" = Ok (Str "undefined") /\
    get cfg "total_price_usdc_wei" = Ok (Str "NaN").
Proof.
  intros Hfetch Hok Hjson Hbase Hprice.
  eexists. eexists. split.
  - load. rewrite Hfetch. load. rewrite Hok. load. rewrite Hjson. load.
    rewrite Hbase. load. rewrite Hprice. load.
    rewrite lookup_assign_same. load.
    reflexivity.
  - cbn [globals CONFIG truthy get]. split; [reflexivity|].
    split; [reflexivity|]. split.
    + rewrite !lookup_assign_other by discriminate.
      now rewrite lookup_assign_same.
    + rewrite lookup_assign_other by discriminate.
      now rewrite lookup_assign_same.
Qed.

End Edges.

Lemma rejected_configuration_stays_in_force_witness :
  exists st',
    loadConfig unvalidated (initial t0) = (Ok Null, st') /\
    CONFIG (globals st') = config_json_no_facilitator /\
    added (initial t0) st'
    = [Fetch "/api/config" [];
       Alert "Failed to load configuration: Missing facilitator_base_url"].
Proof.
  apply (rejected_configuration_stays_in_force unvalidated (initial t0)
           {| ok := true; status := 200; json := Ok config_json_no_facilitator |}
           (t0 + 1));
    reflexivity.
Defined.

Lemma failed_request_leaves_CONFIG_alone_witness :
  exists st' msg,
    loadConfig unavailable (initial t0) = (Ok Null, st') /\
    globals st' = globals (initial t0) /\
    added (initial t0) st' = [Fetch "/api/config" []; Alert msg].
Proof.
  apply (failed_request_leaves_CONFIG_alone unavailable (initial t0)).
  right. exists {| ok := false; status := 503; json := Ok Null |}, (t0 + 1).
  split; reflexivity.
Defined.

Lemma missing_price_gives_NaN_total_witness :
  exists cfg st',
    loadConfig priceless (initial t0) = (Ok cfg, st') /\
    truthy cfg = true /\
    CONFIG (globals st') = cfg /\
    get cfg "price_usdc_wei" = Ok (Str "undefined") /\
    get cfg "total_price_usdc_wei" = Ok (Str "NaN").
Proof.
  apply (missing_price_gives_NaN_total priceless (initial t0)
           {| ok := true; status := 200; json := Ok config_json_no_price |}
           (t0 + 1)
           [("network", Str "base");
            ("chain_id", Str "0x2105");
            ("treasury_wallet", Str "0x1111111111111111111111111111111111111111");
            ("usdc_address", Str "0x833589fCD6eDb6E08f4c7C32D4f71b54bdA02913");
            ("facilitator_base_url", Str "https://facilitator.0xmeta.ai")]);
    reflexivity.
Defined.

End ConfigEdges.

(* ====================================================================== *)
(** * Loading the page                                                    *)
(* ====================================================================== *)

Module PageLoad.
Import JS App StringFacts BuilderFacts Builder Config Frame Payment Sample.


Section Load.
Context {World : Type} (env : Env World).




End Load.

End PageLoad.

(* ====================================================================== *)
(** * More on the authorization builder                                   *)
(* ====================================================================== *)

Module BuilderEdges.
Import JS App StringFacts DigitFacts BuilderFacts NonceFacts Frame Payment Sample Scenes.

Section Failures.
Context {World : Type} (env : Env World).

Ltac go :=
  cbv [createEIP3009Authorization try_catch bind read throw lift CONFIG_get
       Promise_all call emit external];
  cbn [negb world globals trace].

(** X6.  Without a [Web3] instance, a wallet address or a configuration the
    builder throws at once and leaves the state, trace included,
    untouched.  The checks come in this order, and the message is that
    of the first one that fails: "Web3 not initialized", then "Wallet
    address not set", then "Config not loaded". *)
Theorem builder_refuses_without_its_inputs (st : State World) :
  (web3 (globals st) = None ->
   createEIP3009Authorization env st
   = (Throw (Error "Web3 not initialized"), st)) /\
  (web3 (globals st) <> None ->
   truthy (walletAddress (globals st)) = false ->
   createEIP3009Authorization env st
   = (Throw (Error "Wallet address not set"), st)) /\
  (web3 (globals st) <> None ->
   truthy (walletAddress (globals st)) = true ->
   truthy (CONFIG (globals st)) = false ->
   createEIP3009Authorization env st
   = (Throw (Error "Config not loaded"), st)).
Proof.
  split; [|split].
  - intros Hweb3. go. now rewrite Hweb3.
  - intros Hweb3 Hwallet. go.
    destruct (web3 (globals st)) as [w3|]; [|contradiction].
    go. now rewrite Hwallet.
  - intros Hweb3 Hwallet Hconfig. go.
    destruct (web3 (globals st)) as [w3|]; [|contradiction].
    go. rewrite Hwallet. go. now rewrite Hconfig.
Qed.

(** X7.  An address that [toChecksumAddress] rejects, be it the wallet's, the
    treasury's or the token's, stops the builder with that error before
    any contract call, random draw or request to the wallet: the state,
    trace included, is as before. *)
Theorem unchecksummable_address_stops_the_builder
    (st : State World) (w3 : Web3 World) (e : exn) :
  web3 (globals st) = Some w3 ->
  truthy (walletAddress (globals st)) = true ->
  truthy (CONFIG (globals st)) = true ->
  toChecksumAddress w3 (walletAddress (globals st)) = Throw e \/
  (exists a treasury,
      toChecksumAddress w3 (walletAddress (globals st)) = Ok a /\
      get (CONFIG (globals st)) "treasury_wallet" = Ok treasury /\
      (toChecksumAddress w3 treasury = Throw e \/
       exists b usdc,
         toChecksumAddress w3 treasury = Ok b /\
         get (CONFIG (globals st)) "usdc_address" = Ok usdc /\
         toChecksumAddress w3 usdc = Throw e)) ->
  createEIP3009Authorization env st = (Throw e, st).
Proof.
  intros Hweb3 Hwallet Hconfig H.
  go. rewrite Hweb3. go. rewrite Hwallet. go. rewrite Hconfig. go.
  destruct H as [H|(a & treasury & Ha & Ht & H)].
  { now rewrite H. }
  rewrite Ha. go. rewrite Ht. go.
  destruct H as [H|(b & usdc & Hb & Hu & H)].
  { now rewrite H. }
  rewrite Hb. go. rewrite Hu. go. now rewrite H.
Qed.

(** X8.  When one of the token's two metadata calls, [name()] or
    [version()], is rejected and the other one answers, the builder
    throws the error of the rejected call.  Both calls have been started
    by then; no nonce is drawn and nothing is asked of the wallet. *)
Theorem failed_metadata_call_stops_before_the_draw
    (st : State World) (w3 : Web3 World) (e : exn)
    (a b token : string) (treasury usdc : value) rn rv (w1 w2 : World) :
  web3 (globals st) = Some w3 ->
  truthy (walletAddress (globals st)) = true ->
  truthy (CONFIG (globals st)) = true ->
  toChecksumAddress w3 (walletAddress (globals st)) = Ok a ->
  get (CONFIG (globals st)) "treasury_wallet" = Ok treasury ->
  toChecksumAddress w3 treasury = Ok b ->
  get (CONFIG (globals st)) "usdc_address" = Ok usdc ->
  toChecksumAddress w3 usdc = Ok token ->
  contract_call w3 token "name" (world st) = (rn, w1) ->
  contract_call w3 token "version" w1 = (rv, w2) ->
  (rn = Throw e /\ exists version, rv = Ok version) \/
  ((exists name, rn = Ok name) /\ rv = Throw e) ->
  createEIP3009Authorization env st
  = (Throw e,
     {| globals := globals st;
        world := w2;
        trace := (trace st ++ [ContractCall token "name";
                               ContractCall token "version"])%list |}).
Proof.
  intros Hweb3 Hwallet Hconfig Ha Ht Hb Hu Htok Hname Hversion Hone.
  go. rewrite Hweb3. go. rewrite Hwallet. go. rewrite Hconfig. go.
  rewrite Ha. go. rewrite Ht. go. rewrite Hb. go. rewrite Hu. go.
  rewrite Htok. go. rewrite Hname. go. rewrite Hversion.
  rewrite <- app_assoc.
  destruct Hone as [(-> & version & ->)|((name & ->) & ->)]; reflexivity.
Qed.

(** X9.  Whatever its outcome, the builder assigns to none of the script's
    variables, and all it does outside is call the token contract, draw
    random bytes and ask the wallet: it sends no request and shows no
    alert. *)
Theorem builder_only_reads_the_variables (st : State World) :
  globals (snd (createEIP3009Authorization env st)) = globals st /\
  exists evs,
    trace (snd (createEIP3009Authorization env st)) = (trace st ++ evs)%list /\
    Forall builder_event evs.
Proof.
  split.
  - apply (builder_keeps env st).
  - apply (builder_emits env st).
Qed.

End Failures.

Lemma builder_refuses_without_its_inputs_witness :
  createEIP3009Authorization good (initial t0)
  = (Throw (Error "Web3 not initialized"), initial t0).
Proof.
  apply (proj1 (builder_refuses_without_its_inputs good (initial t0))).
  reflexivity.
Defined.

Lemma unchecksummable_address_stops_the_builder_witness :
  createEIP3009Authorization good no_treasury
  = (Throw (Error "Given address is not a valid Ethereum address."), no_treasury).
Proof.
  apply (unchecksummable_address_stops_the_builder good no_treasury sample_web3
           (Error "Given address is not a valid Ethereum address."));
    try reflexivity.
  right. exists "0x3333333333333333333333333333333333333333", Undefined.
  split; [reflexivity|]. split; [reflexivity|]. left. reflexivity.
Defined.

Lemma failed_metadata_call_stops_before_the_draw_witness :
  createEIP3009Authorization silent_token (ready silent_token)
  = (Throw (Error "execution reverted"),
     {| globals := globals (ready silent_token);
        world := world (ready silent_token) + 1 + 1;
        trace := (trace (ready silent_token) ++
                  [ContractCall "0x833589fCD6eDb6E08f4c7C32D4f71b54bdA02913" "name";
                   ContractCall "0x833589fCD6eDb6E08f4c7C32D4f71b54bdA02913" "version"])%list |}).
Proof.
  apply (failed_metadata_call_stops_before_the_draw silent_token (ready silent_token)
           silent_web3 (Error "execution reverted")
           "0x3333333333333333333333333333333333333333"
           "0x1111111111111111111111111111111111111111"
           "0x833589fCD6eDb6E08f4c7C32D4f71b54bdA02913"
           (Str "0x1111111111111111111111111111111111111111")
           (Str "0x833589fCD6eDb6E08f4c7C32D4f71b54bdA02913")
           (Throw (Error "execution reverted")) (Ok (Str "2"))
           (world (ready silent_token) + 1) (world (ready silent_token) + 1 + 1));
    try (vm_compute; reflexivity).
  left. split; [|exists (Str "2")]; reflexivity.
Defined.

End BuilderEdges.

(* ====================================================================== *)
(** * The values of an authorization, read back                           *)
(* ====================================================================== *)

Module BuilderValues.
Import JS App StringFacts DigitFacts BuilderFacts NonceFacts Builder Sample Scenes.

Lemma append_same_length (a b c d : string) :
  String.length a = String.length c ->
  a ++ b = c ++ d -> a = c /\ b = d.
Proof.
  revert c. induction a as [|x a IH]; intros [|y c] Hlen H;
    try discriminate Hlen.
  - now split.
  - cbn in H. injection H as -> H. injection Hlen as Hlen.
    destruct (IH c Hlen H) as [-> ->]. now split.
Qed.

Lemma byte_hex_inj (b1 b2 : Byte.byte) : byte_hex b1 = byte_hex b2 -> b1 = b2.
Proof.
  intros H.
  destruct (byte_hex_spec b1) as (_ & _ & H1).
  destruct (byte_hex_spec b2) as (_ & _ & H2).
  rewrite H, H2 in H1. injection H1 as H1.
  apply N2Z.inj in H1.
  assert (Some b1 = Some b2) as Heq.
  { rewrite <- (Byte.of_to_N b1), <- (Byte.of_to_N b2). now rewrite H1. }
  now injection Heq.
Qed.

Lemma hex_body_inj (l1 l2 : list Byte.byte) : hex_body l1 = hex_body l2 -> l1 = l2.
Proof.
  revert l2. induction l1 as [|b1 l1 IH]; intros [|b2 l2] H.
  - reflexivity.
  - apply (f_equal String.length) in H. rewrite !hex_body_length in H.
    cbn in H. lia.
  - apply (f_equal String.length) in H. rewrite !hex_body_length in H.
    cbn in H. lia.
  - rewrite !hex_body_cons in H.
    apply append_same_length in H as [Hb Hl].
    + apply byte_hex_inj in Hb. apply IH in Hl. now subst.
    + destruct (byte_hex_spec b1) as [-> _].
      now destruct (byte_hex_spec b2) as [-> _].
Qed.

(** X10.  The text of the nonce determines the bytes drawn: two nonces are
    equal only if the random source gave the same bytes both times. *)
Theorem equal_nonces_come_from_equal_bytes (bytes1 bytes2 : list Byte.byte) :
  nonce_of bytes1 = nonce_of bytes2 -> bytes1 = bytes2.
Proof.
  rewrite !nonce_of_hex_body. intros H.
  injection H as H. now apply hex_body_inj.
Qed.

Lemma equal_nonces_come_from_equal_bytes_witness :
  [Byte.x00; Byte.x2a; Byte.xff] = [Byte.x00; Byte.x2a; Byte.xff].
Proof.
  apply (equal_nonces_come_from_equal_bytes
           [Byte.x00; Byte.x2a; Byte.xff] [Byte.x00; Byte.x2a; Byte.xff]).
  reflexivity.
Defined.


Section Values.
Context {World : Type} (env : Env World).

(** X11.  With a clock within the range of time values (from the epoch to
    8.64e15 milliseconds after it), the two bounds of a returned
    authorization read back as numbers: [validAfter] as 0 and
    [validBefore] as the second in which the wallet was asked for the
    returned signature, plus 86400.  The window is not empty, one day
    long from the time of signing, and its end is a safe integer. *)
Theorem validity_window_reads_back_as_one_day
    (st st' : State World) (r : value) :
  (forall w, 0 <= Date_now env w <= 8640000000000000) ->
  createEIP3009Authorization env st = (Ok r, st') ->
  exists authorization validAfter validBefore provider from domain message
         now signature,
    get r "authorization" = Ok authorization /\
    get authorization "validAfter" = Ok validAfter /\
    get authorization "validBefore" = Ok validBefore /\
    ethereum env = Some provider /\
    request provider
      (Obj [("method", Str "eth_signTypedData_v4");
            ("params", Arr [Str from;
                            JSON_stringify (typed_data domain message)])])
      now
    = (Ok signature, world st') /\
    get r "signature" = Ok signature /\
    parseInt validAfter None = Num 0 /\
    parseInt validBefore None = Num (Date_now env now / 1000 + 86400) /\
    0 < Date_now env now / 1000 + 86400 <= 9007199254740991.
Proof.
  intros Hclock H. apply builder_inversion in H as (b & -> & Hb).
  destruct Hb as (_ & Hprov & _ & _ & _ & _ & _ & _ & _ & _ & Hsig & _).
  exists (b_authorization env b), (Str "0"), (Str (b_validBefore env b)),
    (b_provider b), (b_from b), (b_domain b), (b_message env b),
    (crypto_next env (b_draw b)), (b_signature b).
  pose proof (Hclock (crypto_next env (b_draw b))) as Hnow.
  assert (0 <= Date_now env (crypto_next env (b_draw b)) / 1000 <= 8640000000000)
    by (split; [apply Z.div_pos; lia
               | apply Z.div_le_upper_bound; lia]).
  repeat (split; [first [assumption | reflexivity]|]).
  split.
  - unfold b_validBefore, b_now. cbn [ToString number_toString].
    apply parseInt_toString. lia.
  - lia.
Qed.


End Values.

Lemma validity_window_reads_back_as_one_day_witness :
  exists authorization validAfter validBefore provider from domain message
         now signature,
    get (built epoch) "authorization" = Ok authorization /\
    get authorization "validAfter" = Ok validAfter /\
    get authorization "validBefore" = Ok validBefore /\
    ethereum epoch = Some provider /\
    request provider
      (Obj [("method", Str "eth_signTypedData_v4");
            ("params", Arr [Str from;
                            JSON_stringify (typed_data domain message)])])
      now
    = (Ok signature, world (snd (build epoch))) /\
    get (built epoch) "signature" = Ok signature /\
    parseInt validAfter None = Num 0 /\
    parseInt validBefore None = Num (Date_now epoch now / 1000 + 86400) /\
    0 < Date_now epoch now / 1000 + 86400 <= 9007199254740991.
Proof.
  apply (validity_window_reads_back_as_one_day epoch (ready epoch)
           (snd (build epoch))).
  - intros w. cbn. lia.
  - vm_compute. reflexivity.
Defined.


End BuilderValues.

(* ====================================================================== *)
(** * The header value                                                    *)
(* ====================================================================== *)

Module HeaderFacts.
Import JS App StringFacts Base64Facts.

(** The characters of base64 text: letters, digits, [+], [/] and the
    padding [=]. *)
Definition base64_char (c : ascii) : bool :=
  let n := code c in
  ((65 <=? n) && (n <=? 90)) || ((97 <=? n) && (n <=? 122)) ||
  ((48 <=? n) && (n <=? 57)) || (n =? 43) || (n =? 47) || (n =? 61).

Lemma b64_char_base64 (n : Z) : 0 <= n < 64 -> base64_char (b64_char n) = true.
Proof.
  intros H.
  apply (below_forall 64 (fun n => base64_char (b64_char n))) in H;
    [exact H | vm_compute; reflexivity].
Qed.

(** X13.  Whatever the envelope, the value of the [X-Payment] header is made
    of base64 characters only, four for every three characters of the
    JSON text, so that no character of the JSON text (a quote, a line
    break, a character above 127) reaches the header. *)
Theorem header_value_is_plain_base64 (v : value) :
  all_chars base64_char (encode v) = true /\
  (String.length (encode v)
   = 4 * ((String.length (ToString (JSON_stringify v)) + 2) / 3))%nat.
Proof.
  unfold encode. generalize (ToString (JSON_stringify v)) as s.
  induction s as [|a|a b|a b c s [IH1 IH2]] using string_triples_ind.
  - split; reflexivity.
  - split; [|reflexivity]. cbn [btoa all_chars].
    rewrite !b64_char_base64 by b64_range. reflexivity.
  - split; [|reflexivity]. cbn [btoa all_chars].
    rewrite !b64_char_base64 by b64_range. reflexivity.
  - split.
    + cbn [btoa all_chars].
      rewrite !b64_char_base64 by b64_range. exact IH1.
    + cbn [btoa String.length]. rewrite IH2.
      replace (S (S (S (String.length s))) + 2)%nat
        with (String.length s + 2 + 1 * 3)%nat by lia.
      rewrite Nat.div_add by lia. lia.
Qed.

End HeaderFacts.

(* ====================================================================== *)
(** * More on the payment flow                                            *)
(* ====================================================================== *)

Module PaymentEdges.
Import JS App StringFacts BuilderFacts Builder Config Frame Payment Sample Scenes.

Section Calls.
Context {World : Type} (env : Env World).

Lemma not_paid_before_the_request (e : event) :
  config_event e \/ builder_event e -> ~ carries_payment e.
Proof.
  destruct e as [m|bs|ad me|args|url headers]; cbn; try tauto.
  intros [(_ & ->)|[]]. cbn. tauto.
Qed.

(** X14.  A call of [initiatePayment] sends at most one request with an
    [X-Payment] header, as the last thing it does outside, and only
    after the wallet has answered, in this same call, a request for a
    typed-data signature. *)
Theorem one_paid_request_and_only_after_a_signature (st : State World) :
  let evs := added st (snd (initiatePayment env st)) in
  Forall (fun e => ~ carries_payment e) evs \/
  exists before url headers provider args w signature w',
    evs = (before ++ [Fetch url headers])%list /\
    carries_payment (Fetch url headers) /\
    Forall (fun e => ~ carries_payment e) before /\
    In (EthereumRequest args) before /\
    get args "method" = Ok (Str "eth_signTypedData_v4") /\
    ethereum env = Some provider /\
    request provider args w = (Ok signature, w').
Proof.
  cbv zeta.
  destruct (initiatePayment_outcome env st) as [_ Hout].
  destruct Hout as [Hcat ->|Hcat Hw ->|c s0 Hentry Hcfg Hload Hc ->
                   |s1 e s2 Hentry Hconf Hb ->
                   |s1 r s2 a sg n text Hentry Hconf Hb _ _ _ _ ->].
  - left. constructor; [cbn; tauto | constructor].
  - left. constructor; [cbn; tauto | constructor].
  - left. destruct (loadConfig_emits env st) as (evs0 & Ht & Hall).
    rewrite Hload in Ht. cbn [snd] in Ht. rewrite (added_app _ _ _ Ht).
    eapply Forall_impl; [|exact Hall].
    intros e He. apply not_paid_before_the_request. now left.
  - left. eapply Forall_impl; [|exact (before_the_request env _ _ _ _ Hconf Hb)].
    intros x. apply not_paid_before_the_request.
  - right.
    pose proof (before_the_request env _ _ _ _ Hconf Hb) as Hbefore.
    destruct (configured_trace env st s1 Hconf) as (evs0 & Ht0 & _).
    apply builder_inversion in Hb as (b & -> & Hdesc).
    assert (Hadded : added st s2 = (evs0 ++ b_events env b)%list).
    { apply added_app.
      destruct Hdesc as (_ & _ & _ & _ & _ & _ & _ & _ & _ & _ & _ & _ & Ht).
      now rewrite Ht, Ht0, app_assoc. }
    destruct Hdesc as (_ & Hprov & _ & _ & _ & _ & _ & _ & _ & _ & Hsig & _).
    exists (added st s2),
      ("/news/" ++ ToString (selectedCategory (globals s2))),
      [("X-Payment", btoa text); ("Accept", "application/json")],
      (b_provider b), (b_sign_args env b), (crypto_next env (b_draw b)),
      (b_signature b), (world s2).
    split; [reflexivity|].
    split; [cbn; auto|].
    split.
    { eapply Forall_impl; [|exact Hbefore].
      intros x. apply not_paid_before_the_request. }
    split.
    { rewrite Hadded. apply in_or_app. right. cbn. auto. }
    split; [reflexivity|].
    split; [exact Hprov | exact Hsig].
Qed.

Ltac run := cbn [bind read ret lift throw negb orb andb fst snd alert emit
                 globals world trace].

(** X15.  [initiatePayment] assigns to no variable but [CONFIG], and not to
    [CONFIG] either when a configuration is there: a configuration in
    force is never loaded again by a payment. *)
Theorem payment_keeps_the_session_and_a_loaded_configuration (st : State World) :
  session (globals (snd (initiatePayment env st))) = session (globals st) /\
  (truthy (CONFIG (globals st)) = true ->
   globals (snd (initiatePayment env st)) = globals st).
Proof.
  split.
  - revert st. change (keeps session (initiatePayment env)).
    unfold initiatePayment, set_CONFIG, CONFIG_get, fetch_, alert.
    repeat first [ apply loadConfig_keeps
                 | apply keeps_weaken, builder_keeps
                 | keeps_step ].
  - intros Hconfig.
    unfold initiatePayment, try_catch. run.
    destruct (truthy (selectedCategory (globals st))); run; [|reflexivity].
    destruct (truthy (walletAddress (globals st))); run; [|reflexivity].
    destruct (web3 (globals st)) as [w3|]; run; [|reflexivity].
    rewrite Hconfig. run.
    set (tail := bind (createEIP3009Authorization env) _).
    assert (Htail : keeps (fun g => g) tail).
    { subst tail. unfold CONFIG_get, fetch_.
      repeat first [ apply builder_keeps | keeps_step ]. }
    specialize (Htail st).
    destruct (tail st) as [[u|e] s]; exact Htail.
Qed.

(** X16.  When the wallet reports that no account is left, the address is
    forgotten, and a payment started afterwards stops at an alert:
    nothing is built, signed or sent. *)
Theorem no_payment_after_the_wallet_disconnects
    (st : State World) (accounts : value) (shown : bool) :
  length_of accounts = Ok (Number (Num 0)) ->
  let st1 := snd (accountsChanged accounts shown st) in
  walletAddress (globals st1) = Null /\
  exists msg, added st1 (snd (initiatePayment env st1)) = [Alert msg].
Proof.
  intros Hlen. cbv zeta.
  assert (Hst1 : walletAddress (globals (snd (accountsChanged accounts shown st)))
                 = Null).
  { unfold accountsChanged. cbv [bind lift]. rewrite Hlen. reflexivity. }
  split; [exact Hst1|].
  set (st1 := snd (accountsChanged accounts shown st)) in *.
  destruct (initiatePayment_outcome env st1) as [_ Hout].
  destruct Hout as [_ ->|_ _ ->|c s0 Hentry _ _ _ _
                   |s1 e s2 Hentry _ _ _
                   |s1 r s2 a sg n text Hentry _ _ _ _ _ _ _];
    eauto;
    destruct Hentry as (_ & Hw & _); rewrite Hst1 in Hw; discriminate Hw.
Qed.

(** X17.  After the wallet has switched to another account, an authorization
    is built for that account: its [from] is the checksummed first
    account of the notification. *)
Theorem authorization_follows_the_changed_account
    (st st2 : State World) (account : value) (others : list value)
    (shown : bool) (r : value) :
  createEIP3009Authorization env
    (snd (accountsChanged (Arr (account :: others)) shown st)) = (Ok r, st2) ->
  exists w3 from authorization,
    web3 (globals st) = Some w3 /\
    toChecksumAddress w3 account = Ok from /\
    get r "authorization" = Ok authorization /\
    get authorization "from" = Ok (Str from).
Proof.
  intros H. apply builder_inversion in H as (b & -> & Hb).
  destruct Hb as (Hw3 & _ & _ & _ & Hfrom & _).
  assert (Hg : globals (snd (accountsChanged (Arr (account :: others)) shown st))
               = {| web3 := web3 (globals st); walletAddress := account;
                    CONFIG := CONFIG (globals st);
                    selectedCategory := selectedCategory (globals st);
                    isCustomCategory := isCustomCategory (globals st) |}).
  { unfold accountsChanged. cbv [bind lift length_of first_of].
    cbn [List.length is_number Z.of_nat Z.eqb Pos.of_succ_nat nth].
    unfold set_walletAddress, update.
    destruct shown; [destruct (shorten account)|]; reflexivity. }
  rewrite Hg in Hw3, Hfrom. cbn [web3 walletAddress] in Hw3, Hfrom.
  exists (b_web3 b), (b_from b), (b_authorization env b).
  repeat split; assumption.
Qed.

End Calls.

Lemma no_payment_after_the_wallet_disconnects_witness :
  walletAddress (globals (snd (accountsChanged (Arr []) true (ready good)))) = Null /\
  exists msg,
    added (snd (accountsChanged (Arr []) true (ready good)))
          (snd (initiatePayment good (snd (accountsChanged (Arr []) true (ready good)))))
    = [Alert msg].
Proof.
  apply (no_payment_after_the_wallet_disconnects good (ready good) (Arr []) true).
  reflexivity.
Defined.

Lemma authorization_follows_the_changed_account_witness :
  exists w3 from authorization,
    web3 (globals (ready good)) = Some w3 /\
    toChecksumAddress w3 other_account = Ok from /\
    get (result_of (fst (createEIP3009Authorization good
                           (snd (accountsChanged (Arr [other_account]) true
                                   (ready good))))))
        "authorization" = Ok authorization /\
    get authorization "from" = Ok (Str from).
Proof.
  apply (authorization_follows_the_changed_account good (ready good)
           (snd (createEIP3009Authorization good
                   (snd (accountsChanged (Arr [other_account]) true (ready good)))))
           other_account [] true).
  vm_compute. reflexivity.
Defined.

End PaymentEdges.

(* ====================================================================== *)
(** * Connecting the wallet                                               *)
(* ====================================================================== *)

Module WalletFacts.
Import JS App StringFacts BuilderFacts Builder Frame Payment Sample Scenes.

Section Wallet.
Context {World : Type} (env : Env World).

Definition switch_request (chain_id : value) : value :=
  Obj [("method", Str "wallet_switchEthereumChain");
       ("params", Arr [Obj [("chainId", chain_id)]])].

Ltac go :=
  cbv [switchToNetwork connectWallet try_catch bind read throw lift ret
       CONFIG_get ethereum_request emit external alert];
  cbn [negb world globals trace].

(** X18.  [switchToNetwork] asks the wallet to add the chain only after the
    request to switch has failed with code 4902; a request to switch
    that fails with any other error is passed over in silence. *)
Theorem chain_is_added_only_on_error_4902 (st : State World) :
  (forall args,
      In (EthereumRequest args) (added st (snd (switchToNetwork env st))) ->
      get args "method" = Ok (Str "wallet_addEthereumChain") ->
      exists provider chain_id e w',
        ethereum env = Some provider /\
        get (CONFIG (globals st)) "chain_id" = Ok chain_id /\
        request provider (switch_request chain_id) (world st) = (Throw e, w') /\
        code_of e = Number (Num 4902)) /\
  (forall provider chain_id e w',
      ethereum env = Some provider ->
      truthy (CONFIG (globals st)) = true ->
      get (CONFIG (globals st)) "chain_id" = Ok chain_id ->
      request provider (switch_request chain_id) (world st) = (Throw e, w') ->
      is_number 4902 (code_of e) = false ->
      switchToNetwork env st
      = (Ok tt, {| globals := globals st; world := w';
                   trace := (trace st ++ [EthereumRequest (switch_request chain_id)])%list |})).
Proof.
  split.
  - intros args. go.
    destruct (ethereum env) as [provider|] eqn:Hprov.
    2:{ cbn [snd]. rewrite added_refl. intros []. }
    destruct (truthy (CONFIG (globals st))) eqn:Hconfig; go.
    2:{ cbn [snd]. rewrite added_refl. intros []. }
    destruct (get_truthy (CONFIG (globals st)) "chain_id" Hconfig) as (chain_id & Hchain).
    rewrite Hchain. go.
    fold (switch_request chain_id).
    destruct (request provider (switch_request chain_id) (world st))
      as [[v|e] w'] eqn:Hswitch; go.
    { cbn [snd]. rewrite (added_app st _ [EthereumRequest (switch_request chain_id)])
        by reflexivity.
      intros [Hin|[]] Hm. injection Hin as <-. discriminate Hm. }
    destruct (is_number 4902 (code_of e)) eqn:Hcode; go.
    2:{ cbn [snd]. rewrite (added_app st _ [EthereumRequest (switch_request chain_id)])
          by reflexivity.
        intros [Hin|[]] Hm. injection Hin as <-. discriminate Hm. }
    intros _ _. exists provider, chain_id, e, w'.
    repeat split; try assumption.
    destruct e as [m|c m]; cbn in Hcode |- *; [discriminate Hcode|].
    apply Z.eqb_eq in Hcode. now subst c.
  - intros provider chain_id e w' Hprov Hconfig Hchain Hswitch Hcode.
    go. rewrite Hprov, Hconfig. go. rewrite Hchain. go.
    fold (switch_request chain_id). rewrite Hswitch. go.
    rewrite Hcode. reflexivity.
Qed.

(** X19.  When the wallet refuses the request for accounts, [connectWallet]
    reports the wallet's message and returns; the script's variables,
    the address and the [Web3] instance among them, stay as they were,
    and nothing more is asked of the wallet. *)
Theorem refused_connection_changes_nothing
    (st : State World) (provider : Provider World) (e : exn) (w' : World) :
  ethereum env = Some provider ->
  isMetaMask provider = true ->
  truthy (CONFIG (globals st)) = true ->
  request provider (Obj [("method", Str "eth_requestAccounts")]) (world st)
  = (Throw e, w') ->
  connectWallet env st
  = (Ok tt,
     {| globals := globals st; world := w';
        trace := (trace st ++
                  [EthereumRequest (Obj [("method", Str "eth_requestAccounts")]);
                   Alert ("Failed to connect: " ++ message e)])%list |}).
Proof.
  intros Hprov Hmm Hconfig Hreq.
  unfold connectWallet, isMetaMaskInstalled. rewrite Hprov, Hmm. go.
  rewrite Hconfig. go. rewrite Hprov. go. rewrite Hreq. go.
  now rewrite <- app_assoc.
Qed.

(** X20.  [connectWallet] never throws, whatever the wallet and the server
    answer, and it leaves the selected category alone. *)
Theorem connectWallet_returns_and_keeps_the_category (st : State World) :
  fst (connectWallet env st) = Ok tt /\
  selectedCategory (globals (snd (connectWallet env st)))
  = selectedCategory (globals st) /\
  isCustomCategory (globals (snd (connectWallet env st)))
  = isCustomCategory (globals st).
Proof.
  assert (Hload : keeps (fun g => (selectedCategory g, isCustomCategory g))
                        (loadConfig env)).
  { intros s. pose proof (loadConfig_keeps env s) as H.
    unfold session in H. now injection H as _ _ -> ->. }
  assert (Hkeeps : keeps (fun g => (selectedCategory g, isCustomCategory g))
                         (connectWallet env)).
  { unfold connectWallet, set_CONFIG, set_walletAddress, set_web3, alert,
      ethereum_request.
    repeat first [ apply keeps_weaken, switchToNetwork_keeps
                 | apply Hload
                 | keeps_step ]. }
  split.
  - unfold connectWallet, try_catch.
    destruct (_ st) as [[[]|e] s1]; reflexivity.
  - specialize (Hkeeps st). now injection Hkeeps.
Qed.

End Wallet.

(** The request to add the chain, in the session with the strict
    wallet. *)
Definition add_chain_request : value :=
  match nth 1 (added (loaded strict) (snd (switchToNetwork strict (loaded strict))))
            (Alert "") with
  | EthereumRequest args => args
  | _ => Null
  end.

Lemma chain_is_added_only_on_error_4902_witness :
  In (EthereumRequest add_chain_request)
     (added (loaded strict) (snd (switchToNetwork strict (loaded strict)))) /\
  get add_chain_request "method" = Ok (Str "wallet_addEthereumChain") /\
  exists provider chain_id e w',
    ethereum strict = Some provider /\
    get (CONFIG (globals (loaded strict))) "chain_id" = Ok chain_id /\
    request provider (switch_request chain_id) (world (loaded strict)) = (Throw e, w') /\
    code_of e = Number (Num 4902).
Proof.
  assert (Hin : In (EthereumRequest add_chain_request)
                   (added (loaded strict)
                      (snd (switchToNetwork strict (loaded strict))))).
  { vm_compute. right. left. reflexivity. }
  assert (Hm : get add_chain_request "method" = Ok (Str "wallet_addEthereumChain")).
  { vm_compute. reflexivity. }
  exact (conj Hin (conj Hm
           (proj1 (chain_is_added_only_on_error_4902 strict (loaded strict))
                  add_chain_request Hin Hm))).
Defined.

Lemma refused_connection_changes_nothing_witness :
  connectWallet strict (loaded strict)
  = (Ok tt,
     {| globals := globals (loaded strict);
        world := world (loaded strict) + 1;
        trace := (trace (loaded strict) ++
                  [EthereumRequest (Obj [("method", Str "eth_requestAccounts")]);
                   Alert ("Failed to connect: " ++ message user_rejected)])%list |}).
Proof.
  apply (refused_connection_changes_nothing strict (loaded strict) strict_provider
           user_rejected (world (loaded strict) + 1));
    vm_compute; reflexivity.
Defined.

End WalletFacts.

(* ====================================================================== *)
(** * Category selection and the shortened address                        *)
(* ====================================================================== *)

Module CategoryFacts.
Import JS App StringFacts BuilderFacts Builder Frame Payment Sample.

Lemma take_length (n : nat) (s : string) :
  String.length (take n s) = Nat.min n (String.length s).
Proof.
  revert s. induction n as [|n IH]; intros [|c s]; cbn; try reflexivity.
  now rewrite IH.
Qed.

Lemma drop_length (n : nat) (s : string) :
  String.length (drop n s) = (String.length s - n)%nat.
Proof.
  revert s. induction n as [|n IH]; intros [|c s]; cbn; try reflexivity.
  apply IH.
Qed.

Lemma take_all (n : nat) (s : string) :
  (String.length s <= n)%nat -> take n s = s.
Proof.
  revert s. induction n as [|n IH]; intros [|c s]; cbn; intros H;
    try reflexivity; try lia.
  f_equal. apply IH. lia.
Qed.

Section Selection.
Context {World : Type} (env : Env World).

(** X21.  The dialog accepts a custom category only if, trimmed and in lower
    case, it is not empty and made of the characters a-z, 0-9, [_] and
    [-]; it is then selected as a custom category.  Any other input
    changes no variable and gives at most an alert. *)
Theorem custom_category_is_selected_only_if_well_formed
    (input : option string) (st : State World) :
  fst (confirmCustomCategory input st) = Ok tt /\
  ((globals (snd (confirmCustomCategory input st)) = globals st /\
    (added st (snd (confirmCustomCategory input st)) = [] \/
     exists msg, added st (snd (confirmCustomCategory input st)) = [Alert msg]) /\
    forall text, input = Some text ->
                 category_pattern (toLowerCase (trim text)) = false) \/
   (exists text,
      input = Some text /\
      category_pattern (toLowerCase (trim text)) = true /\
      every_char category_char (toLowerCase (trim text)) = true /\
      selectedCategory (globals (snd (confirmCustomCategory input st)))
      = Str (toLowerCase (trim text)) /\
      isCustomCategory (globals (snd (confirmCustomCategory input st))) = true /\
      added st (snd (confirmCustomCategory input st)) = [])).
Proof.
  unfold confirmCustomCategory.
  destruct input as [text|].
  2:{ split; [reflexivity|]. left. cbn [snd ret].
      split; [reflexivity|]. split; [left; apply added_refl|]. discriminate. }
  cbv zeta.
  destruct (String.eqb (toLowerCase (trim text)) "") eqn:Hempty.
  { split; [reflexivity|]. left. split; [reflexivity|]. split.
    - right. eexists. apply added_app. reflexivity.
    - intros t [= <-]. unfold category_pattern. now rewrite Hempty. }
  destruct (category_pattern (toLowerCase (trim text))) eqn:Hpat; cbn [negb].
  - split; [reflexivity|]. right. exists text.
    split; [reflexivity|]. split; [exact Hpat|]. split.
    { unfold category_pattern in Hpat. rewrite Hempty in Hpat. exact Hpat. }
    split; [reflexivity|]. split; [reflexivity|].
    apply added_app. cbn. now rewrite app_nil_r.
  - split; [reflexivity|]. left. split; [reflexivity|]. split.
    + right. eexists. apply added_app. reflexivity.
    + intros t [= <-]. exact Hpat.
Qed.

End Selection.

(** X23.  [shorten] never fails on a string; what it gives has at most 13
    characters, and for a string of at least ten characters it is the
    first six characters, three dots and the last four. *)
Theorem shorten_keeps_both_ends_of_a_string (s : string) :
  exists short,
    shorten (Str s) = Ok short /\
    (String.length short <= 13)%nat /\
    (s = "" -> short = "") /\
    ((10 <= String.length s)%nat ->
     short = take 6 s ++ "..." ++ drop (String.length s - 4) s /\
     String.length short = 13%nat).
Proof.
  unfold shorten. cbn [truthy negb].
  destruct (String.eqb_spec s "") as [->|Hne]; cbn [negb].
  { exists "". split; [reflexivity|]. split; [cbn; lia|].
    split; [reflexivity|]. cbn. lia. }
  eexists. split; [reflexivity|].
  unfold slice, slice_index.
  set (len := String.length s).
  assert (0 < len)%nat as Hpos.
  { subst len. destruct s; [contradiction | cbn; lia]. }
  change (0 <? 0) with false. change (-4 <? 0) with true. change (6 <? 0) with false.
  cbv iota.
  rewrite (Z.min_l 0) by lia. rewrite Z.sub_0_r.
  change (Z.to_nat 0) with 0%nat. cbn [drop].
  replace (drop 0 s) with s by (now destruct s).
  split; [|split].
  - rewrite !length_append, take_length, take_length, drop_length. cbn. lia.
  - intros ->. contradiction.
  - intros Hlen.
    assert (Z.to_nat (Z.min 6 (Z.of_nat len)) = 6%nat) as -> by lia.
    assert (Z.to_nat (Z.max (Z.of_nat len + -4) 0) = (len - 4)%nat) as -> by lia.
    assert (Z.to_nat (Z.of_nat len - Z.max (Z.of_nat len + -4) 0) = 4%nat) as -> by lia.
    rewrite (take_all 4) by (rewrite drop_length; fold len; lia).
    split; [reflexivity|].
    rewrite !length_append, take_length, drop_length.
    change (String.length "...") with 3%nat. subst len. lia.
Qed.

Lemma custom_category_is_selected_only_if_well_formed_witness :
  exists text,
    Some "  DeFi-2_Ab " = Some text /\
    category_pattern (toLowerCase (trim text)) = true /\
    selectedCategory
      (globals (snd (confirmCustomCategory (Some "  DeFi-2_Ab ") (ready good))))
    = Str "defi-2_ab".
Proof.
  destruct (proj2 (custom_category_is_selected_only_if_well_formed
                     (Some "  DeFi-2_Ab ") (ready good)))
    as [(_ & _ & H)|(text & Ht & Hp & _ & Hs & _)].
  - exfalso. specialize (H _ eq_refl). vm_compute in H. discriminate H.
  - exists text. split; [exact Ht|]. split; [exact Hp|]. vm_compute. reflexivity.
Defined.

End CategoryFacts.

(* ====================================================================== *)
(** * More on the payment ledger                                          *)
(* ====================================================================== *)

Module LedgerEdges.
Import Ledger LedgerFacts.
Local Open Scope list_scope.

Section Rows.
Variables (double timestamp jsonb : Type).
Local Abbreviation row := (Ledger.row double timestamp jsonb).
Local Abbreviation table := (list row).

Lemma row_ok_columns (r : row) :
  row_ok r = true ->
  exists i h e a,
    id r = Some i /\
    payment_hash r = Some h /\ (String.length h <= 200)%nat /\
    endpoint _ _ _ r = Some e /\ (String.length e <= 100)%nat /\
    amount _ _ _ r = Some a /\
    fits 50 (category _ _ _ r) = true /\
    fits 200 (user_identifier _ _ _ r) = true /\
    fits 100 (user_wallet _ _ _ r) = true.
Proof.
  unfold row_ok. intros H.
  repeat (apply andb_true_iff in H as [H ?]).
  destruct (id r) as [i|]; [|discriminate].
  destruct (payment_hash r) as [h|]; [|discriminate].
  destruct (endpoint _ _ _ r) as [e|]; [|discriminate].
  destruct (amount _ _ _ r) as [a|]; [|discriminate].
  exists i, h, e, a. cbn [fits] in *.
  repeat split; try assumption; now apply Nat.leb_le.
Qed.

(** X24.  Every row of a ledger that statements have built from the empty
    table has an id, a payment hash of at most 200 characters, an
    endpoint of at most 100 characters and an amount; its optional texts
    fit their columns; and no two rows share an id. *)
Theorem stored_rows_meet_the_column_constraints (t : table) :
  reachable t ->
  (forall r, In r t ->
     exists i h e a,
       id r = Some i /\
       payment_hash r = Some h /\ (String.length h <= 200)%nat /\
       endpoint _ _ _ r = Some e /\ (String.length e <= 100)%nat /\
       amount _ _ _ r = Some a /\
       fits 50 (category _ _ _ r) = true /\
       fits 200 (user_identifier _ _ _ r) = true /\
       fits 100 (user_wallet _ _ _ r) = true) /\
  (forall i j r1 r2,
      nth_error t i = Some r1 -> nth_error t j = Some r2 ->
      id r1 = id r2 -> i = j).
Proof.
  intros Hreach.
  destruct (reachable_consistent _ _ _ t Hreach) as (Hok & Hid & _).
  rewrite forallb_forall in Hok. split.
  - intros r Hin. apply row_ok_columns, Hok, Hin.
  - intros i j r1 r2 Hi Hj Heq.
    apply (unique_positions _ _ _ id t Hid i j r1 r2 Hi Hj).
    destruct (row_ok_columns r1 (Hok r1 (nth_error_In _ _ Hi))) as (k & _ & _ & _ & Hk & _).
    rewrite <- Heq, Hk. cbn. apply String.eqb_refl.
Qed.

Lemma not_taken_filter (col : row -> option string) key f (t : table) :
  taken col key t = false -> taken col key (filter f t) = false.
Proof.
  intros H. destruct (taken col key (filter f t)) eqn:E; [|reflexivity].
  apply taken_filter in E. congruence.
Qed.

(** X25.  Uniqueness is over the rows that are there: once the rows with a
    payment hash are deleted, a well-formed row with that hash and a
    fresh id is accepted again. *)
Theorem deleted_payment_hash_is_accepted_again (t : table) (r : row) :
  row_ok r = true ->
  taken id (id r) t = false ->
  insert r (delete (fun x => same (payment_hash x) (payment_hash r)) t)
  = Some (delete (fun x => same (payment_hash x) (payment_hash r)) t ++ [r]).
Proof.
  intros Hok Hid. unfold insert, delete.
  rewrite Hok, (not_taken_filter id _ _ t Hid). cbn [andb negb].
  assert (Hfree : taken payment_hash (payment_hash r)
                    (filter (fun x => negb (same (payment_hash x) (payment_hash r))) t)
                  = false).
  { unfold taken. induction t as [|x t IH]; [reflexivity|].
    cbn [taken existsb] in Hid. apply orb_false_iff in Hid as [_ Hid].
    cbn [filter].
    destruct (same (payment_hash x) (payment_hash r)) eqn:E; cbn [negb].
    - apply IH, Hid.
    - cbn [existsb]. rewrite E. apply IH, Hid. }
  now rewrite Hfree.
Qed.

End Rows.

Lemma stored_rows_meet_the_column_constraints_witness :
  exists i h e a,
    id (sample_row "k2") = Some i /\
    payment_hash (sample_row "k2") = Some h /\ (String.length h <= 200)%nat /\
    endpoint _ _ _ (sample_row "k2") = Some e /\ (String.length e <= 100)%nat /\
    amount _ _ _ (sample_row "k2") = Some a /\
    fits 50 (category _ _ _ (sample_row "k2")) = true /\
    fits 200 (user_identifier _ _ _ (sample_row "k2")) = true /\
    fits 100 (user_wallet _ _ _ (sample_row "k2")) = true.
Proof.
  apply (proj1 (stored_rows_meet_the_column_constraints unit unit unit
                  [sample_row "k1"; sample_row "k2"] sample_reachable)).
  right. left. reflexivity.
Defined.

(** A second row for the payment hash of [sample_row "k2"]. *)
Definition second_row : Ledger.row unit unit unit :=
  {| id := Some "id-of-k2-again"%string;
     payment_hash := Some "k2"%string;
     endpoint := Some "/news/bitcoin"%string;
     category := Some "bitcoin"%string;
     amount := Some tt;
     verified := Some true;
     settled := Some false;
     user_identifier := None;
     user_wallet := None;
     created_at := Some tt;
     verified_at := None;
     settled_at := None;
     transaction_data := None |}.

Lemma deleted_payment_hash_is_accepted_again_witness :
  insert second_row [sample_row "k1"; sample_row "k2"] = None /\
  insert second_row
    (delete (fun x => same (payment_hash x) (payment_hash second_row))
            [sample_row "k1"; sample_row "k2"])
  = Some (delete (fun x => same (payment_hash x) (payment_hash second_row))
                 [sample_row "k1"; sample_row "k2"] ++ [second_row]).
Proof.
  split; [reflexivity|].
  apply (deleted_payment_hash_is_accepted_again unit unit unit
           [sample_row "k1"; sample_row "k2"] second_row); reflexivity.
Defined.

End LedgerEdges.

(* ====================================================================== *)
(** * The signal store: its invariant                                     *)
(* ====================================================================== *)

Module SignalFacts.
Import Signals.
Local Open Scope list_scope.

Section ItemInvariant.
Variables (double timestamp jsonb : Type).
Local Abbreviation row := (Signals.row double timestamp jsonb).
Local Abbreviation table := (list row).

Lemma signal_same_sym (x y : option string) : same x y = same y x.
Proof. destruct x, y; cbn; try reflexivity. apply String.eqb_sym. Qed.

Lemma signal_unique_snoc (col : row -> option string) (t : table) (r : row) :
  unique col t = true ->
  taken col (col r) t = false ->
  unique col (t ++ [r]) = true.
Proof.
  induction t as [|x t IH]; cbn [app unique taken existsb]; intros Hu Ht.
  - reflexivity.
  - apply andb_true_iff in Hu as [Hx Hu].
    apply orb_false_iff in Ht as [Hxr Ht].
    unfold taken at 1. rewrite existsb_app. fold (taken col (col x) t).
    cbn [existsb].
    apply negb_true_iff in Hx. rewrite Hx, orb_false_r.
    rewrite signal_same_sym, Hxr. cbn. now apply IH.
Qed.

Lemma signal_unique_filter (col : row -> option string) f (t : table) :
  unique col t = true -> unique col (filter f t) = true.
Proof.
  induction t as [|x t IH]; cbn [filter unique]; intros Hu; [reflexivity|].
  apply andb_true_iff in Hu as [Hx Hu].
  destruct (f x); [|now apply IH].
  cbn [unique]. rewrite IH by exact Hu. rewrite andb_true_r.
  apply negb_true_iff. apply negb_true_iff in Hx.
  destruct (taken col (col x) (filter f t)) eqn:E; [|reflexivity].
  unfold taken in E, Hx. apply existsb_exists in E as (y & Hin & Hy).
  apply filter_In in Hin as [Hin _].
  assert (existsb (fun r => same (col r) (col x)) t = true); [|congruence].
  apply existsb_exists. eauto.
Qed.

Definition signal_consistent (t : table) : Prop :=
  forallb row_ok t = true /\
  unique id t = true /\
  unique oxmeta_id t = true.

Lemma signal_exec_consistent s (t t' : table) :
  signal_consistent t -> exec s t = Some t' -> signal_consistent t'.
Proof.
  intros (Hok & Hid & Hox). destruct s as [r|cond change|cond]; cbn [exec].
  - unfold insert.
    destruct (row_ok r) eqn:Hr; cbn [andb]; [|discriminate].
    destruct (taken id (id r) t) eqn:Hi; cbn [andb negb]; [discriminate|].
    destruct (taken oxmeta_id (oxmeta_id r) t) eqn:Hh; cbn [negb];
      [discriminate|].
    intros [= <-]. repeat split.
    + rewrite forallb_app, Hok. cbn. now rewrite Hr.
    + now apply signal_unique_snoc.
    + now apply signal_unique_snoc.
  - unfold update. cbv zeta.
    set (u := map (fun r => if cond r then change r else r) t).
    destruct (forallb row_ok u) eqn:H1; cbn [andb]; [|discriminate].
    destruct (unique id u) eqn:H2; cbn [andb]; [|discriminate].
    destruct (unique oxmeta_id u) eqn:H3; [|discriminate].
    intros Heq. injection Heq as <-. repeat split; assumption.
  - intros [= <-]. unfold delete. repeat split.
    + rewrite forallb_forall in *. intros x Hx.
      apply filter_In in Hx as [Hx _]. now apply Hok.
    + now apply signal_unique_filter.
    + now apply signal_unique_filter.
Qed.

Lemma signal_reachable_consistent (t : table) : reachable t -> signal_consistent t.
Proof.
  induction 1 as [|s t t' _ IH Hexec].
  - repeat split.
  - eapply signal_exec_consistent; eassumption.
Qed.

Lemma signal_unique_positions (col : row -> option string) (t : table) :
  unique col t = true ->
  forall i j r1 r2,
    nth_error t i = Some r1 -> nth_error t j = Some r2 ->
    same (col r1) (col r2) = true -> i = j.
Proof.
  induction t as [|x t IH]; intros Hu i j r1 r2 Hi Hj Hsame.
  - destruct i; discriminate.
  - cbn [unique] in Hu. apply andb_true_iff in Hu as [Hx Hu].
    apply negb_true_iff in Hx.
    assert (Hfree : forall k r, nth_error t k = Some r -> same (col r) (col x) = false).
    { intros k r Hk. destruct (same (col r) (col x)) eqn:E; [|reflexivity].
      assert (taken col (col x) t = true); [|congruence].
      unfold taken. apply existsb_exists. exists r. split; [|exact E].
      eapply nth_error_In; eassumption. }
    destruct i as [|i], j as [|j]; cbn [nth_error] in Hi, Hj.
    + reflexivity.
    + injection Hi as <-. rewrite signal_same_sym, (Hfree _ _ Hj) in Hsame. discriminate.
    + injection Hj as <-. rewrite (Hfree _ _ Hi) in Hsame. discriminate.
    + f_equal. eapply IH; eassumption.
Qed.

Lemma signal_row_ok_columns (r : row) :
  row_ok r = true ->
  (source r = Some "cryptonews"%string \/ source r = Some "twitter"%string) /\
  exists key, oxmeta_id r = Some key /\ (String.length key <= 100)%nat.
Proof.
  unfold row_ok. intros H.
  repeat (apply andb_true_iff in H as [H ?]).
  destruct (oxmeta_id r) as [key|]; [|discriminate].
  destruct (source r) as [s|]; [|discriminate].
  cbn [source_check fits] in *. split.
  - match goal with
    | Hc : (_ || _) = true |- _ =>
        apply orb_true_iff in Hc as [Hc|Hc];
        apply String.eqb_eq in Hc; subst s; auto
    end.
  - exists key. split; [reflexivity|]. now apply Nat.leb_le.
Qed.

(** X26.  In every state of the signal store that statements can reach from
    the empty table, each item comes from one of the two sources the
    [CHECK] names, and no two items, at different positions, carry the
    same [oxmeta_id]. *)
Theorem signals_have_a_known_source_and_a_unique_oxmeta_id (t : table) :
  reachable t ->
  (forall r, In r t ->
     source r = Some "cryptonews"%string \/ source r = Some "twitter"%string) /\
  (forall i j r1 r2,
      nth_error t i = Some r1 -> nth_error t j = Some r2 ->
      oxmeta_id r1 = oxmeta_id r2 -> i = j).
Proof.
  intros Hreach.
  destruct (signal_reachable_consistent t Hreach) as (Hok & _ & Hox).
  rewrite forallb_forall in Hok. split.
  - intros r Hin. apply signal_row_ok_columns, Hok, Hin.
  - intros i j r1 r2 Hi Hj Heq.
    apply (signal_unique_positions oxmeta_id t Hox i j r1 r2 Hi Hj).
    destruct (signal_row_ok_columns r1 (Hok r1 (nth_error_In _ _ Hi)))
      as (_ & key & Hkey & _).
    rewrite <- Heq, Hkey. cbn. apply String.eqb_refl.
Qed.

End ItemInvariant.

(** A news item and a tweet. *)
Definition sample_signal (key origin : string) : Signals.row unit unit unit :=
  {| id := Some ("id-of-" ++ key)%string;
     oxmeta_id := Some key;
     source := Some origin;
     category := Some "bitcoin"%string;
     sources := Some [origin];
     title := Some "Bitcoin moves"%string;
     short_context := None;
     long_context := None;
     text := None;
     sentiment := Some "neutral"%string;
     sentiment_value := None;
     feed_categories := None;
     tokens := Some ["BTC"%string];
     author := None;
     timestamp_ := Some tt;
     normalized_date := None;
     metadata := None;
     created_at := Some tt |}.

Lemma sample_signals_reachable :
  reachable [sample_signal "n1" "cryptonews"; sample_signal "t1" "twitter"].
Proof.
  apply (reachable_step _ _ _ (Insert _ _ _ (sample_signal "t1" "twitter"))
           [sample_signal "n1" "cryptonews"]); [|reflexivity].
  apply (reachable_step _ _ _ (Insert _ _ _ (sample_signal "n1" "cryptonews")) []);
    [apply reachable_empty | reflexivity].
Qed.

Lemma signals_have_a_known_source_and_a_unique_oxmeta_id_witness :
  insert (sample_signal "r1" "reddit")
         [sample_signal "n1" "cryptonews"; sample_signal "t1" "twitter"] = None /\
  (source (sample_signal "t1" "twitter") = Some "cryptonews"%string \/
   source (sample_signal "t1" "twitter") = Some "twitter"%string).
Proof.
  split; [reflexivity|].
  apply (proj1 (signals_have_a_known_source_and_a_unique_oxmeta_id unit unit unit
                  [sample_signal "n1" "cryptonews"; sample_signal "t1" "twitter"]
                  sample_signals_reachable)).
  right. left. reflexivity.
Defined.

End SignalFacts.
